(** * ClinicHub: appointment scheduling and queue allocation

    A shallow embedding of [appointments/models.py], [appointments/forms.py]
    and the lifecycle views of [appointments/views.py], with the properties
    of the scheduling core stated and proved over it.  The desk follows:
    the queue snapshots, the dashboard, the patient portal and the admin
    actions, with their properties after those of the core.

    Conventions.
    - A point in time is a [Z]: microseconds since the epoch, in UTC.
    - A calendar date is a [Z]: the number of the day since the epoch.
    - The database is a record of tables; a table is the list of its rows in
      insertion order.  Every operation is one atomic unit of work: it
      returns the new database, or raises and leaves the database as it
      was (the transaction is rolled back). *)

From stdpp Require Import base decidable option list numbers strings pretty.
From Stdlib Require Import ZArith Lia Ascii.

Local Open Scope Z_scope.

(** ** Time *)

Definition MINUTE : Z := 60000000.
Definition DAY : Z := 86400000000.

(** [timedelta(minutes=1)] *)
Definition PAST_MARGIN : Z := MINUTE.

(** Django returns the datetimes it loads from the database as aware
    datetimes in UTC (USE_TZ is on: [localtime()] is called without
    argument throughout). *)
Definition UTC : Z := 0.

(** A Python [datetime]: naive (a wall clock without zone), or aware (an
    instant together with the offset of its [tzinfo]). *)
Inductive datetime : Type :=
  | Naive (wall : Z)
  | Aware (utc : Z) (offset : Z).

#[global] Instance datetime_eq_dec : EqDecision datetime.
Proof. solve_decision. Defined.

(** ** Choice enums *)

Module AppointmentStatus.
Inductive t : Type := PENDING | COMPLETED | CANCELLED.
#[global] Instance eq_dec : EqDecision t.
Proof. solve_decision. Defined.
End AppointmentStatus.

Module BookingRequestStatus.
Inductive t : Type := PENDING | CONFIRMED | REJECTED.
#[global] Instance eq_dec : EqDecision t.
Proof. solve_decision. Defined.
End BookingRequestStatus.

(** ** Rows *)

(** [class Appointment(models.Model)].  [pk] is [None] until the row is
    inserted.  [iqd_amount] is optional only in memory ([save] turns
    [None] into 0). *)
Record Appointment : Type := mkAppointment {
  pk : option Z;
  patient_id : Z;
  doctor_id : Z;
  scheduled_time : option datetime;
  scheduled_day : option Z;
  queue_number : option N;
  iqd_amount : option Z;
  notes : option string;
  status : AppointmentStatus.t;
  created_at : option Z
}.

Definition set_pk (v : option Z) (a : Appointment) : Appointment :=
  mkAppointment v (patient_id a) (doctor_id a) (scheduled_time a)
    (scheduled_day a) (queue_number a) (iqd_amount a) (notes a) (status a)
    (created_at a).
Definition set_patient_id (v : Z) (a : Appointment) : Appointment :=
  mkAppointment (pk a) v (doctor_id a) (scheduled_time a)
    (scheduled_day a) (queue_number a) (iqd_amount a) (notes a) (status a)
    (created_at a).
Definition set_doctor_id (v : Z) (a : Appointment) : Appointment :=
  mkAppointment (pk a) (patient_id a) v (scheduled_time a)
    (scheduled_day a) (queue_number a) (iqd_amount a) (notes a) (status a)
    (created_at a).
Definition set_scheduled_time (v : option datetime) (a : Appointment) : Appointment :=
  mkAppointment (pk a) (patient_id a) (doctor_id a) v
    (scheduled_day a) (queue_number a) (iqd_amount a) (notes a) (status a)
    (created_at a).
Definition set_scheduled_day (v : option Z) (a : Appointment) : Appointment :=
  mkAppointment (pk a) (patient_id a) (doctor_id a) (scheduled_time a)
    v (queue_number a) (iqd_amount a) (notes a) (status a)
    (created_at a).
Definition set_queue_number (v : option N) (a : Appointment) : Appointment :=
  mkAppointment (pk a) (patient_id a) (doctor_id a) (scheduled_time a)
    (scheduled_day a) v (iqd_amount a) (notes a) (status a)
    (created_at a).
Definition set_iqd_amount (v : option Z) (a : Appointment) : Appointment :=
  mkAppointment (pk a) (patient_id a) (doctor_id a) (scheduled_time a)
    (scheduled_day a) (queue_number a) v (notes a) (status a)
    (created_at a).
Definition set_notes (v : option string) (a : Appointment) : Appointment :=
  mkAppointment (pk a) (patient_id a) (doctor_id a) (scheduled_time a)
    (scheduled_day a) (queue_number a) (iqd_amount a) v (status a)
    (created_at a).
Definition set_status (v : AppointmentStatus.t) (a : Appointment) : Appointment :=
  mkAppointment (pk a) (patient_id a) (doctor_id a) (scheduled_time a)
    (scheduled_day a) (queue_number a) (iqd_amount a) (notes a) v
    (created_at a).
Definition set_created_at (v : option Z) (a : Appointment) : Appointment :=
  mkAppointment (pk a) (patient_id a) (doctor_id a) (scheduled_time a)
    (scheduled_day a) (queue_number a) (iqd_amount a) (notes a) (status a)
    v.

(** [class PatientBookingRequest(models.Model)] *)
Record PatientBookingRequest : Type := mkPatientBookingRequest {
  br_pk : option Z;
  br_full_name : string;
  br_date_of_birth : option Z;
  br_contact_info : string;
  br_doctor_id : option Z;
  br_scheduled_time : option datetime;
  br_submitted_at : option Z;
  br_status : BookingRequestStatus.t
}.

(** [class Notification(models.Model)]: the title and the request it is
    about.  The message text (names and a formatted time) is presentation
    and is left out. *)
Record Notification : Type := mkNotification {
  n_title : string;
  n_is_read : bool;
  n_related_booking_request : option Z
}.

(** The database: the Doctor and Patient tables are owned elsewhere and
    only their keys matter here. *)
Record DB : Type := mkDB {
  doctors : list Z;
  patients : list Z;
  appointments : list Appointment;
  appointment_seq : Z;
  booking_requests : list PatientBookingRequest;
  booking_request_seq : Z;
  notifications : list Notification
}.

Definition set_appointments (rows : list Appointment) (db : DB) : DB :=
  mkDB (doctors db) (patients db) rows (appointment_seq db)
    (booking_requests db) (booking_request_seq db) (notifications db).
Definition set_appointment_seq (n : Z) (db : DB) : DB :=
  mkDB (doctors db) (patients db) (appointments db) n
    (booking_requests db) (booking_request_seq db) (notifications db).
Definition set_booking_requests (rows : list PatientBookingRequest) (db : DB) : DB :=
  mkDB (doctors db) (patients db) (appointments db) (appointment_seq db)
    rows (booking_request_seq db) (notifications db).
Definition set_booking_request_seq (n : Z) (db : DB) : DB :=
  mkDB (doctors db) (patients db) (appointments db) (appointment_seq db)
    (booking_requests db) n (notifications db).
Definition set_notifications (rows : list Notification) (db : DB) : DB :=
  mkDB (doctors db) (patients db) (appointments db) (appointment_seq db)
    (booking_requests db) (booking_request_seq db) rows.

(** ** Exceptions *)

(** A [ValidationError] carries its error dictionary as the list of its
    (field, message) entries; the messages of Django's own validators are
    given by their error code. *)
Inductive exn : Type :=
  | ValidationError (errors : list (string * string))
  | IntegrityError (constraint : string)
  | DoesNotExist (model : string)
  | DatabaseError (msg : string)
  | ValueError (msg : string).

Inductive result (A : Type) : Type :=
  | Ok (a : A)
  | Raise (e : exn).
Arguments Ok {A} a.
Arguments Raise {A} e.

#[global] Instance result_ret : MRet result := fun A a => Ok a.
#[global] Instance result_bind : MBind result := fun A B k m =>
  match m with
  | Ok a => k a
  | Raise e => Raise e
  end.

(** ** The engine *)

(** What the engine takes from its surroundings.
    - [LOCAL_TZ = get_default_timezone()]: the UTC offset of the project's
      time zone (settings.TIME_ZONE), in microseconds;
    - [strftime]: Python's [datetime.strftime], kept abstract. *)
Class Platform : Type := {
  LOCAL_TZ : Z;
  strftime : string -> datetime -> string
}.

Section Scheduling.

Context {platform : Platform}.

(** The instant of a datetime.  A naive value is a wall clock of the local
    zone ([make_aware(dt, LOCAL_TZ)]). *)
Definition timestamp (dt : datetime) : Z :=
  match dt with
  | Naive wall => wall - LOCAL_TZ
  | Aware utc _ => utc
  end.

(** [dt.astimezone(tz)] *)
Definition astimezone (tz : Z) (dt : datetime) : datetime :=
  Aware (timestamp dt) tz.

(** [dt.date()]: the calendar date on the datetime's own clock. *)
Definition date (dt : datetime) : Z :=
  match dt with
  | Naive wall => wall `div` DAY
  | Aware utc offset => (utc + offset) `div` DAY
  end.

(** [_to_local_aware(dt)] *)
Definition _to_local_aware (dt : option datetime) : option datetime :=
  match dt with
  | None => None
  | Some (Naive wall) => Some (Aware (wall - LOCAL_TZ) LOCAL_TZ)
  | Some (Aware utc offset) => Some (astimezone LOCAL_TZ (Aware utc offset))
  end.

(** [localtime()] and [timezone.localdate()] at clock reading [now]. *)
Definition localtime (now : Z) : datetime := Aware now LOCAL_TZ.
Definition localdate (now : Z) : Z := date (localtime now).

(** The value of a DateTimeField as the database gives it back. *)
Definition from_db (dt : datetime) : datetime := Aware (timestamp dt) UTC.

(** The [__date] lookup: the local calendar date of a stored value. *)
Definition lookup_date (dt : datetime) : Z := date (astimezone LOCAL_TZ dt).

(** *** Storage: constraints and primitive writes *)

Definition active (a : Appointment) : Prop :=
  status a ≠ AppointmentStatus.CANCELLED.

#[global] Instance active_dec a : Decision (active a).
Proof. unfold active. apply _. Defined.

(** [uq_doctor_time_not_cancelled]: the key of a row the constraint
    applies to. *)
Definition key_time (a : Appointment) : option (Z * Z) :=
  if decide (active a) then
    match scheduled_time a with
    | Some dt => Some (doctor_id a, timestamp dt)
    | None => None
    end
  else None.

(** [uq_doctor_day_queue_active] *)
Definition key_queue (a : Appointment) : option (Z * Z * N) :=
  if decide (active a) then
    match scheduled_day a, queue_number a with
    | Some d, Some q => Some (doctor_id a, d, q)
    | _, _ => None
    end
  else None.

Definition uq_doctor_time_not_cancelled (rows : list Appointment) : Prop :=
  NoDup (omap key_time rows).
Definition uq_doctor_day_queue_active (rows : list Appointment) : Prop :=
  NoDup (omap key_queue rows).
Definition pk_unique (rows : list Appointment) : Prop :=
  NoDup (pk <$> rows).

(** What the storage layer checks on every write: the primary key and the
    two conditional unique indexes. *)
Definition check_constraints (rows : list Appointment) : result unit :=
  if decide (pk_unique rows) then
    if decide (uq_doctor_time_not_cancelled rows) then
      if decide (uq_doctor_day_queue_active rows) then Ok tt
      else Raise (IntegrityError "uq_doctor_day_queue_active")
    else Raise (IntegrityError "uq_doctor_time_not_cancelled")
  else Raise (IntegrityError "appointment_pkey").

(** [Appointment.objects.filter(pk=k).first()] *)
Definition get_appointment (k : Z) (db : DB) : option Appointment :=
  head (filter (λ r, pk r = Some k) (appointments db)).

(** The row an instance is written as. *)
Definition to_row (a : Appointment) : Appointment :=
  set_scheduled_time (from_db <$> scheduled_time a) a.

(** One column of an UPDATE: taken from the instance when the field is
    named in [update_fields] (or when all fields are written). *)
Definition written (update_fields : option (list string)) (name : string) : bool :=
  match update_fields with
  | None => true
  | Some names => bool_decide (name ∈ names)
  end.

Definition write_fields (update_fields : option (list string))
    (a r : Appointment) : Appointment :=
  let col {A} (name : string) (f : Appointment -> A) : A :=
    if written update_fields name then f (to_row a) else f r in
  mkAppointment (pk r)
    (col "patient" patient_id) (col "doctor" doctor_id)
    (col "scheduled_time" scheduled_time) (col "scheduled_day" scheduled_day)
    (col "queue_number" queue_number) (col "iqd_amount" iqd_amount)
    (col "notes" notes) (col "status" status) (col "created_at" created_at).

(** [queryset.filter(pk=k).update(...)]: one UPDATE statement. *)
Definition update_row (k : Z) (f : Appointment -> Appointment) (db : DB) : result DB :=
  let rows := (λ r, if decide (pk r = Some k) then f r else r) <$> appointments db in
  _ ← check_constraints rows;
  Ok (set_appointments rows db).

(** INSERT, the key taken from the sequence unless given. *)
Definition insert_row (a : Appointment) (now : Z) (db : DB) : result (Appointment * DB) :=
  let a' :=
    match pk a with
    | Some _ => set_created_at (Some now) a
    | None => set_created_at (Some now) (set_pk (Some (appointment_seq db)) a)
    end in
  let rows := appointments db ++ [to_row a'] in
  _ ← check_constraints rows;
  Ok (a', match pk a with
          | Some _ => set_appointments rows db
          | None => set_appointment_seq (appointment_seq db + 1) (set_appointments rows db)
          end).

(** [models.Model.save(update_fields=...)] *)
Definition Model_save (a : Appointment) (update_fields : option (list string))
    (now : Z) (db : DB) : result (Appointment * DB) :=
  match update_fields with
  | Some [] => Ok (a, db)
  | _ =>
    match pk a with
    | None =>
      match update_fields with
      | Some _ => Raise (ValueError "Cannot force an update in save() with no primary key.")
      | None => insert_row a now db
      end
    | Some k =>
      match get_appointment k db with
      | Some _ =>
        db' ← update_row k (write_fields update_fields a) db;
        Ok (a, db')
      | None =>
        match update_fields with
        | Some _ => Raise (DatabaseError "Save with update_fields did not affect any rows.")
        | None => insert_row a now db
        end
      end
    end
  end.

(** *** Appointment.clean *)

(** The exact-instant clash test of [clean]: another active appointment of
    the doctor at [aware]. *)
Definition clashes (self_pk : option Z) (doctor : Z) (aware : datetime)
    (r : Appointment) : Prop :=
  pk r ≠ self_pk
  ∧ doctor_id r = doctor
  ∧ (timestamp <$> scheduled_time r) = Some (timestamp aware)
  ∧ status r ≠ AppointmentStatus.CANCELLED.

#[global] Instance clashes_dec self_pk doctor aware r :
  Decision (clashes self_pk doctor aware r).
Proof. unfold clashes. apply _. Defined.

(** [clean]: without a [scheduled_time] there is nothing to validate;
    with one, [aware] is its normal form. *)
Definition Appointment_clean (self : Appointment) (now : Z) (db : DB) : result unit :=
  match _to_local_aware (scheduled_time self) with
  | None => Ok tt
  | Some aware =>
    if decide (timestamp aware < timestamp (localtime now) - PAST_MARGIN) then
      Raise (ValidationError
        [("scheduled_time", "Cannot book an appointment in the past.")])
    else if decide (Exists (clashes (pk self) (doctor_id self) aware) (appointments db)) then
      Raise (ValidationError
        [("scheduled_time", "This time slot is already booked for this doctor.")])
    else Ok tt
  end.

(** The declared field validators, as [Model.clean_fields] runs them: the
    two foreign keys must resolve, [iqd_amount] has
    [MinValueValidator(0)], which runs first, and [max_digits=15]. *)
Definition Appointment_clean_fields (self : Appointment) (db : DB) : list (string * string) :=
  (if decide (patient_id self ∈ patients db) then [] else [("patient", "invalid")])
  ++ (if decide (doctor_id self ∈ doctors db) then [] else [("doctor", "invalid")])
  ++ match iqd_amount self with
     | None => [("iqd_amount", "null")]
     | Some v =>
       (if decide (0 ≤ v) then [] else [("iqd_amount", "min_value")])
       ++ (if decide (Z.abs v < 10 ^ 15) then [] else [("iqd_amount", "max_digits")])
     end.

(** The rows a uniqueness check compares an instance with: all of them
    for an instance that has no key yet, the rows of another key for one
    that was loaded from the store. *)
Definition other_row (self r : Appointment) : Prop :=
  match pk self with
  | Some k => pk r ≠ Some k
  | None => True
  end.

#[global] Instance other_row_dec self r : Decision (other_row self r).
Proof. unfold other_row. destruct (pk self); apply _. Defined.

(** [UniqueConstraint.validate] for one of the two conditional
    constraints of [Meta.constraints]: [fields] are its columns and [key]
    gives the values a row holds in them when its condition is met.  The
    check is skipped when one of the columns is in [exclude], and has
    nothing to refuse when the instance holds NULL in one of them or does
    not meet the condition; otherwise it looks for another row that meets
    the condition with the same values. *)
Definition UniqueConstraint_validate {K} `{EqDecision K} (name : string)
    (fields : list string) (key : Appointment -> option K)
    (self : Appointment) (exclude : list string) (db : DB) : list (string * string) :=
  if decide (Exists (λ field, field ∈ exclude) fields) then []
  else
    match key self with
    | None => []
    | Some v =>
      let queryset := filter (other_row self) (appointments db) in
      if decide (Exists (λ r, key r = Some v) queryset)
      then [("__all__", "Constraint “" +:+ name +:+ "” is violated.")]
      else []
    end.

(** [Model.validate_constraints(exclude)] *)
Definition Appointment_validate_constraints (self : Appointment)
    (exclude : list string) (db : DB) : list (string * string) :=
  UniqueConstraint_validate "uq_doctor_time_not_cancelled"
    ["doctor"; "scheduled_time"] key_time self exclude db
  ++ UniqueConstraint_validate "uq_doctor_day_queue_active"
       ["doctor"; "scheduled_day"; "queue_number"] key_queue self exclude db.

(** [Model.full_clean()]: the field errors, the errors of [clean] and
    then, for the fields that passed so far, the constraints; all of them
    are raised together.  ([validate_unique] runs between [clean] and the
    constraints; the key is the one unique column, and it cannot clash: an
    instance without a key has nothing to compare, and one with a key is
    compared with the other rows only.) *)
Definition Appointment_full_clean (self : Appointment) (now : Z) (db : DB) : result unit :=
  let errors :=
    Appointment_clean_fields self db
    ++ match Appointment_clean self now db with
       | Raise (ValidationError errs) => errs
       | _ => []
       end in
  let exclude := fst <$> errors in
  let errors := errors ++ Appointment_validate_constraints self exclude db in
  match errors with
  | [] => Ok tt
  | _ => Raise (ValidationError errors)
  end.

(** *** Appointment.save *)

(** [aggregate(mx=Max(column))]: SQL MAX skips NULL and is NULL on no
    value. *)
Definition Max (column : list (option N)) : option N :=
  foldr (λ v acc,
    match v, acc with
    | Some x, Some y => Some (N.max x y)
    | Some x, None => Some x
    | None, _ => acc
    end) None column.

(** Python's [mx or 0] *)
Definition or_0 (mx : option N) : N :=
  match mx with
  | Some x => if decide (x = 0%N) then 0%N else x
  | None => 0%N
  end.

(** The locked queryset of [save]: the active appointments of the
    doctor on the day. *)
Definition partition_qs (doctor : Z) (day : option Z) (db : DB) : list Appointment :=
  filter (λ r, doctor_id r = doctor ∧ scheduled_day r = day
               ∧ status r ≠ AppointmentStatus.CANCELLED) (appointments db).

Definition Appointment_save (self : Appointment) (update_fields : option (list string))
    (now : Z) (db : DB) : result (Appointment * DB) :=
  let self := set_scheduled_time (_to_local_aware (scheduled_time self)) self in
  let self :=
    match scheduled_time self with
    | Some dt => set_scheduled_day (Some (date (astimezone LOCAL_TZ dt))) self
    | None => set_scheduled_day None self
    end in
  let self :=
    match iqd_amount self with
    | None => set_iqd_amount (Some 0) self
    | Some _ => self
    end in
  let creating := bool_decide (pk self = None) in
  if negb creating then
    _ ← Appointment_full_clean self now db;
    Model_save self update_fields now db
  else
    match scheduled_time self with
    | None =>
      _ ← Appointment_full_clean self now db;
      Model_save self update_fields now db
    | Some _ =>
      if decide (doctor_id self ∈ doctors db) then
        let qs := partition_qs (doctor_id self) (scheduled_day self) db in
        let last := or_0 (Max (queue_number <$> qs)) in
        let self := set_queue_number (Some (last + 1)%N) self in
        _ ← Appointment_full_clean self now db;
        Model_save self update_fields now db
      else Raise (DoesNotExist "Doctor")
    end.

(** *** Text helpers *)

(** A Python [str] is kept as its UTF-8 bytes.  [str.isspace] holds of
    U+0009 to U+000D, U+001C to U+0020, U+0085, U+00A0, U+1680, U+2000 to
    U+200A, U+2028, U+2029, U+202F, U+205F and U+3000; the three tests
    recognise the encodings of these characters, of one, two and three
    bytes. *)
Definition isspace (c : ascii) : bool :=
  let n := nat_of_ascii c in
  ((9 <=? n) && (n <=? 13) || (28 <=? n) && (n <=? 32))%nat.

Definition isspace2 (c1 c2 : ascii) : bool :=
  let n1 := nat_of_ascii c1 in
  let n2 := nat_of_ascii c2 in
  ((n1 =? 194) && ((n2 =? 133) || (n2 =? 160)))%nat.

Definition isspace3 (c1 c2 c3 : ascii) : bool :=
  let n1 := nat_of_ascii c1 in
  let n2 := nat_of_ascii c2 in
  let n3 := nat_of_ascii c3 in
  ((n1 =? 225) && (n2 =? 154) && (n3 =? 128)
   || (n1 =? 226) && (n2 =? 128)
      && ((128 <=? n3) && (n3 <=? 138) || (n3 =? 168) || (n3 =? 169) || (n3 =? 175))
   || (n1 =? 226) && (n2 =? 129) && (n3 =? 159)
   || (n1 =? 227) && (n2 =? 128) && (n3 =? 128))%nat.

(** [s.lstrip()]: the white-space characters at the start are dropped,
    one character of one, two or three bytes at a time. *)
Fixpoint lstrip (s : string) : string :=
  match s with
  | EmptyString => EmptyString
  | String c1 s1 =>
    if isspace c1 then lstrip s1
    else
      match s1 with
      | EmptyString => s
      | String c2 s2 =>
        if isspace2 c1 c2 then lstrip s2
        else
          match s2 with
          | EmptyString => s
          | String c3 s3 => if isspace3 c1 c2 c3 then lstrip s3 else s
          end
      end
  end.

(** [s.rstrip()]: the string up to the first place from which on there
    is white space only. *)
Fixpoint rstrip (s : string) : string :=
  match s with
  | EmptyString => EmptyString
  | String c s' =>
    match lstrip s with
    | EmptyString => EmptyString
    | _ => String c (rstrip s')
    end
  end.

(** [s.strip()] *)
Definition strip (s : string) : string := rstrip (lstrip s).

(** [len(s)]: the number of characters, which are the bytes that do not
    continue a character (those outside 128 to 191). *)
Fixpoint len (s : string) : nat :=
  match s with
  | EmptyString => O
  | String c s' =>
    let n := nat_of_ascii c in
    if ((128 <=? n) && (n <=? 191))%nat then len s' else S (len s')
  end.

(** Python's [a or b] on strings. *)
Definition str_or (a b : string) : string :=
  match a with
  | EmptyString => b
  | _ => a
  end.

(** [f"{x}"] of an optional string: [None] prints as the word None. *)
Definition format_opt (x : option string) : string :=
  match x with
  | Some s => s
  | None => "None"
  end.

(** *** Views *)

Inductive Method : Type := GET | POST.

(** A key as it arrives in a request: a string that [int()] reads as the
    number [k], or any other string, given as [repr] shows it. *)
Inductive PostedId : Type :=
  | Number (k : Z)
  | NotANumber (shown : string).

Inductive Level : Type := error | success.

(** What a view answers: a redirect or a page, with the flash message it
    queued; a JSON body; or an exception nobody caught. *)
Inductive HttpResponse : Type :=
  | Http404
  | HttpResponseNotAllowed
  | redirect (to : string) (message : option (Level * string))
  | render (template : string) (message : option (Level * string))
  | _json_error (msg : string) (status : Z)
  | _json_success (updated_id : option Z) (updated_status : AppointmentStatus.t)
  | ServerError (e : exn).

(** [cancel_appointment(request, pk)]: [reason] is
    [request.POST.get("reason")]. *)
Definition cancel_appointment (method : Method) (reason : option string)
    (user_full_name username : string) (k : Z) (now : Z) (db : DB)
    : HttpResponse * DB :=
  match get_appointment k db with
  | None => (Http404, db)
  | Some appt =>
    if decide (status appt = AppointmentStatus.COMPLETED) then
      (redirect "appointments:appointment_list"
         (Some (error, "❌ Cannot cancel a completed appointment.")), db)
    else
      match method with
      | POST =>
        let reason := strip (str_or (default "" reason) "") in
        let update_kwargs : Appointment -> Appointment :=
          match reason with
          | EmptyString => set_status AppointmentStatus.CANCELLED
          | _ =>
            let stamp := strftime "%Y-%m-%d %H:%M" (localtime now) in
            let user_display := str_or user_full_name username in
            let note_line :=
              "[Cancelled " +:+ stamp +:+ " by " +:+ user_display +:+ "] " +:+ reason in
            let new_notes := strip (format_opt (notes appt) +:+ "
" +:+ note_line) in
            λ r, set_notes (Some new_notes) (set_status AppointmentStatus.CANCELLED r)
          end in
        match update_row k update_kwargs db with
        | Ok db' =>
          (redirect "appointments:appointment_list"
             (Some (success, "✅ Appointment cancelled successfully.")), db')
        | Raise e => (ServerError e, db)
        end
      | GET => (render "appointments/delete_confirmation.html" None, db)
      end
  end.

(** [delete_appointment(request, pk)] *)
Definition delete_appointment (method : Method) (is_superuser : bool) (k : Z)
    (db : DB) : HttpResponse * DB :=
  match get_appointment k db with
  | None => (Http404, db)
  | Some appt =>
    if negb is_superuser then
      (redirect "appointments:appointment_list"
         (Some (error, "❌ Only administrators can delete appointments permanently.")), db)
    else
      match method with
      | POST =>
        (redirect "appointments:appointment_list"
           (Some (success, "🗑️ Appointment deleted permanently.")),
         set_appointments (filter (λ r, pk r ≠ Some k) (appointments db)) db)
      | GET => (render "appointments/delete_confirmation.html" None, db)
      end
  end.

(** [confirm_appointment(request, pk)], POST only. *)
Definition confirm_appointment (method : Method) (k : Z) (now : Z) (db : DB)
    : HttpResponse * DB :=
  match method with
  | GET => (HttpResponseNotAllowed, db)
  | POST =>
    match get_appointment k db with
    | None => (Http404, db)
    | Some appt =>
      if decide (status appt = AppointmentStatus.CANCELLED) then
        (redirect "appointments:appointment_list"
           (Some (error, "❌ Cannot confirm a cancelled appointment.")), db)
      else
        match Appointment_save (set_status AppointmentStatus.PENDING appt) (Some ["status"]) now db with
        | Ok (_, db') =>
          (redirect "appointments:appointment_list"
             (Some (success, "Appointment confirmed.")), db')
        | Raise e => (ServerError e, db)
        end
    end
  end.

(** [order_by("scheduled_time").first()]: the earliest row, the first
    such row of the table on a tie (the rows it is used on all have a
    time). *)
Definition earliest (rows : list Appointment) : option Appointment :=
  foldr (λ r best,
    match best with
    | None => Some r
    | Some b =>
      if decide (default 0 (timestamp <$> scheduled_time r)
                 ≤ default 0 (timestamp <$> scheduled_time b))
      then Some r else Some b
    end) None rows.

(** [base_qs] of call-next: the doctor's PENDING appointments whose
    local date is today. *)
Definition base_qs (doctor : Z) (today : Z) (db : DB) : list Appointment :=
  filter (λ r, doctor_id r = doctor
               ∧ status r = AppointmentStatus.PENDING
               ∧ (lookup_date <$> scheduled_time r) = Some today)
         (appointments db).

(** The test that sends an explicitly named appointment back to the head
    of the queue: [not nxt or nxt.status != PENDING or
    (nxt.scheduled_time and nxt.scheduled_time.date() != today)].  The
    appointment was just loaded, so [.date()] is taken on the value as
    the database gives it back. *)
Definition not_callable (today : Z) (nxt : option Appointment) : Prop :=
  match nxt with
  | None => True
  | Some a =>
    status a ≠ AppointmentStatus.PENDING
    ∨ match scheduled_time a with
      | Some dt => date (from_db dt) ≠ today
      | None => False
      end
  end.

#[global] Instance not_callable_dec today nxt : Decision (not_callable today nxt).
Proof. unfold not_callable. destruct nxt as [a|]; [destruct (scheduled_time a)|]; apply _. Defined.

(** [call_next_api(request, doctor_id)], POST only; [appt_id] is
    [request.POST.get("appointment_id")], [None] also when the value is
    the empty string.  [filter(pk=appt_id)] raises ValueError on a value
    that is not a number, and nothing catches it.  The queue snapshot in
    the answer is left out. *)
Definition call_next_api (method : Method) (appt_id : option PostedId) (doctor : Z)
    (now : Z) (db : DB) : HttpResponse * DB :=
  match method with
  | GET => (HttpResponseNotAllowed, db)
  | POST =>
    let today := localdate now in
    let base := base_qs doctor today db in
    let nxt :=
      match appt_id with
      | Some (Number i) =>
        let nxt := head (filter (λ r, pk r = Some i ∧ doctor_id r = doctor) (appointments db)) in
        Ok (if decide (not_callable today nxt) then earliest base else nxt)
      | Some (NotANumber shown) =>
        Raise (ValueError ("Field 'id' expected a number but got " +:+ shown +:+ "."))
      | None => Ok (earliest base)
      end in
    match nxt with
    | Raise e => (ServerError e, db)
    | Ok None => (_json_error "No pending appointments." 404, db)
    | Ok (Some nxt) =>
      match Appointment_save (set_status AppointmentStatus.COMPLETED nxt) (Some ["status"]) now db with
      | Ok (nxt, db') => (_json_success (pk nxt) (status nxt), db')
      | Raise e => (ServerError e, db)
      end
    end
  end.

(** *** PatientBookingRequest *)

(** [errors[key] = value] on a dictionary kept as its list of items. *)
Fixpoint setitem (key value : string) (d : list (string * string))
    : list (string * string) :=
  match d with
  | [] => [(key, value)]
  | (k, v) :: d' =>
    if decide (k = key) then (key, value) :: d' else (k, v) :: setitem key value d'
  end.

(** An active appointment of the doctor at the exact instant. *)
Definition occupies (doctor : Z) (aware : datetime) (r : Appointment) : Prop :=
  doctor_id r = doctor
  ∧ (timestamp <$> scheduled_time r) = Some (timestamp aware)
  ∧ status r ≠ AppointmentStatus.CANCELLED.

#[global] Instance occupies_dec doctor aware r : Decision (occupies doctor aware r).
Proof. unfold occupies. apply _. Defined.

Definition PatientBookingRequest_clean (self : PatientBookingRequest)
    (now : Z) (db : DB) : result unit :=
  let errors : list (string * string) := [] in
  let errors :=
    match _to_local_aware (br_scheduled_time self) with
    | Some aware =>
      if decide (timestamp aware < timestamp (localtime now) - PAST_MARGIN)
      then setitem "scheduled_time" "Requested time is in the past." errors
      else errors
    | None => errors
    end in
  let errors :=
    match br_doctor_id self, _to_local_aware (br_scheduled_time self) with
    | Some doctor, Some aware =>
      if decide (doctor ≠ 0 ∧ Exists (occupies doctor aware) (appointments db))
      then setitem "scheduled_time" "This time is already allocated for this doctor." errors
      else errors
    | _, _ => errors
    end in
  match errors with
  | [] => Ok tt
  | _ => Raise (ValidationError errors)
  end.

(** The declared fields of the request: two bounded, non-blank texts, a
    doctor that resolves, a time that is set. *)
Definition PatientBookingRequest_clean_fields (self : PatientBookingRequest)
    (db : DB) : list (string * string) :=
  let text (name : string) (v : string) (max_length : nat) :=
    match v with
    | EmptyString => [(name, "blank")]
    | _ => if decide (len v ≤ max_length)%nat then [] else [(name, "max_length")]
    end in
  text "full_name" (br_full_name self) 100%nat
  ++ text "contact_info" (br_contact_info self) 200%nat
  ++ match br_doctor_id self with
     | None => [("doctor", "null")]
     | Some d => if decide (d ∈ doctors db) then [] else [("doctor", "invalid")]
     end
  ++ match br_scheduled_time self with
     | None => [("scheduled_time", "null")]
     | Some _ => []
     end.

Definition PatientBookingRequest_full_clean (self : PatientBookingRequest)
    (now : Z) (db : DB) : result unit :=
  let errors :=
    PatientBookingRequest_clean_fields self db
    ++ match PatientBookingRequest_clean self now db with
       | Raise (ValidationError errs) => errs
       | _ => []
       end in
  match errors with
  | [] => Ok tt
  | _ => Raise (ValidationError errors)
  end.

Definition PatientBookingRequest_save (self : PatientBookingRequest)
    (now : Z) (db : DB) : result (PatientBookingRequest * DB) :=
  let creating := bool_decide (br_pk self = None) in
  let self :=
    mkPatientBookingRequest (br_pk self) (br_full_name self)
      (br_date_of_birth self) (br_contact_info self) (br_doctor_id self)
      (_to_local_aware (br_scheduled_time self)) (br_submitted_at self)
      (br_status self) in
  _ ← PatientBookingRequest_full_clean self now db;
  let stored (k : option Z) (submitted : option Z) :=
    mkPatientBookingRequest k (br_full_name self) (br_date_of_birth self)
      (br_contact_info self) (br_doctor_id self)
      (from_db <$> br_scheduled_time self) submitted (br_status self) in
  match br_pk self with
  | None =>
    let k := booking_request_seq db in
    let db :=
      set_booking_request_seq (k + 1)
        (set_booking_requests (booking_requests db ++ [stored (Some k) (Some now)]) db) in
    let db :=
      if creating then
        set_notifications
          (notifications db ++ [mkNotification "New Patient Booking" false (Some k)]) db
      else db in
    Ok (mkPatientBookingRequest (Some k) (br_full_name self) (br_date_of_birth self)
          (br_contact_info self) (br_doctor_id self) (br_scheduled_time self)
          (Some now) (br_status self), db)
  | Some k =>
    let rows :=
      if decide (Exists (λ r, br_pk r = Some k) (booking_requests db)) then
        (λ r, if decide (br_pk r = Some k) then stored (Some k) (br_submitted_at self) else r)
          <$> booking_requests db
      else booking_requests db ++ [stored (Some k) (Some now)] in
    Ok (self, set_booking_requests rows db)
  end.

(** [PatientBookingRequest.objects.create(...)]: the request as stored,
    or the exception, the store left as it was. *)
Definition PatientBookingRequest_create (self : PatientBookingRequest)
    (now : Z) (db : DB) : result PatientBookingRequest * DB :=
  match PatientBookingRequest_save self now db with
  | Ok (r, db') => (Ok r, db')
  | Raise e => (Raise e, db)
  end.

(** *** Forms *)

(** The bound data of [AppointmentForm], each field already parsed;
    [None] is a field left empty. *)
Record AppointmentFormData : Type := mkAppointmentFormData {
  f_patient : option Z;
  f_doctor : option Z;
  f_scheduled_time : option datetime;
  f_status : option AppointmentStatus.t;
  f_iqd_amount : option Z;
  f_notes : string
}.

(** [AppointmentForm.clean_scheduled_time] *)
Definition AppointmentForm_clean_scheduled_time (dt : option datetime) (now : Z)
    : result (option datetime) :=
  match _to_local_aware dt with
  | None => Ok dt
  | Some aware =>
    if decide (timestamp aware < timestamp (localtime now) - PAST_MARGIN) then
      Raise (ValidationError [("scheduled_time", "The selected time is in the past.")])
    else Ok (Some aware)
  end.

(** The queryset of [AppointmentForm.clean]: an appointment of the doctor,
    other than the one being edited, within the one-minute window. *)
Definition overlapping (instance_pk : option Z) (doctor : Z) (aware : datetime)
    (r : Appointment) : Prop :=
  let window_start := timestamp aware - MINUTE in
  let window_end := timestamp aware + MINUTE in
  doctor_id r = doctor
  ∧ (∃ t, (timestamp <$> scheduled_time r) = Some t ∧ window_start ≤ t ≤ window_end)
  ∧ pk r ≠ instance_pk.

#[global] Instance overlapping_dec instance_pk doctor st r :
  Decision (overlapping instance_pk doctor st r).
Proof.
  unfold overlapping; simpl.
  destruct (timestamp <$> scheduled_time r) as [t|].
  - destruct (decide (doctor_id r = doctor
                      ∧ (timestamp st - MINUTE ≤ t ≤ timestamp st + MINUTE)
                      ∧ pk r ≠ instance_pk)) as [H|H].
    + left. destruct H as (? & ? & ?). eauto.
    + right. intros (? & (t' & Ht & ?) & ?). apply H. by simplify_eq.
  - right. intros (? & (t' & Ht & ?) & ?). discriminate.
Defined.

(** [AppointmentForm.clean]: [doctor] and [scheduled_time] are
    [cleaned.get(...)]; the amount defaults to 0. *)
Definition AppointmentForm_clean (instance_pk : option Z) (doctor : option Z)
    (cleaned_time : option datetime) (iqd_amount : option Z) (db : DB)
    : result Z :=
  match doctor, _to_local_aware cleaned_time with
  | Some d, Some st =>
    if decide (Exists (overlapping instance_pk d st) (appointments db)) then
      Raise (ValidationError
        [("__all__", "At least a one-minute gap is required between appointments for the same doctor.")])
    else Ok (default 0 iqd_amount)
  | _, _ => Ok (default 0 iqd_amount)
  end.

(** [PatientBookingForm.clean_scheduled_time] *)
Definition PatientBookingForm_clean_scheduled_time (dt : option datetime) (now : Z)
    : result (option datetime) :=
  match _to_local_aware dt with
  | None => Ok dt
  | Some aware =>
    if decide (timestamp aware < timestamp (localtime now) - PAST_MARGIN) then
      Raise (ValidationError [("scheduled_time", "Please choose a future time.")])
    else Ok (Some aware)
  end.

(** [PatientBookingForm.clean] *)
Definition PatientBookingForm_clean (doctor : option Z)
    (cleaned_time : option datetime) (db : DB) : result unit :=
  match doctor, _to_local_aware cleaned_time with
  | Some d, Some st =>
    if decide (Exists (λ r, doctor_id r = d
                            ∧ (timestamp <$> scheduled_time r) = Some (timestamp st))
                 (appointments db)) then
      Raise (ValidationError
        [("__all__", "This time is already allocated for this doctor.")])
    else Ok tt
  | _, _ => Ok tt
  end.

(** Django's form validation, in the order it runs: each field (required,
    a choice that resolves, its validators, then its [clean_<field>]), the
    form's [clean], and the model's [clean] on the instance built from
    the fields that passed.  The answer is that instance (what
    [form.save(commit=False)] returns), or the errors.  (The form then
    validates the constraints whose columns are all on the form and free
    of errors.  The queue number and the day are not on the form; and the
    constraint on times has nothing to add, since the model's [clean] has
    just reported every clash of times under [scheduled_time].) *)
Definition AppointmentForm_full_clean (instance : Appointment)
    (data : AppointmentFormData) (now : Z) (db : DB) : result Appointment :=
  let choice (name : string) (v : option Z) (table : list Z) :=
    match v with
    | None => ([(name, "required")], None)
    | Some x => if decide (x ∈ table) then ([], Some x) else ([(name, "invalid_choice")], None)
    end in
  let '(e_patient, c_patient) := choice "patient" (f_patient data) (patients db) in
  let '(e_doctor, c_doctor) := choice "doctor" (f_doctor data) (doctors db) in
  let '(e_time, c_time) :=
    match f_scheduled_time data with
    | None => ([("scheduled_time", "required")], None)
    | Some dt =>
      match AppointmentForm_clean_scheduled_time (Some dt) now with
      | Ok v => ([], v)
      | Raise (ValidationError errs) => (errs, None)
      | Raise _ => ([], None)
      end
    end in
  let e_status :=
    match f_status data with
    | None => [("status", "required")]
    | Some _ => []
    end in
  let '(e_amount, c_amount) :=
    match f_iqd_amount data with
    | None => ([], None)
    | Some v =>
      match (if decide (0 ≤ v) then [] else [("iqd_amount", "min_value")])
            ++ (if decide (Z.abs v < 10 ^ 15) then [] else [("iqd_amount", "max_digits")]) with
      | [] => ([], Some v)
      | errs => (errs, None)
      end
    end in
  let '(e_form, amount) :=
    match AppointmentForm_clean (pk instance) c_doctor c_time c_amount db with
    | Ok v => ([], v)
    | Raise (ValidationError errs) => (errs, default 0 c_amount)
    | Raise _ => ([], default 0 c_amount)
    end in
  let instance :=
    mkAppointment (pk instance)
      (default (patient_id instance) c_patient)
      (default (doctor_id instance) c_doctor)
      (match c_time with Some dt => Some dt | None => scheduled_time instance end)
      (scheduled_day instance)
      (queue_number instance)
      (Some amount)
      (Some (f_notes data))
      (default (status instance) (f_status data))
      (created_at instance) in
  let e_model :=
    match Appointment_clean instance now db with
    | Raise (ValidationError errs) => errs
    | _ => []
    end in
  match e_patient ++ e_doctor ++ e_time ++ e_status ++ e_amount ++ e_form ++ e_model with
  | [] => Ok instance
  | errors => Raise (ValidationError errors)
  end.

(** [Appointment()]: a fresh instance, its two references not yet set. *)
Definition Appointment_new : Appointment :=
  mkAppointment None 0 0 None None None (Some 0) None AppointmentStatus.PENDING None.

(** [create_appointment(request)]; the names and the time in the success
    message are left out. *)
Definition create_appointment (method : Method) (data : AppointmentFormData)
    (now : Z) (db : DB) : HttpResponse * DB :=
  match method with
  | GET => (render "appointments/create_appointment.html" None, db)
  | POST =>
    match AppointmentForm_full_clean Appointment_new data now db with
    | Ok appt =>
      let appt := set_scheduled_time (_to_local_aware (scheduled_time appt)) appt in
      match Appointment_save appt None now db with
      | Ok (_, db') =>
        (redirect "appointments:appointment_ticket" (Some (success, "✅ Appointment booked.")), db')
      | Raise (IntegrityError _) =>
        (render "appointments/create_appointment.html"
           (Some (error, "❌ This time slot is already booked for this doctor.")), db)
      | Raise e => (ServerError e, db)
      end
    | Raise _ =>
      (render "appointments/create_appointment.html"
         (Some (error, "❌ Please correct the errors below.")), db)
    end
  end.

(** [edit_appointment(request, pk)] *)
Definition edit_appointment (method : Method) (data : AppointmentFormData)
    (k : Z) (now : Z) (db : DB) : HttpResponse * DB :=
  match get_appointment k db with
  | None => (Http404, db)
  | Some appt =>
    match method with
    | GET => (render "appointments/edit_appointment.html" None, db)
    | POST =>
      match AppointmentForm_full_clean appt data now db with
      | Ok appt =>
        let appt := set_scheduled_time (_to_local_aware (scheduled_time appt)) appt in
        match Appointment_save appt None now db with
        | Ok (_, db') =>
          (redirect "appointments:appointment_list"
             (Some (success, "✅ Appointment updated successfully.")), db')
        | Raise (IntegrityError _) =>
          (render "appointments/edit_appointment.html"
             (Some (error, "❌ This time slot is already booked for this doctor.")), db)
        | Raise e => (ServerError e, db)
        end
      | Raise _ =>
        (render "appointments/edit_appointment.html"
           (Some (error, "❌ Please correct the errors below.")), db)
      end
    end
  end.

(** *** The operations of the program and the states they reach *)

Inductive Op : Type :=
  | op_save (a : Appointment) (update_fields : option (list string))
  | op_create (data : AppointmentFormData)
  | op_edit (k : Z) (data : AppointmentFormData)
  | op_cancel (k : Z) (reason : option string) (user_full_name username : string)
  | op_confirm (k : Z)
  | op_call_next (doctor : Z) (appt_id : option PostedId)
  | op_delete (k : Z).

(** The database after the operation, run at clock reading [now]; a
    refused operation leaves it as it was. *)
Definition run (op : Op) (now : Z) (db : DB) : DB :=
  match op with
  | op_save a update_fields =>
    match Appointment_save a update_fields now db with
    | Ok (_, db') => db'
    | Raise _ => db
    end
  | op_create data => (create_appointment POST data now db).2
  | op_edit k data => (edit_appointment POST data k now db).2
  | op_cancel k reason user_full_name username =>
    (cancel_appointment POST reason user_full_name username k now db).2
  | op_confirm k => (confirm_appointment POST k now db).2
  | op_call_next doctor appt_id => (call_next_api POST appt_id doctor now db).2
  | op_delete k => (delete_appointment POST true k db).2
  end.

(** The store before any appointment is booked. *)
Definition initial (doctors patients : list Z) : DB :=
  mkDB doctors patients [] 1 [] 1 [].

Inductive reachable (ds ps : list Z) : DB -> Prop :=
  | reachable_initial : reachable ds ps (initial ds ps)
  | reachable_run db op now :
      reachable ds ps db -> reachable ds ps (run op now db).

End Scheduling.

(** ** Stating the properties *)

(** [nextNumber = max(existing queueNumbers) + 1] (or 1 if none exist). *)
Definition spec_nextNumber (existing : list N) : N :=
  match existing with
  | [] => 1%N
  | _ => (foldr N.max 0 existing + 1)%N
  end.

Section Statements.

Context {platform : Platform}.

(** The queue numbers held in the (doctor, day) partition, by the active
    appointments only, or by all of them. *)
Definition active_numbers (doctor day : Z) (db : DB) : list N :=
  omap queue_number
    (filter (λ r, doctor_id r = doctor ∧ scheduled_day r = Some day ∧ active r)
       (appointments db)).

Definition all_numbers (doctor day : Z) (db : DB) : list N :=
  omap queue_number
    (filter (λ r, doctor_id r = doctor ∧ scheduled_day r = Some day) (appointments db)).

(** The calendar day of an instant in the local zone, and on the UTC
    clock. *)
Definition local_day (dt : datetime) : Z := (timestamp dt + LOCAL_TZ) `div` DAY.

(** Today's date in the local zone, at clock reading [now]. *)
Definition local_today (now : Z) : Z := (now + LOCAL_TZ) `div` DAY.


(** The storage constraints, together. *)
Definition constraints (db : DB) : Prop :=
  pk_unique (appointments db)
  ∧ uq_doctor_time_not_cancelled (appointments db)
  ∧ uq_doctor_day_queue_active (appointments db).

#[global] Instance constraints_dec db : Decision (constraints db).
Proof. unfold constraints, pk_unique, uq_doctor_time_not_cancelled,
  uq_doctor_day_queue_active. apply _. Defined.

(** Every row has a key, and the sequence is ahead of all of them. *)
Definition keyed (db : DB) : Prop :=
  Forall (λ r, match pk r with
               | Some k => k < appointment_seq db
               | None => False
               end) (appointments db).

#[global] Instance keyed_dec db : Decision (keyed db).
Proof.
  unfold keyed. apply Forall_dec. intros r. destruct (pk r); apply _.
Defined.

(** What [clean_fields] asks of an instance. *)
Definition fields_valid (a : Appointment) (db : DB) : Prop :=
  patient_id a ∈ patients db ∧ doctor_id a ∈ doctors db
  ∧ match iqd_amount a with
    | Some v => 0 ≤ v < 10 ^ 15
    | None => True
    end.

(** The instance [save] validates and inserts when it creates an
    appointment that has a time. *)
Definition created (a : Appointment) (dt : datetime) (db : DB) : Appointment :=
  mkAppointment None (patient_id a) (doctor_id a)
    (Some (Aware (timestamp dt) LOCAL_TZ)) (Some (lookup_date dt))
    (Some (or_0 (Max (queue_number <$>
             partition_qs (doctor_id a) (Some (lookup_date dt)) db)) + 1)%N)
    (Some (default 0 (iqd_amount a))) (notes a) (status a) (created_at a).

(** The reason a cancellation records: [(request.POST.get("reason") or
    "").strip()]. *)
Definition stripped_reason (reason : option string) : string :=
  strip (str_or (default "" reason) "").

(** The audit line of a cancellation. *)
Definition note_line (reason user_full_name username : string) (now : Z) : string :=
  "[Cancelled " +:+ strftime "%Y-%m-%d %H:%M" (localtime now) +:+ " by "
  +:+ str_or user_full_name username +:+ "] " +:+ reason.

(** An UPDATE that cancels: the status becomes CANCELLED, the notes may
    change, every other column stays. *)
Definition cancelling (upd : Appointment -> Appointment) : Prop :=
  ∀ r, ∃ n, upd r = set_notes n (set_status AppointmentStatus.CANCELLED r).

End Statements.

(** ** A clinic to run the engine on

    Doctors 1 and 2, patients 10 and 11, the zone at UTC+3, and the
    bookings of 10 January 2025 (day 20098), made at 08:00 local time. *)

Module Examples.

(** The zone at UTC+3; every stamp printed reads 08:00 of the day. *)
Definition baghdad : Platform :=
  {| LOCAL_TZ := 180 * MINUTE; strftime := λ _ _, "2025-01-10 08:00" |}.

#[local] Existing Instance baghdad.

Definition at_local (h m : Z) : datetime :=
  Aware (20098 * DAY + (60 * h + m) * MINUTE - 180 * MINUTE) (180 * MINUTE).

Definition clock (h m : Z) : Z := timestamp (at_local h m).

Definition booking (patient doctor : Z) (h m : Z) : Appointment :=
  mkAppointment None patient doctor (Some (at_local h m)) None None None None
    AppointmentStatus.PENDING None.


Definition opening : DB := initial [1; 2] [10; 11].

(** One booking for doctor 1 at 09:00. *)
Definition booked : DB :=
  Eval vm_compute in run (op_save (booking 10 1 9 0) None) (clock 8 0) opening.

(** ... then cancelled, without a reason. *)
Definition cancelled : DB :=
  Eval vm_compute in run (op_cancel 1 None "" "secretary") (clock 8 0) booked.

(** ... then a second booking for doctor 1, at 09:30. *)
Definition rebooked : DB :=
  Eval vm_compute in run (op_save (booking 11 1 9 30) None) (clock 8 0) cancelled.

(** Two bookings for doctor 1, at 09:00 and 09:30. *)
Definition booked_twice : DB :=
  Eval vm_compute in run (op_save (booking 11 1 9 30) None) (clock 8 0) booked.

(** ... the first of them cancelled. *)
Definition first_cancelled : DB :=
  Eval vm_compute in run (op_cancel 1 None "" "secretary") (clock 8 0) booked_twice.

(** The 09:00 booking called, and so COMPLETED, at 08:00. *)
Definition called : DB :=
  Eval vm_compute in run (op_call_next 1 None) (clock 8 0) booked.



(** A busy day, booked at midnight.  Doctor 1 has 09:00 (number 1), 01:00
    (number 2; on the UTC clock that is 22:00 of the 9th), 09:30 (number
    3, cancelled since) and 00:30 of the 11th (number 1 of that day).
    Doctor 2 has 09:00, 09:30, 10:00 and 10:30 (numbers 1 to 4). *)
Definition busy_day : DB :=
  Eval vm_compute in
    foldl (λ db op, run op (clock 0 0) db) opening
      [op_save (booking 10 1 9 0) None; op_save (booking 11 1 1 0) None;
       op_save (booking 10 1 9 30) None; op_cancel 3 None "" "secretary";
       op_save (booking 11 1 24 30) None;
       op_save (booking 10 2 9 0) None; op_save (booking 11 2 9 30) None;
       op_save (booking 10 2 10 0) None; op_save (booking 11 2 10 30) None].

(** A request for doctor 1 at 09:00. *)
Definition request (h m : Z) : PatientBookingRequest :=
  mkPatientBookingRequest None "Sara" None "0770" (Some 1) (Some (at_local h m)) None
    BookingRequestStatus.PENDING.

End Examples.

(** ** People *)

(** [accounts.User]: the columns the display names are built from.  The
    [username] column is nullable. *)
Record User : Type := mkUser {
  first_name : string;
  last_name : string;
  username : option string;
  email : string
}.

(** [doctor.Doctor], as far as the desk reads it. *)
Record Doctor : Type := mkDoctor {
  doctor_full_name : string;
  doctor_user : User
}.

(** [patient.Patient], as far as the portal reads it. *)
Record Patient : Type := mkPatient {
  patient_full_name : string;
  mobile : option string;
  date_of_birth : option Z
}.

(** What the desk takes from the other apps and from the settings: the
    Doctor and Patient rows behind the keys, and
    [settings.APPOINTMENT_DURATION_MINUTES] when it is set. *)
Class Registry : Type := {
  doctor_profile : Z -> Doctor;
  patient_profile : Z -> Patient;
  patient_created_at : Z -> datetime;
  APPOINTMENT_DURATION_MINUTES : option Z
}.

(** What a portal view answers. *)
Inductive PortalResponse : Type :=
  | PortalForbidden (body : string)
  | PortalNotFound
  | PortalRedirect (to : string) (message : string)
  | PortalPage (template : string)
  | PortalError (e : exn).

(** The JSON of the queue snapshots: one entry per appointment, one queue
    per doctor. *)
Record InternalEntry : Type := mkInternalEntry {
  ie_id : option Z;
  ie_number : string;
  ie_patient_name : string;
  ie_time : string
}.

Record InternalQueue : Type := mkInternalQueue {
  iq_doctor_id : Z;
  iq_doctor_name : string;
  iq_status : string;
  iq_current_patient : option InternalEntry;
  iq_waiting_list : list InternalEntry;
  iq_avg_time : Z
}.

Record PublicEntry : Type := mkPublicEntry {
  pe_id : option Z;
  pe_number : string;
  pe_time : string
}.

Record PublicQueue : Type := mkPublicQueue {
  pq_doctor_id : Z;
  pq_doctor_name : string;
  pq_status : string;
  pq_current : option PublicEntry;
  pq_waiting : list PublicEntry;
  pq_avg_time : Z
}.


(** The figures of the secretary dashboard. *)
Record Stats : Type := mkStats {
  patients_today : nat;
  new_patients_today : nat;
  total_patients : nat;
  appointments_today : nat;
  revenue_today_iqd : Z
}.

Record Dashboard : Type := mkDashboard {
  today_appointments : list Appointment;
  stats : Stats;
  chart_data : list nat
}.

(** ** The desk: queues, reports and the other views *)

Section Reception.

Context {platform : Platform} {registry : Registry}.

(** *** Ordering *)

(** [order_by(key)]: the rows by ascending key.  On equal keys the
    database is free to choose; here the rows stay in table order. *)
Fixpoint insert_by {A} (key : A -> Z) (x : A) (l : list A) : list A :=
  match l with
  | [] => [x]
  | y :: l' => if decide (key x ≤ key y) then x :: l else y :: insert_by key x l'
  end.

Definition order_by {A} (key : A -> Z) (l : list A) : list A :=
  foldr (insert_by key) [] l.

(** The sort key of [order_by("scheduled_time")]. *)
Definition by_scheduled_time (r : Appointment) : Z :=
  default 0 (timestamp <$> scheduled_time r).

(** *** Display names *)

(** Django's [AbstractUser.get_full_name]. *)
Definition get_full_name (u : User) : string :=
  strip (first_name u +:+ " " +:+ last_name u).

(** ["@" in s] *)
Fixpoint contains_at (s : string) : bool :=
  match s with
  | EmptyString => false
  | String c s' => if decide (c = "@"%char) then true else contains_at s'
  end.

(** [s.split("@")[0]] *)
Fixpoint before_at (s : string) : string :=
  match s with
  | EmptyString => EmptyString
  | String c s' => if decide (c = "@"%char) then EmptyString else String c (before_at s')
  end.

(** The last alternatives of the two name helpers:
    [u.first_name or (u.username.split("@")[0] if "@" in u.username else
    u.username) or fallback].  [None] is the TypeError of ["@" in None]. *)
Definition short_name (u : User) (fallback : string) : option string :=
  match first_name u with
  | EmptyString =>
    match username u with
    | None => None
    | Some name =>
      Some (str_or (if contains_at name then before_at name else name) fallback)
    end
  | first => Some first
  end.

(** [_user_name(u)] *)
Definition _user_name (u : User) : option string :=
  match get_full_name u with
  | EmptyString => short_name u "User"
  | full => Some full
  end.

(** [_doctor_name(doc)]; a Doctor has no [get_display_name], so the
    first alternative is the empty string of the default. *)
Definition _doctor_name (doc : Doctor) : option string :=
  match str_or "" (doctor_full_name doc) with
  | EmptyString =>
    match get_full_name (doctor_user doc) with
    | EmptyString => short_name (doctor_user doc) "Doctor"
    | full => Some full
    end
  | name => Some name
  end.

(** *** Queue snapshots *)

(** The PENDING appointments of today, by time: the queryset of the two
    snapshots and of [current_patient_api]. *)
Definition pending_today (today : Z) (db : DB) : list Appointment :=
  order_by by_scheduled_time
    (filter (λ r, (lookup_date <$> scheduled_time r) = Some today
                  ∧ status r = AppointmentStatus.PENDING)
       (appointments db)).

Fixpoint zeros (n : nat) : string :=
  match n with
  | O => EmptyString
  | S n' => String "0" (zeros n')
  end.

(** [f"{n:03d}"] *)
Definition format_03d (n : N) : string :=
  zeros (3 - String.length (pretty n)) +:+ pretty n.

(** [f"P-{q:03d}" if q else "-"] *)
Definition number_label (q : option N) : string :=
  match q with
  | Some n => if decide (n = 0%N) then "-" else "P-" +:+ format_03d n
  | None => "-"
  end.

(** [getattr(settings, "APPOINTMENT_DURATION_MINUTES", 15)] *)
Definition default_mins : Z := default 15 APPOINTMENT_DURATION_MINUTES.

(** The sorted, duplicate-free [doctor_ids] and the Doctor rows they
    select, by id. *)
Definition doctors_of (appts : list Appointment) (db : DB) : list Z :=
  let doctor_ids := order_by id (remove_dups (doctor_id <$> appts)) in
  order_by id (filter (λ d, d ∈ doctor_ids) (doctors db)).

(** [by_doc.get(d.id, [])] *)
Definition by_doc (appts : list Appointment) (d : Z) : list Appointment :=
  filter (λ a, doctor_id a = d) appts.

(** An entry of the internal snapshot; [None] is the exception of
    [.strftime] on a missing time. *)
Definition internal_entry (a : Appointment) : option InternalEntry :=
  dt ← scheduled_time a;
  Some (mkInternalEntry (pk a) (number_label (queue_number a))
          (patient_full_name (patient_profile (patient_id a)))
          (strftime "%H:%M" (from_db dt))).

Definition internal_queue (appts : list Appointment) (d : Z) : option InternalQueue :=
  let today_appts := by_doc appts d in
  '(current, waiting) ←
    match today_appts with
    | first :: rest =>
      current ← internal_entry first;
      waiting ← mapM internal_entry rest;
      Some (Some current, waiting)
    | [] => Some (None, [])
    end;
  doctor_name ← _doctor_name (doctor_profile d);
  Some (mkInternalQueue d doctor_name
          (match today_appts with [] => "on_break" | _ => "available" end)
          current waiting default_mins).

(** [_queue_snapshot_internal()] at clock reading [now]; [None] when an
    exception escapes. *)
Definition _queue_snapshot_internal (now : Z) (db : DB) : option (list InternalQueue) :=
  let today := localdate now in
  let appts := pending_today today db in
  mapM (internal_queue appts) (doctors_of appts db).

Definition public_entry (a : Appointment) : option PublicEntry :=
  dt ← scheduled_time a;
  Some (mkPublicEntry (pk a) (number_label (queue_number a))
          (strftime "%H:%M" (from_db dt))).

Definition public_queue (appts : list Appointment) (d : Z) : option PublicQueue :=
  let today_appts := by_doc appts d in
  '(current, waiting) ←
    match today_appts with
    | first :: rest =>
      current ← public_entry first;
      waiting ← mapM public_entry rest;
      Some (Some current, waiting)
    | [] => Some (None, [])
    end;
  doctor_name ← _doctor_name (doctor_profile d);
  Some (mkPublicQueue d doctor_name
          (match today_appts with [] => "on_break" | _ => "available" end)
          current waiting default_mins).

(** [_queue_snapshot_public()] *)
Definition _queue_snapshot_public (now : Z) (db : DB) : option (list PublicQueue) :=
  let today := localdate now in
  let appts := pending_today today db in
  mapM (public_queue appts) (doctors_of appts db).

(** *** The current and the next patient *)




(** *** The secretary dashboard *)

(** [aggregate(total=Sum(column))]: SQL SUM skips NULL and is NULL on no
    value. *)
Definition Sum (column : list (option Z)) : option Z :=
  foldr (λ v acc,
    match v, acc with
    | Some x, Some y => Some (x + y)
    | Some x, None => Some x
    | None, _ => acc
    end) None column.

(** Python's [total or 0] *)
Definition total_or_0 (total : option Z) : Z :=
  match total with
  | Some x => if decide (x = 0) then 0 else x
  | None => 0
  end.

(** [date.weekday()]: Monday is 0; day 0 of the epoch was a Thursday. *)
Definition weekday (d : Z) : Z := (d + 3) `mod` 7.

(** [scheduled_time__date=day] *)
Definition on_date (day : Z) (r : Appointment) : Prop :=
  (lookup_date <$> scheduled_time r) = Some day.

#[global] Instance on_date_dec day r : Decision (on_date day r).
Proof. unfold on_date. apply _. Defined.

(** [scheduled_time__date__range=[first, last]] *)
Definition in_date_range (first last : Z) (r : Appointment) : Prop :=
  match lookup_date <$> scheduled_time r with
  | Some d => first ≤ d ≤ last
  | None => False
  end.

#[global] Instance in_date_range_dec first last r : Decision (in_date_range first last r).
Proof. unfold in_date_range. destruct (lookup_date <$> scheduled_time r); apply _. Defined.

(** [.annotate(day=TruncDate(...)).values("day").annotate(count=Count("id"))]:
    one row per day, with the number of appointments on it. *)
Definition count_by_day (rows : list Appointment) : list (Z * nat) :=
  let days := omap (λ r, lookup_date <$> scheduled_time r) rows in
  (λ d, (d, length (filter (λ d', d' = d) days))) <$> remove_dups days.

(** [counts.get(key, 0)] on the dictionary built from the rows. *)
Definition counts_get (counts : list (Z * nat)) (key : Z) : nat :=
  default 0%nat (snd <$> head (filter (λ item, item.1 = key) counts)).

(** The context of [secretary_dashboard(request)] that is computed from
    the store: today's appointments, the figures and the chart of the
    week.  (The twenty latest appointments and the two empty forms are
    left out.) *)
Definition secretary_dashboard (now : Z) (db : DB) : Dashboard :=
  let today := localdate now in
  let base := appointments db in
  let todays := filter (on_date today) base in
  let revenue_today := total_or_0 (Sum (iqd_amount <$> todays)) in
  let stats :=
    mkStats
      (length (remove_dups (patient_id <$> filter (on_date today) base)))
      (length (filter (λ p, lookup_date (patient_created_at p) = today) (patients db)))
      (length (patients db))
      (length todays)
      revenue_today in
  let week_start := today - weekday today in
  let rows := count_by_day (filter (in_date_range week_start (week_start + 6)) base) in
  let chart := (λ i, counts_get rows (week_start + i)) <$> seqZ 0 7 in
  mkDashboard todays stats chart.

(** *** The admin site *)

(** [scheduled_time__date__lt=day] and [scheduled_time__date__gt=day] *)
Definition before_date (day : Z) (r : Appointment) : Prop :=
  match lookup_date <$> scheduled_time r with
  | Some d => d < day
  | None => False
  end.

Definition after_date (day : Z) (r : Appointment) : Prop :=
  match lookup_date <$> scheduled_time r with
  | Some d => day < d
  | None => False
  end.

#[global] Instance before_date_dec day r : Decision (before_date day r).
Proof. unfold before_date. destruct (lookup_date <$> scheduled_time r); apply _. Defined.

#[global] Instance after_date_dec day r : Decision (after_date day r).
Proof. unfold after_date. destruct (lookup_date <$> scheduled_time r); apply _. Defined.

(** [AppointmentDateRangeFilter.queryset]; [value] is [self.value()]. *)
Definition AppointmentDateRangeFilter_queryset (value : option string) (now : Z)
    (queryset : list Appointment) : list Appointment :=
  match value with
  | None | Some EmptyString => queryset
  | Some value =>
    let today := localdate now in
    if decide (value = "past") then filter (before_date today) queryset
    else if decide (value = "today") then filter (on_date today) queryset
    else if decide (value = "future") then filter (after_date today) queryset
    else queryset
  end.

(** The rows an admin action is run on: those whose key was ticked. *)
Definition ticked (selected : list Z) (r : Appointment) : Prop :=
  match pk r with
  | Some k => k ∈ selected
  | None => False
  end.

#[global] Instance ticked_dec selected r : Decision (ticked selected r).
Proof. unfold ticked. destruct (pk r); apply _. Defined.

(** [queryset.update(status=...)]: one UPDATE statement; the number of rows
    it matched. *)
Definition queryset_update_status (selected : list Z) (st : AppointmentStatus.t)
    (db : DB) : result (nat * DB) :=
  let rows :=
    (λ r, if decide (ticked selected r) then set_status st r else r)
      <$> appointments db in
  _ ← check_constraints rows;
  Ok (length (filter (ticked selected) (appointments db)), set_appointments rows db).

(** [AppointmentAdmin.mark_completed] and [mark_cancelled]: the message
    shown and the store. *)
Definition mark_completed (selected : list Z) (db : DB) : result (string * DB) :=
  '(updated, db') ← queryset_update_status selected AppointmentStatus.COMPLETED db;
  Ok (pretty updated +:+ " appointment(s) marked as completed.", db').

Definition mark_cancelled (selected : list Z) (db : DB) : result (string * DB) :=
  '(updated, db') ← queryset_update_status selected AppointmentStatus.CANCELLED db;
  Ok (pretty updated +:+ " appointment(s) marked as cancelled.", db').

(** The rows an action of the booking-request admin is run on. *)
Definition br_ticked (selected : list Z) (r : PatientBookingRequest) : Prop :=
  match br_pk r with
  | Some k => k ∈ selected
  | None => False
  end.

#[global] Instance br_ticked_dec selected r : Decision (br_ticked selected r).
Proof. unfold br_ticked. destruct (br_pk r); apply _. Defined.

Definition set_br_status (st : BookingRequestStatus.t) (r : PatientBookingRequest)
    : PatientBookingRequest :=
  mkPatientBookingRequest (br_pk r) (br_full_name r) (br_date_of_birth r)
    (br_contact_info r) (br_doctor_id r) (br_scheduled_time r) (br_submitted_at r) st.

(** [queryset.update(status=...)] on booking requests: the table has no
    constraint that the statement could violate; the number of rows it
    matched. *)
Definition booking_requests_update_status (selected : list Z)
    (st : BookingRequestStatus.t) (db : DB) : nat * DB :=
  (length (filter (br_ticked selected) (booking_requests db)),
   set_booking_requests
     ((λ r, if decide (br_ticked selected r) then set_br_status st r else r)
        <$> booking_requests db) db).

(** [PatientBookingRequestAdmin.mark_as_confirmed] and [mark_as_rejected]:
    the message shown and the store. *)
Definition mark_as_confirmed (selected : list Z) (db : DB) : string * DB :=
  let '(updated, db') :=
    booking_requests_update_status selected BookingRequestStatus.CONFIRMED db in
  (pretty updated +:+ " booking request(s) marked as confirmed.", db').

Definition mark_as_rejected (selected : list Z) (db : DB) : string * DB :=
  let '(updated, db') :=
    booking_requests_update_status selected BookingRequestStatus.REJECTED db in
  (pretty updated +:+ " booking request(s) marked as rejected.", db').

(** *** The patient portal *)

(** [_PatientPortalBookingForm]: the errors that make [is_valid()] false.
    Its one field is optional.  [clean] refuses a time that is not after
    now; the field then leaves [cleaned_data] and the instance is validated
    without a time.  Otherwise the model's [clean] runs on the unsaved
    instance with that time: it has no doctor yet, so that no stored
    appointment can clash with it, and the past check is what is left. *)
Definition _PatientPortalBookingForm_errors (st : option datetime) (now : Z)
    : list (string * string) :=
  match st with
  | None => []
  | Some dt =>
    if decide (timestamp dt ≤ now)
    then [("scheduled_time", "Please choose a future time.")]
    else if decide (timestamp dt < timestamp (localtime now) - PAST_MARGIN)
         then [("scheduled_time", "Cannot book an appointment in the past.")]
         else []
  end.

(** Python's [a or b] where [a] may be [None]. *)
Definition opt_or (a : option string) (b : option string) : option string :=
  match a with
  | Some EmptyString | None => b
  | _ => a
  end.

(** [book_patient(request, doctor_id)] for the logged-in [user] with the
    given [role]; [patient] is the Patient row of the user, if any, and
    [posted] the time of the form, if one was entered. *)
Definition book_patient (method : Method) (role : string) (u : User)
    (doctor : Z) (patient : option Patient) (posted : option datetime)
    (now : Z) (db : DB) : PortalResponse * DB :=
  if decide (role ≠ "patient") then (PortalForbidden "Patients only.", db)
  else if decide (doctor ∉ doctors db) then (PortalNotFound, db)
  else
    match patient with
    | None => (PortalNotFound, db)
    | Some patient =>
      match method with
      | GET => (PortalPage "appointments/book_patient.html", db)
      | POST =>
        match _PatientPortalBookingForm_errors posted now with
        | [] =>
          let sched := _to_local_aware posted in
          let full_name :=
            opt_or (opt_or (Some (patient_full_name patient)) (Some (get_full_name u)))
              (username u) in
          let contact :=
            default "" (opt_or (opt_or (mobile patient) (Some (email u))) (Some "")) in
          let br_kwargs (name : string) :=
            mkPatientBookingRequest None name (date_of_birth patient) contact
              (Some doctor) sched None BookingRequestStatus.PENDING in
          match full_name with
          | Some name =>
            match PatientBookingRequest_create (br_kwargs name) now db with
            | (Ok _, db') =>
              (PortalRedirect "patient:dashboard"
                 "Your request was sent and is pending secretary approval.", db')
            | (Raise e, db') => (PortalError e, db')
            end
          | None =>
            match PatientBookingRequest_create (br_kwargs "") now db with
            | (Raise (ValidationError errors), db') =>
              (PortalError (ValidationError
                 ((λ item, if decide (item = ("full_name", "blank"))
                           then ("full_name", "null") else item) <$> errors)), db')
            | (Raise e, db') => (PortalError e, db')
            | (Ok _, db') =>
              (PortalRedirect "patient:dashboard"
                 "Your request was sent and is pending secretary approval.", db')
            end
          end
        | _ => (PortalPage "appointments/book_patient.html", db)
        end
      end
    end.

(** *** Rounds of call-next *)


End Reception.

Section MoreStatements.

Context {platform : Platform} {registry : Registry}.

(** Rows in ascending order of their keys. *)
Fixpoint ascending {A} (key : A -> Z) (l : list A) : Prop :=
  match l with
  | [] => True
  | x :: l' => Forall (λ y, key x ≤ key y) l' ∧ ascending key l'
  end.

(** An entry and a queue of the internal snapshot with the patient's name
    taken out. *)
Definition entry_without_name (e : InternalEntry) : PublicEntry :=
  mkPublicEntry (ie_id e) (ie_number e) (ie_time e).

Definition queue_without_names (q : InternalQueue) : PublicQueue :=
  mkPublicQueue (iq_doctor_id q) (iq_doctor_name q) (iq_status q)
    (entry_without_name <$> iq_current_patient q)
    (entry_without_name <$> iq_waiting_list q) (iq_avg_time q).

(** The doctor's queue of today, read off the rows: the PENDING
    appointments of the doctor whose time falls on today's local date. *)
Definition queue_of_today (doctor : Z) (now : Z) (db : DB) : list Appointment :=
  filter (λ r, doctor_id r = doctor
               ∧ status r = AppointmentStatus.PENDING
               ∧ (local_day <$> scheduled_time r) = Some (local_today now))
    (appointments db).

(** An entry of the internal snapshot shows an appointment: its key, the
    label of its queue number, the name of its patient and its time. *)
Definition entry_shows (e : InternalEntry) (r : Appointment) : Prop :=
  ie_id e = pk r
  ∧ ie_number e = number_label (queue_number r)
  ∧ ie_patient_name e = patient_full_name (patient_profile (patient_id r))
  ∧ ∃ dt, scheduled_time r = Some dt ∧ ie_time e = strftime "%H:%M" (from_db dt).

(** The operations a request can trigger.  [op_save] is the model's own
    entry point, open to any instance and any [update_fields]. *)
Definition through_a_view (op : Op) : Prop :=
  match op with
  | op_save _ _ => False
  | _ => True
  end.

(** The denormalised day is the local date of the time. *)
Definition day_of_time (db : DB) : Prop :=
  Forall (λ r, scheduled_day r = lookup_date <$> scheduled_time r) (appointments db).

#[global] Instance day_of_time_dec db : Decision (day_of_time db).
Proof. unfold day_of_time. apply _. Defined.

#[global] Instance fields_valid_dec a db : Decision (fields_valid a db).
Proof. unfold fields_valid. destruct (iqd_amount a); apply _. Defined.

(** Every row passes the field validators. *)
Definition rows_valid (db : DB) : Prop :=
  Forall (λ r, fields_valid r db) (appointments db).

#[global] Instance rows_valid_dec db : Decision (rows_valid db).
Proof. unfold rows_valid. apply _. Defined.

Definition well_formed (db : DB) : Prop :=
  constraints db ∧ keyed db ∧ day_of_time db ∧ rows_valid db.

#[global] Instance well_formed_dec db : Decision (well_formed db).
Proof. unfold well_formed. apply _. Defined.

(** The instance [save] validates and writes, when it does not number it:
    the time in normal form, the day derived from it, the amount
    defaulted. *)
Definition normalised (a : Appointment) : Appointment :=
  mkAppointment (pk a) (patient_id a) (doctor_id a)
    (_to_local_aware (scheduled_time a)) (lookup_date <$> scheduled_time a)
    (queue_number a) (Some (default 0 (iqd_amount a))) (notes a) (status a)
    (created_at a).

(** Another active row holds the queue number of [appt] for its doctor
    on the local day of its time, and [appt] is active itself. *)
Definition number_held_by_another (appt : Appointment) (db : DB) : Prop :=
  status appt ≠ AppointmentStatus.CANCELLED
  ∧ Exists (λ x, pk x ≠ pk appt
                 ∧ status x ≠ AppointmentStatus.CANCELLED
                 ∧ doctor_id x = doctor_id appt
                 ∧ scheduled_day x ≠ None
                 ∧ scheduled_day x = (local_day <$> scheduled_time appt)
                 ∧ queue_number x ≠ None
                 ∧ queue_number x = queue_number appt) (appointments db).

#[global] Instance number_held_by_another_dec appt db :
  Decision (number_held_by_another appt db).
Proof. unfold number_held_by_another. apply _. Defined.

End MoreStatements.


(** ** The example clinic at the desk *)

Module Desk.

Import Examples.

#[local] Existing Instance baghdad.

(** Doctor 1 has no name on file and an e-mail address as username;
    doctor 2 has a full name.  Patient 10 is Sara, patient 11 is Noor. *)
Definition amal : User :=
  mkUser "" "" (Some "amal@clinic.example") "amal@clinic.example".

Definition clinic : Registry :=
  {| doctor_profile := λ d,
       if decide (d = 1) then mkDoctor "" amal
       else mkDoctor "Dr. Huda" (mkUser "Huda" "Kareem" (Some "huda") "huda@clinic.example");
     patient_profile := λ p,
       if decide (p = 10) then mkPatient "Sara" (Some "+9647700000000") None
       else mkPatient "Noor" None None;
     patient_created_at := λ _, at_local 7 0;
     APPOINTMENT_DURATION_MINUTES := None |}.

(** What the staff form holds for a booking of patient 10 with doctor 1
    at 09:00. *)
Definition form_0900 : AppointmentFormData :=
  mkAppointmentFormData (Some 10) (Some 1) (Some (at_local 9 0))
    (Some AppointmentStatus.PENDING) None "".


(** The instance [save] hands back for the first booking of the day. *)
Definition first_booking : Appointment :=
  Eval vm_compute in
    match Appointment_save (booking 10 1 9 0) None (clock 8 0) opening with
    | Ok (a, _) => a
    | Raise _ => booking 10 1 9 0
    end.

(** Both doctors have a 09:00 appointment, each with queue number 1. *)
Definition two_doctors : DB :=
  Eval vm_compute in run (op_save (booking 11 2 9 0) None) (clock 8 0) booked.

(** Sara's request for doctor 1 at 09:00 is on file, and the slot has
    been booked since. *)
Definition requested_then_booked : DB :=
  Eval vm_compute in
    run (op_save (booking 10 1 9 0) None) (clock 8 0)
      (PatientBookingRequest_create (request 9 0) (clock 8 0) opening).2.

(** What the staff form holds when Noor is moved to doctor 1 at 10:00, a
    time at which doctor 1 is free. *)
Definition moved_to_doctor_1 : AppointmentFormData :=
  mkAppointmentFormData (Some 11) (Some 1) (Some (at_local 10 0))
    (Some AppointmentStatus.PENDING) None "".

End Desk.


(** ** Properties *)

Section Properties.

Context {platform : Platform}.

(** *** The result monad *)

Lemma bind_Ok {A B} (m : result A) (k : A -> result B) (b : B) :
  (m ≫= k) = Ok b ↔ ∃ a, m = Ok a ∧ k a = Ok b.
Proof.
  destruct m as [a|e]; simpl; split.
  - eauto.
  - by intros (a' & [= ->] & ?).
  - discriminate.
  - by intros (a' & [=] & ?).
Qed.

(** *** Storage *)

Lemma keyed_elem db r :
  keyed db → r ∈ appointments db → ∃ k, pk r = Some k ∧ k < appointment_seq db.
Proof.
  intros Hk Hr. apply (proj1 (Forall_forall _ _) Hk) in Hr.
  destruct (pk r) as [k|]; [eauto|done].
Qed.

Lemma check_constraints_Ok rows :
  check_constraints rows = Ok tt ↔
  pk_unique rows ∧ uq_doctor_time_not_cancelled rows ∧ uq_doctor_day_queue_active rows.
Proof.
  unfold check_constraints.
  destruct (decide (pk_unique rows)); [|split; [done|tauto]].
  destruct (decide (uq_doctor_time_not_cancelled rows)); [|split; [done|tauto]].
  destruct (decide (uq_doctor_day_queue_active rows)); [|split; [done|tauto]].
  tauto.
Qed.

Lemma update_row_Ok k f db db' :
  update_row k f db = Ok db' →
  db' = set_appointments
          ((λ r, if decide (pk r = Some k) then f r else r) <$> appointments db) db
  ∧ constraints db'.
Proof.
  unfold update_row. intros ([] & Hc & [= <-])%bind_Ok.
  split; [done|]. by apply check_constraints_Ok in Hc.
Qed.

Lemma insert_row_Ok a now db a' db' :
  insert_row a now db = Ok (a', db') →
  appointments db' = appointments db ++ [to_row a']
  ∧ doctors db' = doctors db ∧ patients db' = patients db
  ∧ constraints db'
  ∧ queue_number a' = queue_number a ∧ status a' = status a
  ∧ (pk a = None → pk a' = Some (appointment_seq db)).
Proof.
  unfold insert_row. intros ([] & Hc & [= <- <-])%bind_Ok.
  apply check_constraints_Ok in Hc.
  destruct (pk a) eqn:Hpk; simpl; repeat split; try done; apply Hc.
Qed.

Lemma Model_save_constraints a uf now db a' db' :
  Model_save a uf now db = Ok (a', db') → constraints db → constraints db'.
Proof.
  unfold Model_save. intros Hs Hdb.
  destruct uf as [[|f fs]|]; [by simplify_eq| |].
  - destruct (pk a) as [k|]; [|done].
    destruct (get_appointment k db); [|done].
    apply bind_Ok in Hs as (db1 & Hu & [= <- <-]).
    by apply update_row_Ok in Hu as [_ ?].
  - destruct (pk a) as [k|].
    + destruct (get_appointment k db).
      * apply bind_Ok in Hs as (db1 & Hu & [= <- <-]).
        by apply update_row_Ok in Hu as [_ ?].
      * by apply insert_row_Ok in Hs as (_ & _ & _ & ? & _).
    + by apply insert_row_Ok in Hs as (_ & _ & _ & ? & _).
Qed.

Lemma Appointment_save_constraints a uf now db a' db' :
  Appointment_save a uf now db = Ok (a', db') → constraints db → constraints db'.
Proof.
  unfold Appointment_save. intros Hs Hdb.
  repeat match type of Hs with
  | (if ?b then _ else _) = _ => destruct b
  | match ?x with _ => _ end = _ => destruct x eqn:?
  | (_ ≫= _) = Ok _ => apply bind_Ok in Hs as (? & _ & Hs)
  end; try done; by eapply Model_save_constraints.
Qed.

Lemma omap_sublist {A B} (f : A -> option B) (l1 l2 : list A) :
  l1 `sublist_of` l2 → omap f l1 `sublist_of` omap f l2.
Proof.
  induction 1 as [|x l1 l2 _ IH|x l1 l2 _ IH]; csimpl; [done| |];
    destruct (f x); auto using sublist_skip, sublist_cons.
Qed.

Lemma delete_constraints P `{!∀ r : Appointment, Decision (P r)} db :
  constraints db → constraints (set_appointments (filter P (appointments db)) db).
Proof.
  intros (Hpk & Ht & Hq). repeat split; simpl.
  - eapply sublist_NoDup; [exact Hpk|]. apply fmap_sublist, sublist_filter.
  - eapply sublist_NoDup; [exact Ht|]. apply omap_sublist, sublist_filter.
  - eapply sublist_NoDup; [exact Hq|]. apply omap_sublist, sublist_filter.
Qed.

(** Every operation leaves the storage constraints in force. *)
Lemma run_constraints op now db : constraints db → constraints (run op now db).
Proof.
  intros Hdb. destruct op; simpl.
  - destruct (Appointment_save _ _ _ _) as [[a' db']|e] eqn:Hs; [|done].
    by eapply Appointment_save_constraints.
  - unfold create_appointment.
    destruct (AppointmentForm_full_clean _ _ _ _) as [appt|e]; [|done].
    destruct (Appointment_save _ _ _ _) as [[a' db']|[]] eqn:Hs; try done.
    by eapply Appointment_save_constraints.
  - unfold edit_appointment.
    destruct (get_appointment k db); [|done].
    destruct (AppointmentForm_full_clean _ _ _ _) as [appt|e]; [|done].
    destruct (Appointment_save _ _ _ _) as [[a' db']|[]] eqn:Hs; try done.
    by eapply Appointment_save_constraints.
  - unfold cancel_appointment.
    destruct (get_appointment k db); [|done].
    case_decide; [done|].
    destruct (update_row _ _ _) as [db'|e] eqn:Hu; [|done].
    by apply update_row_Ok in Hu as [_ ?].
  - unfold confirm_appointment.
    destruct (get_appointment k db); [|done].
    case_decide; [done|].
    destruct (Appointment_save _ _ _ _) as [[a' db']|e] eqn:Hs; [|done].
    by eapply Appointment_save_constraints.
  - unfold call_next_api.
    match goal with
    | |- constraints (match ?x with _ => _ end).2 => destruct x as [[nxt|]|]
    end; [|done..].
    destruct (Appointment_save _ _ _ _) as [[a' db']|e] eqn:Hs; [|done].
    by eapply Appointment_save_constraints.
  - unfold delete_appointment.
    destruct (get_appointment k db); [|done]. simpl.
    by apply delete_constraints.
Qed.

Lemma reachable_constraints ds ps db : reachable ds ps db → constraints db.
Proof.
  induction 1 as [|db op now _ IH].
  - repeat split; constructor.
  - by apply run_constraints.
Qed.

(** Under [uq_doctor_day_queue_active] the active numbers of a partition
    are pairwise distinct. *)
Lemma active_numbers_NoDup doctor day db :
  uq_doctor_day_queue_active (appointments db) →
  NoDup (active_numbers doctor day db).
Proof.
  unfold uq_doctor_day_queue_active, active_numbers.
  intros Hq. apply (NoDup_fmap_1 (λ n, (doctor, day, n))).
  eapply sublist_NoDup; [exact Hq|]. clear Hq.
  induction (appointments db) as [|r rows IH]; [done|].
  rewrite filter_cons. csimpl.
  destruct (decide (doctor_id r = doctor ∧ scheduled_day r = Some day
                    ∧ active r)) as [(<- & Hd & Ha)|Hn].
  - assert (key_queue r = (λ n, (doctor_id r, day, n)) <$> queue_number r) as ->.
    { unfold key_queue, active. rewrite decide_True by done. rewrite Hd.
      by destruct (queue_number r). }
    csimpl. destruct (queue_number r); csimpl; [by apply sublist_skip|done].
  - destruct (key_queue r); [by apply sublist_cons|done].
Qed.

(** *** Rows and keys *)

Lemma get_appointment_Some k db r :
  get_appointment k db = Some r → pk r = Some k ∧ r ∈ appointments db.
Proof.
  unfold get_appointment. intros Hh. apply head_Some_elem_of in Hh.
  by apply list_elem_of_filter in Hh.
Qed.

Lemma head_filter_fmap_pk (g : Appointment -> Appointment) k rows :
  (∀ r, pk (g r) = pk r) →
  head (filter (λ r, pk r = Some k) (g <$> rows))
  = g <$> head (filter (λ r, pk r = Some k) rows).
Proof.
  intros Hg. induction rows as [|r rows IH]; [done|].
  rewrite fmap_cons, !filter_cons, Hg. by case_decide.
Qed.

Lemma head_filter_app {A} (P : A -> Prop) `{!∀ x, Decision (P x)} l1 l2 x :
  head (filter P l1) = Some x → head (filter P (l1 ++ l2)) = Some x.
Proof.
  rewrite filter_app. by destruct (filter P l1).
Qed.

Lemma filter_none {A} (P : A -> Prop) `{!∀ x, Decision (P x)} (l : list A) :
  (∀ x, x ∈ l → ¬ P x) → filter P l = [].
Proof.
  induction l as [|x l IH]; [done|]. intros Hl.
  rewrite filter_cons_False by (apply Hl; by left).
  apply IH. intros y Hy. apply Hl. by right.
Qed.

Lemma NoDup_omap_inj {A B} (f : A -> option B) l x y v :
  NoDup (omap f l) → x ∈ l → y ∈ l → f x = Some v → f y = Some v → x = y.
Proof.
  induction l as [|z l IH]; [by intros _ ?%elem_of_nil|].
  csimpl. intros Hnd Hx Hy Hfx Hfy.
  apply elem_of_cons in Hx as [->|Hx]; apply elem_of_cons in Hy as [->|Hy].
  - done.
  - rewrite Hfx in Hnd. apply NoDup_cons in Hnd as [Hn _].
    destruct Hn. apply list_elem_of_omap. eauto.
  - rewrite Hfy in Hnd. apply NoDup_cons in Hnd as [Hn _].
    destruct Hn. apply list_elem_of_omap. eauto.
  - destruct (f z); [apply NoDup_cons in Hnd as [_ Hnd]|]; eauto.
Qed.

Lemma omap_fmap_sublist {A B} (f : A -> option B) (g : A -> A) l :
  (∀ x, f (g x) = f x ∨ f (g x) = None) → omap f (g <$> l) `sublist_of` omap f l.
Proof.
  intros Hg. induction l as [|x l IH]; [done|]. csimpl.
  destruct (Hg x) as [->| ->].
  - destruct (f x); [by apply sublist_skip|done].
  - destruct (f x); [by apply sublist_cons|done].
Qed.

Lemma cancelling_update_row k upd db :
  cancelling upd → constraints db →
  update_row k upd db
  = Ok (set_appointments
          ((λ r, if decide (pk r = Some k) then upd r else r) <$> appointments db) db).
Proof.
  intros Hupd (Hpk & Ht & Hq). unfold update_row.
  set (g := λ r, if decide (pk r = Some k) then upd r else r).
  assert (∀ r, g r = r ∨ ∃ n, g r = set_notes n (set_status AppointmentStatus.CANCELLED r))
    as Hg.
  { intros r. unfold g. case_decide; [right; apply Hupd|by left]. }
  assert (check_constraints (g <$> appointments db) = Ok tt) as ->; [|done].
  apply check_constraints_Ok. repeat split.
  - unfold pk_unique. rewrite <-list_fmap_compose.
    erewrite list_fmap_ext; [exact Hpk|].
    intros i r _. simpl. by destruct (Hg r) as [->|[n ->]].
  - eapply sublist_NoDup; [exact Ht|]. apply omap_fmap_sublist.
    intros r. destruct (Hg r) as [->|[n ->]]; [by left|by right].
  - eapply sublist_NoDup; [exact Hq|]. apply omap_fmap_sublist.
    intros r. destruct (Hg r) as [->|[n ->]]; [by left|by right].
Qed.

(** *** Numbering *)

Lemma foldr_max_ge (n : N) (l : list N) : n ∈ l → (n ≤ foldr N.max 0 l)%N.
Proof.
  induction 1 as [n l|n m l _ IH]; simpl; lia.
Qed.

Lemma or_0_Max column : or_0 (Max column) = foldr N.max 0%N (omap id column).
Proof.
  assert (∀ mx, or_0 (Some mx) = mx) as Hor.
  { intros mx. unfold or_0. by case_decide. }
  assert (match Max column with
          | Some mx => mx = foldr N.max 0%N (omap id column) ∧ omap id column ≠ []
          | None => omap id column = []
          end) as Hmax.
  { induction column as [|[x|] column IH]; csimpl; [done| |done].
    destruct (Max column) as [mx|].
    - destruct IH as [-> _]. done.
    - rewrite IH. simpl. split; [lia|done]. }
  destruct (Max column) as [mx|].
  - rewrite Hor. apply Hmax.
  - by rewrite Hmax.
Qed.

Lemma omap_id_fmap {A B} (f : A -> option B) (l : list A) :
  omap id (f <$> l) = omap f l.
Proof. induction l as [|x l IH]; csimpl; [done|]. by rewrite IH. Qed.

(** The code's numbering is the spec's. *)
Lemma next_number_spec doctor day db :
  (or_0 (Max (queue_number <$> partition_qs doctor (Some day) db)) + 1)%N
  = spec_nextNumber (active_numbers doctor day db).
Proof.
  rewrite or_0_Max, omap_id_fmap. unfold spec_nextNumber, active_numbers, partition_qs.
  by destruct (omap _ _).
Qed.

Lemma _to_local_aware_Some dt :
  _to_local_aware (Some dt) = Some (Aware (timestamp dt) LOCAL_TZ).
Proof. by destruct dt. Qed.

Lemma Appointment_save_creating a dt now db :
  pk a = None → scheduled_time a = Some dt →
  Appointment_save a None now db =
    if decide (doctor_id a ∈ doctors db) then
      Appointment_full_clean (created a dt db) now db ≫= λ _,
      insert_row (created a dt db) now db
    else Raise (DoesNotExist "Doctor").
Proof.
  intros Hpk Ht. unfold Appointment_save, created, lookup_date.
  rewrite Ht, _to_local_aware_Some. destruct a as [k p d t sd q amt n st c].
  simpl in *. subst k. by destruct amt.
Qed.

Lemma created_success a dt now db a' db' :
  pk a = None → scheduled_time a = Some dt →
  Appointment_save a None now db = Ok (a', db') →
  doctor_id a ∈ doctors db
  ∧ Appointment_full_clean (created a dt db) now db = Ok tt
  ∧ insert_row (created a dt db) now db = Ok (a', db').
Proof.
  intros Hpk Ht. rewrite (Appointment_save_creating a dt) by done.
  case_decide; [|done]. intros ([] & Hc & Hi)%bind_Ok. done.
Qed.

Lemma created_number a dt now db a' db' :
  pk a = None → scheduled_time a = Some dt →
  Appointment_save a None now db = Ok (a', db') →
  queue_number a'
    = Some (spec_nextNumber (active_numbers (doctor_id a) (lookup_date dt) db))
  ∧ to_row a' ∈ appointments db' ∧ doctor_id a' = doctor_id a
  ∧ scheduled_day a' = Some (lookup_date dt).
Proof.
  intros Hpk Ht Hs.
  apply (created_success a dt) in Hs as (_ & _ & Hi); [|done..].
  unfold insert_row in Hi. apply bind_Ok in Hi as ([] & _ & [= <- <-]).
  simpl. rewrite next_number_spec. repeat split; [|done..].
  apply elem_of_app. right. by apply list_elem_of_singleton.
Qed.

Lemma next_number_above doctor day db r n :
  r ∈ appointments db → doctor_id r = doctor → scheduled_day r = Some day →
  active r → queue_number r = Some n →
  (n < spec_nextNumber (active_numbers doctor day db))%N.
Proof.
  intros Hr Hd Hday Ha Hqr.
  assert (n ∈ active_numbers doctor day db) as Hin.
  { unfold active_numbers. apply list_elem_of_omap. exists r.
    split; [|done]. apply list_elem_of_filter. done. }
  apply foldr_max_ge in Hin. unfold spec_nextNumber.
  destruct (active_numbers _ _ _); simpl in *; lia.
Qed.


(** C1, as the code has it. A created appointment gets a number above
    that of every active appointment of its partition; so the number of a
    cancelled appointment is not given again while an active appointment
    with that number or a higher one is left. *)
Theorem create_number_above_active a dt now db a' db' n' :
  pk a = None → scheduled_time a = Some dt →
  Appointment_save a None now db = Ok (a', db') →
  queue_number a' = Some n' →
  (∀ r n, r ∈ appointments db → doctor_id r = doctor_id a →
     scheduled_day r = Some (lookup_date dt) → active r →
     queue_number r = Some n → (n < n')%N)
  ∧ (∀ c n r m, c ∈ appointments db → status c = AppointmentStatus.CANCELLED →
       queue_number c = Some n →
       r ∈ appointments db → doctor_id r = doctor_id a →
       scheduled_day r = Some (lookup_date dt) → active r →
       queue_number r = Some m → (n ≤ m)%N → n' ≠ n).
Proof.
  intros Hpk Ht Hs Hn'.
  destruct (created_number _ _ _ _ _ _ Hpk Ht Hs) as (Hq & _).
  rewrite Hn' in Hq. injection Hq as ->.
  split; [by eauto using next_number_above|].
  intros c n r m _ _ _ Hr Hd Hday Ha Hqr Hle.
  pose proof (next_number_above _ _ _ _ _ Hr Hd Hday Ha Hqr). lia.
Qed.

(** C4, as the code has it. In every state the operations reach, the
    queue numbers of the active appointments of a (doctor, day) partition
    are pairwise distinct; and an appointment created while the partition
    holds no active number gets number 1. *)
Theorem reachable_active_numbers_distinct ds ps db doctor day :
  reachable ds ps db →
  NoDup (active_numbers doctor day db)
  ∧ (∀ a dt now a' db',
       pk a = None → scheduled_time a = Some dt →
       doctor_id a = doctor → lookup_date dt = day →
       active_numbers doctor day db = [] →
       Appointment_save a None now db = Ok (a', db') →
       queue_number a' = Some 1%N).
Proof.
  intros Hr. split.
  - apply active_numbers_NoDup. by apply reachable_constraints in Hr as (_ & _ & ?).
  - intros a dt now a' db' Hpk Ht <- <- Hnone Hs.
    destruct (created_number _ _ _ _ _ _ Hpk Ht Hs) as (-> & _).
    by rewrite Hnone.
Qed.

(** *** Text *)

Lemma append_cons c x y : String c x +:+ y = String c (x +:+ y).
Proof. reflexivity. Qed.

Lemma append_nil y : EmptyString +:+ y = y.
Proof. reflexivity. Qed.

Lemma append_assoc x y z : x +:+ y +:+ z = (x +:+ y) +:+ z.
Proof.
  induction x as [|c x IH]; [done|]. rewrite !append_cons. by rewrite IH.
Qed.

Lemma append_nonempty x y : y ≠ EmptyString → x +:+ y ≠ EmptyString.
Proof. destruct x; [by rewrite append_nil|by rewrite append_cons]. Qed.

(** A byte below 128 is a character of its own: it is no part of a
    white-space character of two or three bytes. *)
Lemma isspace2_ascii c1 c : (nat_of_ascii c < 128)%nat → isspace2 c1 c = false.
Proof.
  intros Hc. unfold isspace2. apply andb_false_iff. right.
  apply orb_false_iff. split; apply Nat.eqb_neq; lia.
Qed.

Lemma isspace2_ascii_l c c2 : (nat_of_ascii c < 128)%nat → isspace2 c c2 = false.
Proof.
  intros Hc. unfold isspace2. apply andb_false_iff. left. apply Nat.eqb_neq. lia.
Qed.

Lemma isspace3_ascii c1 c2 c : (nat_of_ascii c < 128)%nat → isspace3 c1 c2 c = false.
Proof.
  intros Hc. unfold isspace3.
  assert ((nat_of_ascii c =? 128) = false)%nat as -> by (apply Nat.eqb_neq; lia).
  assert ((nat_of_ascii c =? 159) = false)%nat as -> by (apply Nat.eqb_neq; lia).
  assert ((nat_of_ascii c =? 168) = false)%nat as -> by (apply Nat.eqb_neq; lia).
  assert ((nat_of_ascii c =? 169) = false)%nat as -> by (apply Nat.eqb_neq; lia).
  assert ((nat_of_ascii c =? 175) = false)%nat as -> by (apply Nat.eqb_neq; lia).
  assert ((128 <=? nat_of_ascii c) = false)%nat as -> by (apply Nat.leb_gt; lia).
  by rewrite !andb_false_r.
Qed.

Lemma isspace3_ascii_m c1 c c3 : (nat_of_ascii c < 128)%nat → isspace3 c1 c c3 = false.
Proof.
  intros Hc. unfold isspace3.
  assert ((nat_of_ascii c =? 154) = false)%nat as -> by (apply Nat.eqb_neq; lia).
  assert ((nat_of_ascii c =? 128) = false)%nat as -> by (apply Nat.eqb_neq; lia).
  assert ((nat_of_ascii c =? 129) = false)%nat as -> by (apply Nat.eqb_neq; lia).
  by rewrite !andb_false_r.
Qed.

Lemma isspace3_ascii_l c c2 c3 : (nat_of_ascii c < 128)%nat → isspace3 c c2 c3 = false.
Proof.
  intros Hc. unfold isspace3.
  assert ((nat_of_ascii c =? 225) = false)%nat as -> by (apply Nat.eqb_neq; lia).
  assert ((nat_of_ascii c =? 226) = false)%nat as -> by (apply Nat.eqb_neq; lia).
  assert ((nat_of_ascii c =? 227) = false)%nat as -> by (apply Nat.eqb_neq; lia).
  done.
Qed.

(** The equations of [lstrip], by the character at the start. *)
Lemma lstrip_1 c1 s1 : isspace c1 = true → lstrip (String c1 s1) = lstrip s1.
Proof. intros H. simpl. by rewrite H. Qed.

Lemma lstrip_2 c1 c2 s2 :
  isspace c1 = false → isspace2 c1 c2 = true →
  lstrip (String c1 (String c2 s2)) = lstrip s2.
Proof. intros H1 H2. simpl. by rewrite H1, H2. Qed.

Lemma lstrip_3 c1 c2 c3 s3 :
  isspace c1 = false → isspace2 c1 c2 = false → isspace3 c1 c2 c3 = true →
  lstrip (String c1 (String c2 (String c3 s3))) = lstrip s3.
Proof. intros H1 H2 H3. simpl. by rewrite H1, H2, H3. Qed.

(** How [lstrip] goes about a string: it drops a white-space character
    and goes on, or it stops and gives the string back. *)
Inductive lstrip_step : string -> Prop :=
  | lstrip_drops_1 c1 s1 :
      isspace c1 = true → lstrip_step (String c1 s1)
  | lstrip_drops_2 c1 c2 s2 :
      isspace c1 = false → isspace2 c1 c2 = true →
      lstrip_step (String c1 (String c2 s2))
  | lstrip_drops_3 c1 c2 c3 s3 :
      isspace c1 = false → isspace2 c1 c2 = false → isspace3 c1 c2 c3 = true →
      lstrip_step (String c1 (String c2 (String c3 s3)))
  | lstrip_stops_0 : lstrip_step EmptyString
  | lstrip_stops_1 c1 :
      isspace c1 = false → lstrip_step (String c1 EmptyString)
  | lstrip_stops_2 c1 c2 :
      isspace c1 = false → isspace2 c1 c2 = false →
      lstrip_step (String c1 (String c2 EmptyString))
  | lstrip_stops_3 c1 c2 c3 s3 :
      isspace c1 = false → isspace2 c1 c2 = false → isspace3 c1 c2 c3 = false →
      lstrip_step (String c1 (String c2 (String c3 s3))).

Lemma lstrip_cases s : lstrip_step s.
Proof.
  destruct s as [|c1 [|c2 [|c3 s3]]]; [constructor|..];
    destruct (isspace c1) eqn:H1; try (by constructor);
    destruct (isspace2 c1 c2) eqn:H2; try (by constructor);
    destruct (isspace3 c1 c2 c3) eqn:H3; by constructor.
Qed.

Lemma lstrip_stops c1 s1 :
  isspace c1 = false →
  (∀ c2 s2, s1 = String c2 s2 → isspace2 c1 c2 = false) →
  (∀ c2 c3 s3, s1 = String c2 (String c3 s3) → isspace3 c1 c2 c3 = false) →
  lstrip (String c1 s1) = String c1 s1.
Proof.
  intros H1 H2 H3. simpl. rewrite H1.
  destruct s1 as [|c2 s2]; [done|]. rewrite (H2 c2 s2 eq_refl).
  destruct s2 as [|c3 s3]; [done|]. by rewrite (H3 c2 c3 s3 eq_refl).
Qed.

(** What is left after white space only does not count. *)
Lemma lstrip_app_space x y : lstrip x = EmptyString → lstrip (x +:+ y) = lstrip y.
Proof.
  remember (String.length x) as n eqn:Hn. revert x Hn.
  induction (lt_wf n) as [n _ IH]. intros x -> Hx.
  destruct (lstrip_cases x) as [c1 s1 H1|c1 c2 s2 H1 H2|c1 c2 c3 s3 H1 H2 H3
                                | |c1 H1|c1 c2 H1 H2|c1 c2 c3 s3 H1 H2 H3].
  - rewrite lstrip_1 in Hx by done. rewrite append_cons, lstrip_1 by done.
    apply (IH (String.length s1)); [simpl; lia|done|done].
  - rewrite lstrip_2 in Hx by done. rewrite !append_cons, lstrip_2 by done.
    apply (IH (String.length s2)); [simpl; lia|done|done].
  - rewrite lstrip_3 in Hx by done. rewrite !append_cons, lstrip_3 by done.
    apply (IH (String.length s3)); [simpl; lia|done|done].
  - done.
  - rewrite lstrip_stops in Hx by done. done.
  - rewrite lstrip_stops in Hx; [done|done|by intros ?? [= <- <-]|done].
  - rewrite lstrip_stops in Hx;
      [done|done|by intros ?? [= <- <-]|by intros ??? [= <- <- <-]].
Qed.

(** A character below 128 that is no white space stops [lstrip],
    whatever comes before it. *)
Lemma lstrip_app_ascii x c y :
  (nat_of_ascii c < 128)%nat → isspace c = false →
  lstrip (x +:+ String c y) = lstrip x +:+ String c y.
Proof.
  intros Hc Hns.
  assert (lstrip (String c y) = String c y) as Hstop.
  { apply lstrip_stops; [done|intros; by apply isspace2_ascii_l
                         |intros; by apply isspace3_ascii_l]. }
  remember (String.length x) as n eqn:Hn. revert x Hn.
  induction (lt_wf n) as [n _ IH]. intros x ->.
  destruct (lstrip_cases x) as [c1 s1 H1|c1 c2 s2 H1 H2|c1 c2 c3 s3 H1 H2 H3
                                | |c1 H1|c1 c2 H1 H2|c1 c2 c3 s3 H1 H2 H3].
  - rewrite append_cons, !lstrip_1 by done.
    apply (IH (String.length s1)); [simpl; lia|done].
  - rewrite !append_cons, !lstrip_2 by done.
    apply (IH (String.length s2)); [simpl; lia|done].
  - rewrite !append_cons, !lstrip_3 by done.
    apply (IH (String.length s3)); [simpl; lia|done].
  - done.
  - rewrite (lstrip_stops c1 EmptyString) by done.
    rewrite append_cons, append_nil. apply lstrip_stops; [done|..].
    + intros ?? [= <- <-]. by apply isspace2_ascii.
    + intros ??? [= <- _]. by apply isspace3_ascii_m.
  - rewrite (lstrip_stops c1 (String c2 EmptyString));
      [|done|by intros ?? [= <- <-]|done].
    rewrite !append_cons, append_nil. apply lstrip_stops; [done|..].
    + by intros ?? [= <- <-].
    + intros ??? [= <- <- _]. by apply isspace3_ascii.
  - rewrite (lstrip_stops c1 (String c2 (String c3 s3)));
      [|done|by intros ?? [= <- <-]|by intros ??? [= <- <- <-]].
    rewrite !append_cons. apply lstrip_stops; [done|..].
    + by intros ?? [= <- <-].
    + by intros ??? [= <- <- <-].
Qed.

Lemma lstrip_idemp s : lstrip (lstrip s) = lstrip s.
Proof.
  remember (String.length s) as n eqn:Hn. revert s Hn.
  induction (lt_wf n) as [n _ IH]. intros s ->.
  assert (lstrip s = s → lstrip (lstrip s) = lstrip s) as Hfix
    by (intros Hs; by rewrite !Hs).
  destruct (lstrip_cases s) as [c1 s1 H1|c1 c2 s2 H1 H2|c1 c2 c3 s3 H1 H2 H3
                                | |c1 H1|c1 c2 H1 H2|c1 c2 c3 s3 H1 H2 H3].
  - rewrite lstrip_1 by done. apply (IH (String.length s1)); [simpl; lia|done].
  - rewrite lstrip_2 by done. apply (IH (String.length s2)); [simpl; lia|done].
  - rewrite lstrip_3 by done. apply (IH (String.length s3)); [simpl; lia|done].
  - done.
  - apply Hfix. by apply lstrip_stops.
  - apply Hfix. apply lstrip_stops; [done|by intros ?? [= <- <-]|done].
  - apply Hfix. apply lstrip_stops;
      [done|by intros ?? [= <- <-]|by intros ??? [= <- <- <-]].
Qed.

(** [rstrip] gives nothing exactly on white space. *)
Lemma rstrip_nil s : rstrip s = EmptyString ↔ lstrip s = EmptyString.
Proof.
  destruct s as [|c s]; [done|].
  change (rstrip (String c s))
    with (match lstrip (String c s) with
          | EmptyString => EmptyString
          | _ => String c (rstrip s)
          end).
  by destruct (lstrip (String c s)).
Qed.

Lemma rstrip_cons c s :
  lstrip (String c s) ≠ EmptyString → rstrip (String c s) = String c (rstrip s).
Proof.
  intros Hne.
  change (rstrip (String c s))
    with (match lstrip (String c s) with
          | EmptyString => EmptyString
          | _ => String c (rstrip s)
          end).
  by destruct (lstrip (String c s)).
Qed.

(** What [rstrip] cuts off is white space. *)
Lemma rstrip_split s : ∃ t, s = rstrip s +:+ t ∧ lstrip t = EmptyString.
Proof.
  induction s as [|c s (t & Hs & Ht)]; [by exists EmptyString|].
  destruct (lstrip (String c s)) as [|c' l] eqn:Hl.
  - exists (String c s). split; [|done].
    by rewrite (proj2 (rstrip_nil (String c s)) Hl).
  - exists t. split; [|done]. rewrite rstrip_cons by (by rewrite Hl).
    rewrite append_cons. by rewrite <-Hs.
Qed.

Lemma rstrip_idemp s : rstrip (rstrip s) = rstrip s.
Proof.
  induction s as [|c s IH]; [done|].
  destruct (lstrip (String c s)) as [|c' l] eqn:Hl.
  - by rewrite (proj2 (rstrip_nil (String c s)) Hl).
  - rewrite rstrip_cons by (by rewrite Hl).
    rewrite rstrip_cons; [by rewrite IH|].
    intros Hall. destruct (rstrip_split s) as (t & Hs & Ht).
    assert (lstrip (String c s) = EmptyString) as Hnil; [|by rewrite Hnil in Hl].
    rewrite Hs, <-append_cons. by rewrite lstrip_app_space.
Qed.

(** Nothing is cut off before a character below 128 that is no white
    space. *)
Lemma rstrip_app_ascii x c y :
  (nat_of_ascii c < 128)%nat → isspace c = false →
  rstrip (x +:+ String c y) = x +:+ rstrip (String c y).
Proof.
  intros Hc Hns. induction x as [|c1 x IH]; [done|].
  rewrite append_cons, rstrip_cons; [by rewrite IH|].
  rewrite <-append_cons, lstrip_app_ascii by done. by apply append_nonempty.
Qed.

Lemma strip_nil s : strip s = EmptyString ↔ lstrip s = EmptyString.
Proof. unfold strip. by rewrite rstrip_nil, lstrip_idemp. Qed.

Ltac byte := solve [reflexivity | apply Nat.ltb_lt; reflexivity].

(** Stripping the old notes followed by the audit line: the line stays
    whole, at the end, and of what is before it the white space at the
    start goes. *)
Lemma strip_note_line old reason user_full_name username now :
  rstrip reason = reason → reason ≠ EmptyString →
  strip (old +:+ "
" +:+ note_line reason user_full_name username now)
  = lstrip (old +:+ "
") +:+ note_line reason user_full_name username now.
Proof.
  intros Hfix Hne.
  assert (lstrip reason ≠ EmptyString) as Hl.
  { intros Hl. apply rstrip_nil in Hl. congruence. }
  assert (∃ p, note_line reason user_full_name username now
               = String "[" (p +:+ String "]" (String " " reason))) as [p Hp].
  { unfold note_line.
    exists ("Cancelled " +:+ strftime "%Y-%m-%d %H:%M" (localtime now) +:+ " by "
            +:+ str_or user_full_name username).
    rewrite <-!append_assoc. reflexivity. }
  assert (rstrip (note_line reason user_full_name username now)
          = note_line reason user_full_name username now) as Hn.
  { rewrite Hp. rewrite rstrip_cons.
    - f_equal. rewrite rstrip_app_ascii by byte. f_equal.
      rewrite rstrip_cons.
      + f_equal. rewrite rstrip_cons; [by rewrite Hfix|].
        by rewrite lstrip_1.
      + rewrite lstrip_stops; [done|done|..].
        * intros ?? [= <- <-]. done.
        * intros ??? [= <- _]. apply isspace3_ascii_l. byte.
    - rewrite lstrip_stops; [done|done|..].
      + intros ?? _. apply isspace2_ascii_l. byte.
      + intros ??? _. apply isspace3_ascii_l. byte. }
  unfold strip. rewrite append_assoc, Hp.
  rewrite lstrip_app_ascii by byte.
  rewrite rstrip_app_ascii by byte.
  by rewrite <-Hp, Hn.
Qed.

(** *** Cancelling *)

Lemma cancel_appointment_POST db k r reason user_full_name username now :
  constraints db → get_appointment k db = Some r →
  status r ≠ AppointmentStatus.COMPLETED →
  ∃ upd,
    cancelling upd
    ∧ cancel_appointment POST reason user_full_name username k now db
      = (redirect "appointments:appointment_list"
           (Some (success, "✅ Appointment cancelled successfully.")),
         set_appointments
           ((λ x, if decide (pk x = Some k) then upd x else x) <$> appointments db) db)
    ∧ (stripped_reason reason = "" →
       ∀ x, upd x = set_status AppointmentStatus.CANCELLED x)
    ∧ (stripped_reason reason ≠ "" →
       ∀ x,
         upd x = set_notes
                   (Some (lstrip (format_opt (notes r) +:+ "
") +:+ note_line (stripped_reason reason) user_full_name username now))
                   (set_status AppointmentStatus.CANCELLED x)).
Proof.
  intros Hdb Hget Hst. unfold cancel_appointment. rewrite Hget.
  rewrite decide_False by done. fold (stripped_reason reason).
  destruct (stripped_reason reason) as [|c reason'] eqn:Hreason.
  - exists (set_status AppointmentStatus.CANCELLED).
    assert (cancelling (set_status AppointmentStatus.CANCELLED)) as Hc.
    { intros x. exists (notes x). by destruct x. }
    rewrite cancelling_update_row by done. done.
  - assert (rstrip (String c reason') = String c reason') as Hfix.
    { rewrite <-Hreason. unfold stripped_reason, strip. apply rstrip_idemp. }
    pose proof (strip_note_line (format_opt (notes r)) (String c reason')
                  user_full_name username now Hfix ltac:(done)) as Hkept.
    unfold note_line in Hkept.
    match goal with
    | |- context [update_row k ?f db] => exists f; assert (cancelling f) as Hc
    end.
    { intros x. eauto. }
    rewrite cancelling_update_row by done.
    split; [done|]. split; [done|]. split; [done|].
    intros _ x. unfold note_line. by rewrite <-Hkept.
Qed.

(** C8, as the code has it. Cancel is refused exactly when the
    appointment is already COMPLETED, and then changes nothing; from
    PENDING, and from CANCELLED as well, it succeeds as a soft state
    change: the row stays, its status is CANCELLED, its other columns and
    the other rows are as before.  The notes stay as they were when the
    reason, stripped of the white space around it (Unicode white space
    included), is empty.  Otherwise the audit line that ends in the
    stripped reason is appended: the new notes are the old notes as
    printed and a line break, without the white space they begin with,
    followed by the audit line. *)
Theorem cancel_soft_state_change db k r reason user_full_name username now :
  constraints db → get_appointment k db = Some r →
  let out := cancel_appointment POST reason user_full_name username k now db in
  (status r = AppointmentStatus.COMPLETED →
     out = (redirect "appointments:appointment_list"
              (Some (error, "❌ Cannot cancel a completed appointment.")), db))
  ∧ (status r ≠ AppointmentStatus.COMPLETED →
     out.1 = redirect "appointments:appointment_list"
               (Some (success, "✅ Appointment cancelled successfully."))
     ∧ length (appointments out.2) = length (appointments db)
     ∧ (∀ k2, k2 ≠ k → get_appointment k2 out.2 = get_appointment k2 db)
     ∧ ∃ r', get_appointment k out.2 = Some r'
         ∧ status r' = AppointmentStatus.CANCELLED
         ∧ set_notes (notes r) (set_status (status r) r') = r
         ∧ (stripped_reason reason = "" → notes r' = notes r)
         ∧ (stripped_reason reason ≠ "" →
            notes r' = Some (lstrip (format_opt (notes r) +:+ "
") +:+ note_line (stripped_reason reason) user_full_name username now))).
Proof.
  intros Hdb Hget out. split.
  - intros Hst. unfold out, cancel_appointment. rewrite Hget. by rewrite decide_True.
  - intros Hst.
    destruct (cancel_appointment_POST db k r reason user_full_name username now)
      as (upd & Hc & Hout & Hnone & Hsome); [done..|].
    unfold out. rewrite Hout. simpl.
    assert (∀ x, pk ((λ x, if decide (pk x = Some k) then upd x else x) x) = pk x) as Hg.
    { intros x. simpl. case_decide; [|done]. by destruct (Hc x) as [n ->]. }
    split; [done|]. split; [by rewrite length_fmap|]. split.
    + intros k2 Hk2. unfold get_appointment. simpl.
      rewrite head_filter_fmap_pk by done.
      destruct (head (filter (λ x, pk x = Some k2) (appointments db)))
        as [x|] eqn:Hx; [|done].
      simpl. apply head_Some_elem_of, list_elem_of_filter in Hx as [Hx _].
      rewrite decide_False; [done|]. rewrite Hx. by intros [= ->].
    + unfold get_appointment. simpl. rewrite head_filter_fmap_pk by done.
      unfold get_appointment in Hget. rewrite Hget. simpl.
      apply get_appointment_Some in Hget as [Hpk _]. rewrite decide_True by done.
      eexists. split; [done|].
      destruct (Hc r) as [n Hn].
      split; [by rewrite Hn|]. split; [rewrite Hn; by destruct r|]. split.
      * intros Hr. by rewrite (Hnone Hr).
      * intros Hr. by rewrite (Hsome Hr).
Qed.

(** *** What [save] validates *)

Lemma Appointment_save_unnumbered a uf now db :
  pk a ≠ None ∨ scheduled_time a = None →
  Appointment_save a uf now db
  = Appointment_full_clean (normalised a) now db ≫= λ _,
    Model_save (normalised a) uf now db.
Proof.
  intros H. unfold Appointment_save, normalised.
  destruct a as [[k|] p d [[w|u o]|] sd q [amt|] n st c]; simpl in *;
    try reflexivity; by destruct H.
Qed.

Lemma Appointment_clean_fields_nil self db :
  Appointment_clean_fields self db = [] ↔
  fields_valid self db ∧ iqd_amount self ≠ None.
Proof.
  unfold Appointment_clean_fields, fields_valid.
  destruct (decide (patient_id self ∈ patients db)); [|split; [done|tauto]].
  destruct (decide (doctor_id self ∈ doctors db)); [|split; [done|tauto]].
  destruct (iqd_amount self) as [v|]; [|split; [done|tauto]].
  destruct (decide (Z.abs v < 10 ^ 15)), (decide (0 ≤ v)); simpl;
    (split; [try done; intros _|try done; intros ((_ & _ & ?) & _)]);
    try lia; try done.
  repeat split; try done; lia.
Qed.

Lemma Appointment_clean_raises self now db e :
  Appointment_clean self now db = Raise e → ∃ msg, e = ValidationError [msg].
Proof.
  unfold Appointment_clean. destruct (_to_local_aware _); [|done].
  repeat case_decide; intros [= <-]; eauto.
Qed.

(** A constraint has nothing to refuse when no other row holds the
    values of the instance. *)
Lemma UniqueConstraint_validate_nil {K} `{EqDecision K} name fields
    (key : Appointment -> option K) self exclude db :
  (∀ v r, key self = Some v → r ∈ appointments db → other_row self r →
          key r ≠ Some v) →
  UniqueConstraint_validate name fields key self exclude db = [].
Proof.
  intros Hfree. unfold UniqueConstraint_validate.
  case_decide; [done|]. destruct (key self) as [v|] eqn:Hv; [|done].
  rewrite decide_False; [done|].
  intros (r & [Ho Hr]%list_elem_of_filter & Hkr)%Exists_exists.
  by apply (Hfree v r).
Qed.

(** A constraint that is not skipped is violated exactly when another
    row holds the values of the instance. *)
Lemma UniqueConstraint_validate_violated {K} `{EqDecision K} name fields
    (key : Appointment -> option K) self db v r :
  key self = Some v → r ∈ appointments db → other_row self r → key r = Some v →
  UniqueConstraint_validate name fields key self [] db
  = [("__all__", "Constraint “" +:+ name +:+ "” is violated.")].
Proof.
  intros Hv Hr Ho Hkr. unfold UniqueConstraint_validate.
  rewrite decide_False.
  - rewrite Hv. rewrite decide_True; [done|]. apply Exists_exists. exists r.
    split; [|done]. by apply list_elem_of_filter.
  - intros (f & _ & []%elem_of_nil)%Exists_exists.
Qed.



Lemma Appointment_full_clean_Ok self now db :
  Appointment_full_clean self now db = Ok tt ↔
  (fields_valid self db ∧ iqd_amount self ≠ None)
  ∧ Appointment_clean self now db = Ok tt
  ∧ Appointment_validate_constraints self [] db = [].
Proof.
  unfold Appointment_full_clean. rewrite <-Appointment_clean_fields_nil.
  destruct (Appointment_clean self now db) as [[]|e] eqn:Hc.
  - rewrite app_nil_r.
    destruct (Appointment_clean_fields self db) as [|item items]; simpl.
    + destruct (Appointment_validate_constraints self [] db); split; try done.
      by intros (_ & _ & ?).
    + split; [done|]. by intros [? _].
  - apply Appointment_clean_raises in Hc as [msg ->]. split; [|by intros (_ & ? & _)].
    by destruct (Appointment_clean_fields self db).
Qed.

(** An instance that passes the field validators and [clean] is left to
    the constraints. *)
Lemma Appointment_full_clean_constraints self now db :
  fields_valid self db → iqd_amount self ≠ None →
  Appointment_clean self now db = Ok tt →
  Appointment_full_clean self now db
  = match Appointment_validate_constraints self [] db with
    | [] => Ok tt
    | errors => Raise (ValidationError errors)
    end.
Proof.
  intros Hv Hamt Hc. unfold Appointment_full_clean.
  rewrite (proj2 (Appointment_clean_fields_nil self db)) by done.
  rewrite Hc. simpl.
  by destruct (Appointment_validate_constraints self [] db).
Qed.

(** What [full_clean] raises is a ValidationError. *)
Lemma Appointment_full_clean_raises self now db e :
  Appointment_full_clean self now db = Raise e → ∃ errors, e = ValidationError errors.
Proof.
  unfold Appointment_full_clean.
  match goal with |- match ?l with _ => _ end = _ → _ => destruct l end;
    [done|intros [= <-]; eauto].
Qed.

(** *** Booking into a free slot *)

Lemma key_time_Some r d t :
  key_time r = Some (d, t) ↔
  active r ∧ doctor_id r = d ∧ (timestamp <$> scheduled_time r) = Some t.
Proof.
  unfold key_time.
  destruct (decide (active r)) as [Ha|Ha], (scheduled_time r) as [dt|]; simpl;
    (split; [intros [= <- <-] || intros [=]|intros (? & ? & ?)]);
    try done; by simplify_eq.
Qed.

Lemma key_queue_Some r d day n :
  key_queue r = Some (d, day, n) ↔
  active r ∧ doctor_id r = d ∧ scheduled_day r = Some day ∧ queue_number r = Some n.
Proof.
  unfold key_queue.
  destruct (decide (active r)) as [Ha|Ha], (scheduled_day r) as [sd|],
    (queue_number r) as [q|];
    (split; [intros [= <- <- <-] || intros [=]|intros (? & ? & ? & ?)]);
    try done; by simplify_eq.
Qed.







(** *** Updates *)

(** What [save] does to an appointment that is already stored. *)
Lemma Appointment_save_update a k r uf now db a' db' :
  pk a = Some k → get_appointment k db = Some r →
  Appointment_save a uf now db = Ok (a', db') →
  pk a' = Some k ∧ queue_number a' = queue_number a ∧ status a' = status a
  ∧ ((uf = Some [] ∧ db' = db)
     ∨ db' = set_appointments
               ((λ x, if decide (pk x = Some k) then write_fields uf a' x else x)
                  <$> appointments db) db).
Proof.
  intros Hpk Hget. unfold Appointment_save.
  set (self := match iqd_amount _ with None => _ | Some _ => _ end).
  assert (pk self = Some k ∧ queue_number self = queue_number a
          ∧ status self = status a) as (Hk & Hq & Hst).
  { unfold self. destruct a as [? ? ? [[]|] ? ? [] ? ? ?]; simpl in *; done. }
  clearbody self. rewrite Hk. simpl.
  intros ([] & _ & Hs)%bind_Ok. unfold Model_save in Hs.
  rewrite Hk, Hget in Hs.
  destruct uf as [[|f fs]|].
  - injection Hs as <- <-. auto 10.
  - apply bind_Ok in Hs as (db1 & Hu & [= <- <-]).
    apply update_row_Ok in Hu as [-> _]. auto.
  - apply bind_Ok in Hs as (db1 & Hu & [= <- <-]).
    apply update_row_Ok in Hu as [-> _]. auto.
Qed.

Lemma get_appointment_updated k g db r :
  (∀ x, pk (g x) = pk x) → get_appointment k db = Some r →
  get_appointment k
    (set_appointments ((λ x, if decide (pk x = Some k) then g x else x)
                         <$> appointments db) db)
  = Some (g r).
Proof.
  intros Hg Hget. unfold get_appointment in *. simpl.
  rewrite head_filter_fmap_pk, Hget.
  - simpl. apply head_Some_elem_of, list_elem_of_filter in Hget as [Hk _].
    by rewrite decide_True.
  - intros x. by case_decide.
Qed.

Lemma AppointmentForm_full_clean_keeps instance data now db appt :
  AppointmentForm_full_clean instance data now db = Ok appt →
  pk appt = pk instance ∧ queue_number appt = queue_number instance.
Proof.
  unfold AppointmentForm_full_clean. intros Hf.
  repeat match type of Hf with
  | (let '(_, _) := ?x in _) = _ => destruct x
  | match ?x with _ => _ end = _ => destruct x
  end; try done; by simplify_eq.
Qed.

(** C6. Saving an appointment that is already stored does not renumber
    it: [save] returns the instance with the queue number it came with
    and, when that is the stored one, the row keeps it whatever else is
    written; and an edit through the view, whatever the form changes (the
    day of the scheduled time and the status included), leaves the row's
    queue number as it was. *)
Theorem update_keeps_queue_number k r db :
  get_appointment k db = Some r →
  (∀ a uf now a' db',
     pk a = Some k → queue_number a = queue_number r →
     Appointment_save a uf now db = Ok (a', db') →
     queue_number a' = queue_number r
     ∧ ∃ r', get_appointment k db' = Some r' ∧ queue_number r' = queue_number r)
  ∧ (∀ method data now,
       ∃ r', get_appointment k (edit_appointment method data k now db).2 = Some r'
             ∧ queue_number r' = queue_number r).
Proof.
  intros Hget.
  assert (∀ a uf now a' db',
     pk a = Some k → queue_number a = queue_number r →
     Appointment_save a uf now db = Ok (a', db') →
     queue_number a' = queue_number r
     ∧ ∃ r', get_appointment k db' = Some r' ∧ queue_number r' = queue_number r)
    as Hsave.
  { intros a uf now a' db' Hpk Hq Hs.
    destruct (Appointment_save_update _ _ _ _ _ _ _ _ Hpk Hget Hs)
      as (_ & Hq' & _ & [[_ ->] | ->]).
    - split; [congruence|eauto].
    - split; [congruence|]. eexists. split.
      + by apply (get_appointment_updated k (write_fields uf a')).
      + unfold write_fields. simpl. destruct (written uf "queue_number"); congruence. }
  split; [done|].
  intros method data now. unfold edit_appointment. rewrite Hget.
  destruct method; [eauto|].
  destruct (AppointmentForm_full_clean r data now db) as [appt|e] eqn:Hf; [|eauto].
  apply AppointmentForm_full_clean_keeps in Hf as [Hpk Hq].
  apply get_appointment_Some in Hget as Hk. destruct Hk as [Hk _].
  destruct (Appointment_save _ None now db) as [[a' db']|e] eqn:Hs.
  - apply Hsave in Hs as [_ Hr']; [done| |done]. simpl. congruence.
  - destruct e; eauto.
Qed.

(** *** Booking requests *)

Lemma PatientBookingRequest_clean_fields_codes self db item :
  item ∈ PatientBookingRequest_clean_fields self db →
  item.2 ∈ ["blank"; "max_length"; "null"; "invalid"].
Proof.
  unfold PatientBookingRequest_clean_fields.
  rewrite !elem_of_app. intros [H|[H|[H|H]]]; revert H;
    repeat match goal with
    | |- context [match ?x with _ => _ end] => destruct x
    end;
    rewrite ?elem_of_nil, ?list_elem_of_singleton; try done;
    intros ->; simpl; rewrite !elem_of_cons; auto 10.
Qed.

(** C9, as the code has it. A booking request whose requested time is
    before now minus the one-minute margin is refused with a validation
    error and nothing is stored.  [clean] keeps one message for the
    requested time.  It is the past-time message when no active
    appointment of the doctor holds that exact instant.  When one does,
    the already-allocated message is stored under the same key and takes
    its place: the error that reaches the caller holds the
    already-allocated message and does not hold the past-time message.  A
    requested time at or after the bound passes the past-time check:
    [clean] does not report it. *)
Theorem booking_request_past_time self dt now db :
  br_scheduled_time self = Some dt →
  (timestamp dt < now - PAST_MARGIN →
   (∃ errors,
      PatientBookingRequest_create self now db = (Raise (ValidationError errors), db))
   ∧ ((∀ d, br_doctor_id self = Some d → d ≠ 0 →
         ¬ Exists (occupies d (Aware (timestamp dt) LOCAL_TZ)) (appointments db)) →
      PatientBookingRequest_clean self now db
      = Raise (ValidationError [("scheduled_time", "Requested time is in the past.")])
      ∧ ∃ errors,
          PatientBookingRequest_create self now db
            = (Raise (ValidationError errors), db)
          ∧ ("scheduled_time", "Requested time is in the past.") ∈ errors)
   ∧ (∀ d, br_doctor_id self = Some d → d ≠ 0 →
        Exists (occupies d (Aware (timestamp dt) LOCAL_TZ)) (appointments db) →
        PatientBookingRequest_clean self now db
        = Raise (ValidationError
            [("scheduled_time", "This time is already allocated for this doctor.")])
        ∧ ∃ errors,
            PatientBookingRequest_create self now db
              = (Raise (ValidationError errors), db)
            ∧ ("scheduled_time", "This time is already allocated for this doctor.")
              ∈ errors
            ∧ ("scheduled_time", "Requested time is in the past.") ∉ errors))
  ∧ (now - PAST_MARGIN ≤ timestamp dt →
     ∀ errors,
       PatientBookingRequest_clean self now db = Raise (ValidationError errors) →
       ("scheduled_time", "Requested time is in the past.") ∉ errors).
Proof.
  intros Ht. split.
  - intros Hpast.
    set (self' := mkPatientBookingRequest (br_pk self) (br_full_name self)
                    (br_date_of_birth self) (br_contact_info self) (br_doctor_id self)
                    (_to_local_aware (br_scheduled_time self)) (br_submitted_at self)
                    (br_status self)).
    assert (PatientBookingRequest_clean self' now db
            = PatientBookingRequest_clean self now db) as Hsame.
    { unfold PatientBookingRequest_clean, self'. simpl.
      by rewrite Ht, !_to_local_aware_Some. }
    assert (∀ msg, PatientBookingRequest_clean self now db
                   = Raise (ValidationError [("scheduled_time", msg)]) →
              PatientBookingRequest_create self now db
              = (Raise (ValidationError
                   (PatientBookingRequest_clean_fields self' db
                    ++ [("scheduled_time", msg)])), db)) as Hcreate.
    { intros msg Hclean.
      unfold PatientBookingRequest_create, PatientBookingRequest_save.
      fold self'. unfold PatientBookingRequest_full_clean.
      rewrite Hsame, Hclean. simpl.
      by destruct (PatientBookingRequest_clean_fields self' db). }
    assert (∀ d, br_doctor_id self = Some d → d ≠ 0 →
              Exists (occupies d (Aware (timestamp dt) LOCAL_TZ)) (appointments db) →
              PatientBookingRequest_clean self now db
              = Raise (ValidationError
                  [("scheduled_time", "This time is already allocated for this doctor.")]))
      as Hocc.
    { intros d Hd Hd0 Hocc. unfold PatientBookingRequest_clean.
      rewrite Ht, Hd, !_to_local_aware_Some. simpl.
      rewrite (decide_True (P := _ < _)) by (simpl; lia).
      by rewrite decide_True. }
    assert ((∀ d, br_doctor_id self = Some d → d ≠ 0 →
               ¬ Exists (occupies d (Aware (timestamp dt) LOCAL_TZ)) (appointments db)) →
            PatientBookingRequest_clean self now db
            = Raise (ValidationError
                [("scheduled_time", "Requested time is in the past.")])) as Hfree.
    { intros Hfree. unfold PatientBookingRequest_clean.
      rewrite Ht, !_to_local_aware_Some. simpl.
      rewrite decide_True by (simpl; lia).
      destruct (br_doctor_id self) as [d|] eqn:Hd; [|done].
      rewrite decide_False; [done|]. intros [Hd0 Hocc'].
      by apply (Hfree d). }
    split; [|split].
    + destruct (br_doctor_id self) as [d|] eqn:Hd.
      * destruct (decide (d ≠ 0 ∧ Exists (occupies d (Aware (timestamp dt) LOCAL_TZ))
                                    (appointments db))) as [[Hd0 Ho]|Hn].
        -- eexists. apply Hcreate. by apply (Hocc d).
        -- eexists. apply Hcreate, Hfree. intros d' [= <-] Hd0 Ho. by apply Hn.
      * eexists. apply Hcreate, Hfree. intros d' [=].
    + intros Hno. split; [by apply Hfree|].
      eexists. split; [apply Hcreate; by apply Hfree|].
      apply elem_of_app. right. by apply list_elem_of_singleton.
    + intros d Hd Hd0 Ho. split; [by apply (Hocc d)|].
      eexists. split; [apply Hcreate; by apply (Hocc d)|]. split.
      * apply elem_of_app. right. by apply list_elem_of_singleton.
      * intros [Hin|Hin%list_elem_of_singleton]%elem_of_app; [|done].
        apply PatientBookingRequest_clean_fields_codes in Hin. simpl in Hin.
        rewrite !elem_of_cons, elem_of_nil in Hin.
        by destruct Hin as [|[|[|[|]]]].
  - intros Hok errors. unfold PatientBookingRequest_clean.
    rewrite Ht, _to_local_aware_Some. simpl.
    rewrite decide_False by (simpl; lia).
    destruct (br_doctor_id self) as [d|]; [|done].
    case_decide; [|done]. simpl. intros [= <-].
    intros [=]%list_elem_of_singleton.
Qed.

(** *** Forms *)

(** C10. The form-layer checks look at every appointment of the doctor,
    whatever its status: the staff form refuses a time within one minute
    of any such appointment other than the one being edited, and the
    public form refuses the exact instant of any such appointment, a
    CANCELLED one included; whereas the model's own check lets a time
    through when the appointments at that instant are all CANCELLED. *)
Theorem form_checks_ignore_status r st db :
  r ∈ appointments db → scheduled_time r = Some st →
  (∀ instance_pk cleaned_time iqd_amount,
     pk r ≠ instance_pk →
     timestamp cleaned_time - MINUTE ≤ timestamp st ≤ timestamp cleaned_time + MINUTE →
     AppointmentForm_clean instance_pk (Some (doctor_id r)) (Some cleaned_time)
       iqd_amount db
     = Raise (ValidationError
         [("__all__", "At least a one-minute gap is required between appointments for the same doctor.")]))
  ∧ (∀ cleaned_time,
       timestamp cleaned_time = timestamp st →
       PatientBookingForm_clean (Some (doctor_id r)) (Some cleaned_time) db
       = Raise (ValidationError
           [("__all__", "This time is already allocated for this doctor.")]))
  ∧ (∀ self now,
       (timestamp <$> scheduled_time self) = Some (timestamp st) →
       doctor_id self = doctor_id r →
       now - PAST_MARGIN ≤ timestamp st →
       (∀ x, x ∈ appointments db → doctor_id x = doctor_id r →
             (timestamp <$> scheduled_time x) = Some (timestamp st) →
             status x = AppointmentStatus.CANCELLED) →
       Appointment_clean self now db = Ok tt).
Proof.
  intros Hr Hst. repeat split.
  - intros instance_pk cleaned_time iqd_amount Hpk Hwin.
    unfold AppointmentForm_clean. rewrite _to_local_aware_Some.
    rewrite decide_True; [done|]. apply Exists_exists. exists r.
    split; [done|]. split; [done|]. split; [|done].
    exists (timestamp st). by rewrite Hst.
  - intros cleaned_time Hsame.
    unfold PatientBookingForm_clean. rewrite _to_local_aware_Some.
    rewrite decide_True; [done|]. apply Exists_exists. exists r.
    split; [done|]. split; [done|]. rewrite Hst. simpl. by rewrite Hsame.
  - intros self now Hself Hd Hfuture Hfree. unfold Appointment_clean.
    destruct (scheduled_time self) as [dt|]; [|done].
    rewrite _to_local_aware_Some. simpl in *. injection Hself as Hself.
    rewrite decide_False by lia.
    rewrite decide_False; [done|].
    intros (x & Hx & _ & Hdx & Htx & Hax)%Exists_exists. simpl in *.
    rewrite Hself, Hd in *. by specialize (Hfree x Hx Hdx Htx).
Qed.

(** *** Lifecycle *)

Lemma earliest_elem rows y : earliest rows = Some y → y ∈ rows.
Proof.
  revert y. unfold earliest. induction rows as [|z l IH]; [done|].
  simpl. intros y. destruct (foldr _ None l) as [b|].
  - case_decide; intros [= <-]; [by left|right; by apply IH].
  - intros [= <-]. by left.
Qed.

Lemma pk_unique_inj rows x y :
  pk_unique rows → x ∈ rows → y ∈ rows → pk x = pk y → x = y.
Proof.
  unfold pk_unique. intros Hnd Hx Hy Hxy.
  assert (NoDup (omap (λ r, Some (pk r)) rows)) as Hnd'.
  { clear Hx Hy. induction rows as [|z rows IH]; [constructor|]. csimpl.
    apply NoDup_cons in Hnd as [Hz Hnd]. apply NoDup_cons. split; [|by apply IH].
    intros (w & Hw & [= Heq])%list_elem_of_omap. apply Hz.
    rewrite <-Heq. by apply list_elem_of_fmap_2. }
  apply (NoDup_omap_inj (λ r, Some (pk r)) rows x y (pk x) Hnd'); [done..|].
  by rewrite Hxy.
Qed.

Lemma get_appointment_elem k db x :
  pk_unique (appointments db) → x ∈ appointments db → pk x = Some k →
  get_appointment k db = Some x.
Proof.
  intros Hnd Hx Hk. unfold get_appointment.
  destruct (filter (λ r, pk r = Some k) (appointments db)) as [|y l] eqn:Hf.
  - by destruct (filter_nil_not_elem_of _ _ x Hf Hk).
  - simpl. f_equal.
    assert (y ∈ filter (λ r, pk r = Some k) (appointments db)) as Hy
      by (rewrite Hf; by left).
    apply list_elem_of_filter in Hy as [Hky Hy].
    apply (pk_unique_inj (appointments db)); [done..|congruence].
Qed.

Lemma get_appointment_other k k2 g db :
  (∀ x, pk (g x) = pk x) → k ≠ k2 →
  get_appointment k
    (set_appointments ((λ x, if decide (pk x = Some k2) then g x else x)
                         <$> appointments db) db)
  = get_appointment k db.
Proof.
  intros Hg Hne. unfold get_appointment. simpl.
  rewrite head_filter_fmap_pk by (intros x; by case_decide).
  destruct (head (filter (λ x, pk x = Some k) (appointments db))) as [x|] eqn:Hx;
    [|done].
  simpl. apply head_Some_elem_of, list_elem_of_filter in Hx as [Hx _].
  rewrite decide_False; [done|]. rewrite Hx. by intros [= ->].
Qed.

(** A save that writes only the status of row [k2] leaves every other
    row as it is, and gives row [k2] the status of the instance. *)
Lemma status_only_save a k2 r2 now db a' db' k r :
  pk a = Some k2 → get_appointment k2 db = Some r2 →
  Appointment_save a (Some ["status"]) now db = Ok (a', db') →
  get_appointment k db = Some r →
  ∃ r', get_appointment k db' = Some r'
        ∧ ((k ≠ k2 ∧ r' = r) ∨ (k = k2 ∧ status r' = status a)).
Proof.
  intros Hpk Hget2 Hs Hget.
  destruct (Appointment_save_update _ _ _ _ _ _ _ _ Hpk Hget2 Hs)
    as (_ & _ & Hst & [[[=] _] | ->]).
  destruct (decide (k = k2)) as [->|Hne].
  - eexists. split.
    + by apply (get_appointment_updated k2 (write_fields (Some ["status"]) a')).
    + right. split; [done|]. by rewrite <-Hst.
  - exists r. split; [|by left].
    by rewrite (get_appointment_other k k2 (write_fields (Some ["status"]) a')).
Qed.

End Properties.

(** ** The properties at work on the example clinic *)

Section Cases.

Import Examples.

#[local] Existing Instance baghdad.

Lemma reachable_booked : reachable [1; 2] [10; 11] booked.
Proof.
  assert (booked = run (op_save (booking 10 1 9 0) None) (clock 8 0) opening)
    as -> by (vm_compute; reflexivity).
  apply reachable_run, reachable_initial.
Qed.

Lemma reachable_cancelled : reachable [1; 2] [10; 11] cancelled.
Proof.
  assert (cancelled = run (op_cancel 1 None "" "secretary") (clock 8 0) booked)
    as -> by (vm_compute; reflexivity).
  apply reachable_run, reachable_booked.
Qed.

Lemma reachable_rebooked : reachable [1; 2] [10; 11] rebooked.
Proof.
  assert (rebooked = run (op_save (booking 11 1 9 30) None) (clock 8 0) cancelled)
    as -> by (vm_compute; reflexivity).
  apply reachable_run, reachable_cancelled.
Qed.

Lemma reachable_booked_twice : reachable [1; 2] [10; 11] booked_twice.
Proof.
  assert (booked_twice = run (op_save (booking 11 1 9 30) None) (clock 8 0) booked)
    as -> by (vm_compute; reflexivity).
  apply reachable_run, reachable_booked.
Qed.

Lemma reachable_first_cancelled : reachable [1; 2] [10; 11] first_cancelled.
Proof.
  assert (first_cancelled
          = run (op_cancel 1 None "" "secretary") (clock 8 0)
              (run (op_save (booking 11 1 9 30) None) (clock 8 0) booked))
    as -> by (vm_compute; reflexivity).
  apply reachable_run, reachable_run, reachable_booked.
Qed.

Lemma reachable_called : reachable [1; 2] [10; 11] called.
Proof.
  assert (called = run (op_call_next 1 None) (clock 8 0) booked)
    as -> by (vm_compute; reflexivity).
  apply reachable_run, reachable_booked.
Qed.



(** C1, as stated, fails: the 09:00 booking of doctor 1 gets number 1
    and is cancelled; the 09:30 booking made afterwards for the same
    doctor and day gets number 1 again, the cancelled row still holding
    it. *)
Lemma cancelled_number_reused :
  reachable [1; 2] [10; 11] rebooked
  ∧ (∃ b, Appointment_save (booking 11 1 9 30) None (clock 8 0) cancelled
          = Ok (b, rebooked)
          ∧ queue_number b = Some 1%N)
  ∧ (∃ a, get_appointment 1 rebooked = Some a
          ∧ status a = AppointmentStatus.CANCELLED
          ∧ doctor_id a = 1 ∧ scheduled_day a = Some 20098
          ∧ queue_number a = Some 1%N)
  ∧ all_numbers 1 20098 rebooked = [1%N; 1%N]
  ∧ ¬ NoDup (all_numbers 1 20098 rebooked).
Proof.
  split; [apply reachable_rebooked|].
  split; [eexists; split; vm_compute; reflexivity|].
  split; [eexists; repeat split; vm_compute; reflexivity|].
  split; [vm_compute; reflexivity|].
  assert (all_numbers 1 20098 rebooked = [1%N; 1%N]) as -> by (vm_compute; reflexivity).
  intros [Hn _]%NoDup_cons. apply Hn. by left.
Qed.

(** A second booking on the day of an active one numbered 1 gets 2. *)
Lemma create_number_above_active_witness :
  ∃ a' db',
    Appointment_save (booking 11 1 9 30) None (clock 8 0) booked = Ok (a', db')
    ∧ queue_number a' = Some 2%N
    ∧ ∀ r n, r ∈ appointments booked → doctor_id r = 1 →
        scheduled_day r = Some 20098 → active r → queue_number r = Some n →
        (n < 2)%N.
Proof.
  assert (∃ p, Appointment_save (booking 11 1 9 30) None (clock 8 0) booked = Ok p
               ∧ queue_number p.1 = Some 2%N)
    as ([a' db'] & Hs & Hq) by (eexists; split; vm_compute; reflexivity).
  exists a', db'. split; [exact Hs|]. split; [exact Hq|].
  exact (proj1 (create_number_above_active (booking 11 1 9 30) (at_local 9 30)
                  (clock 8 0) booked a' db' 2%N eq_refl eq_refl Hs Hq)).
Defined.


(** C4, as stated, fails: after the first of two bookings is cancelled the
    active numbers of the partition are 2 alone; they do not start at 1. *)
Lemma active_numbers_need_not_start_at_1 :
  reachable [1; 2] [10; 11] first_cancelled
  ∧ active_numbers 1 20098 first_cancelled = [2%N]
  ∧ 1%N ∉ active_numbers 1 20098 first_cancelled.
Proof.
  split; [apply reachable_first_cancelled|].
  split; [vm_compute; reflexivity|].
  assert (active_numbers 1 20098 first_cancelled = [2%N]) as ->
    by (vm_compute; reflexivity).
  by intros [=]%list_elem_of_singleton.
Qed.

(** Two bookings of doctor 1 hold the numbers 1 and 2 of the day; doctor
    2 has none yet, and the first booking gets number 1. *)
Lemma reachable_active_numbers_distinct_witness :
  active_numbers 1 20098 booked_twice = [1%N; 2%N]
  ∧ NoDup (active_numbers 1 20098 booked_twice)
  ∧ active_numbers 2 20098 booked_twice = []
  ∧ ∃ a' db',
      Appointment_save (booking 10 2 9 0) None (clock 8 0) booked_twice = Ok (a', db')
      ∧ queue_number a' = Some 1%N.
Proof.
  assert (active_numbers 2 20098 booked_twice = []) as Hnone
    by (vm_compute; reflexivity).
  assert (∃ p, Appointment_save (booking 10 2 9 0) None (clock 8 0) booked_twice = Ok p)
    as ([a' db'] & Hs) by (eexists; vm_compute; reflexivity).
  split; [vm_compute; reflexivity|]. split; [|split; [exact Hnone|]].
  - exact (proj1 (reachable_active_numbers_distinct [1; 2] [10; 11] booked_twice
                    1 20098 reachable_booked_twice)).
  - exists a', db'. split; [exact Hs|].
    exact (proj2 (reachable_active_numbers_distinct [1; 2] [10; 11] booked_twice
                    2 20098 reachable_booked_twice)
             (booking 10 2 9 0) (at_local 9 0) (clock 8 0) a' db'
             eq_refl eq_refl eq_refl eq_refl Hnone Hs).
Defined.


(** Moving the 09:00 booking to the next day through the edit view. *)
Lemma update_keeps_queue_number_witness :
  ∃ r', get_appointment 1
          (edit_appointment POST
             (mkAppointmentFormData (Some 10) (Some 1)
                (Some (Aware (clock 9 0 + DAY) (180 * MINUTE)))
                (Some AppointmentStatus.PENDING) None "moved")
             1 (clock 8 0) booked).2
        = Some r'
        ∧ scheduled_day r' = Some 20099
        ∧ queue_number r' = Some 1%N.
Proof.
  assert (∃ r, get_appointment 1 booked = Some r ∧ queue_number r = Some 1%N)
    as (r & Hget & Hq) by (eexists; split; vm_compute; reflexivity).
  destruct (proj2 (update_keeps_queue_number 1 r booked Hget) POST
              (mkAppointmentFormData (Some 10) (Some 1)
                 (Some (Aware (clock 9 0 + DAY) (180 * MINUTE)))
                 (Some AppointmentStatus.PENDING) None "moved") (clock 8 0))
    as (r' & Hget' & Hq').
  exists r'. split; [exact Hget'|]. split; [|by rewrite Hq'].
  vm_compute in Hget'. by injection Hget' as <-.
Defined.


(** C8, as stated, fails: cancel is not refused on an appointment that is
    already CANCELLED; it goes through again and appends its note. *)
Lemma cancel_allowed_from_cancelled :
  reachable [1; 2] [10; 11] cancelled
  ∧ (status <$> get_appointment 1 cancelled) = Some AppointmentStatus.CANCELLED
  ∧ (notes <$> get_appointment 1 cancelled) = Some None
  ∧ (cancel_appointment POST (Some "again") "" "secretary" 1 (clock 8 0) cancelled).1
    = redirect "appointments:appointment_list"
        (Some (success, "✅ Appointment cancelled successfully."))
  ∧ (notes <$> get_appointment 1
       (cancel_appointment POST (Some "again") "" "secretary" 1 (clock 8 0) cancelled).2)
    = Some (Some "None
[Cancelled 2025-01-10 08:00 by secretary] again").
Proof.
  split; [apply reachable_cancelled|]. repeat split; vm_compute; reflexivity.
Qed.

(** Cancelling the 09:00 booking with a reason: the reason is stripped
    and its line is appended to the notes, which were None.  A reason
    that is a no-break space (U+00A0) alone is no reason: the appointment
    is cancelled and its notes stay as they were. *)
Lemma cancel_soft_state_change_witness :
  ((cancel_appointment POST (Some " no show ") "" "secretary" 1 (clock 8 0) booked).1
     = redirect "appointments:appointment_list"
         (Some (success, "✅ Appointment cancelled successfully."))
   ∧ ∃ r', get_appointment 1
             (cancel_appointment POST (Some " no show ") "" "secretary" 1
                (clock 8 0) booked).2
           = Some r'
           ∧ status r' = AppointmentStatus.CANCELLED
           ∧ queue_number r' = Some 1%N
           ∧ notes r' = Some "None
[Cancelled 2025-01-10 08:00 by secretary] no show")
  ∧ ∃ r', get_appointment 1
            (cancel_appointment POST
               (Some (String (ascii_of_nat 194) (String (ascii_of_nat 160) "")))
               "" "secretary" 1 (clock 8 0) booked).2
          = Some r'
          ∧ status r' = AppointmentStatus.CANCELLED
          ∧ notes r' = None.
Proof.
  assert (∃ r, get_appointment 1 booked = Some r
               ∧ status r ≠ AppointmentStatus.COMPLETED
               ∧ queue_number r = Some 1%N ∧ notes r = None)
    as (r & Hget & Hst & Hq & Hnotes) by (eexists; repeat split; vm_compute; done).
  assert (constraints booked) as Hc by compute_done.
  assert (stripped_reason (Some " no show ") ≠ "") as Hreason
    by (vm_compute; discriminate).
  assert (stripped_reason
            (Some (String (ascii_of_nat 194) (String (ascii_of_nat 160) ""))) = "")
    as Hblank by (vm_compute; reflexivity).
  split.
  - destruct (proj2 (cancel_soft_state_change booked 1 r (Some " no show ") ""
                       "secretary" (clock 8 0) Hc Hget) Hst)
      as (Hresp & _ & _ & r' & Hget' & Hst' & Hsame & _ & Hnote).
    split; [exact Hresp|]. exists r'. split; [exact Hget'|]. split; [exact Hst'|].
    split; [rewrite <-Hq, <-Hsame; reflexivity|].
    rewrite (Hnote Hreason), Hnotes. vm_compute. reflexivity.
  - destruct (proj2 (cancel_soft_state_change booked 1 r
                       (Some (String (ascii_of_nat 194) (String (ascii_of_nat 160) "")))
                       "" "secretary" (clock 8 0) Hc Hget) Hst)
      as (_ & _ & _ & r' & Hget' & Hst' & _ & Hnone & _).
    exists r'. split; [exact Hget'|]. split; [exact Hst'|].
    rewrite (Hnone Hblank). exact Hnotes.
Defined.

(** C9, as stated, fails: at 10:00 a request for 09:00, the instant the
    active booking of doctor 1 holds, is refused with the
    already-allocated message; the past-time message is not in the
    error. *)
Lemma past_request_reported_as_allocated :
  reachable [1; 2] [10; 11] booked
  ∧ br_scheduled_time (request 9 0) = Some (at_local 9 0)
  ∧ timestamp (at_local 9 0) < clock 10 0 - PAST_MARGIN
  ∧ PatientBookingRequest_create (request 9 0) (clock 10 0) booked
    = (Raise (ValidationError
         [("scheduled_time", "This time is already allocated for this doctor.")]),
       booked).
Proof.
  split; [apply reachable_booked|]. repeat split; vm_compute; reflexivity.
Qed.

(** At 10:00, a request for 09:00: with no appointment in the store the
    error is the past-time one; with the 09:00 booking of doctor 1 in the
    store it is the already-allocated one, and the past-time message is
    gone. *)
Lemma booking_request_past_time_witness :
  timestamp (at_local 9 0) < clock 10 0 - PAST_MARGIN
  ∧ PatientBookingRequest_clean (request 9 0) (clock 10 0) opening
    = Raise (ValidationError [("scheduled_time", "Requested time is in the past.")])
  ∧ PatientBookingRequest_clean (request 9 0) (clock 10 0) booked
    = Raise (ValidationError
        [("scheduled_time", "This time is already allocated for this doctor.")])
  ∧ ∃ errors,
      PatientBookingRequest_create (request 9 0) (clock 10 0) booked
        = (Raise (ValidationError errors), booked)
      ∧ ("scheduled_time", "Requested time is in the past.") ∉ errors.
Proof.
  assert (timestamp (at_local 9 0) < clock 10 0 - PAST_MARGIN) as Hpast
    by (vm_compute; reflexivity).
  assert (∀ d, br_doctor_id (request 9 0) = Some d → d ≠ 0 →
            ¬ Exists (occupies d (Aware (timestamp (at_local 9 0)) LOCAL_TZ))
                (appointments opening)) as Hfree.
  { intros d _ _ Ho. apply Exists_exists in Ho as (x & Hx & _).
    vm_compute in Hx. by apply elem_of_nil in Hx. }
  assert (Exists (occupies 1 (Aware (timestamp (at_local 9 0)) LOCAL_TZ))
            (appointments booked)) as Hocc by compute_done.
  split; [exact Hpast|]. split; [|split].
  - exact (proj1 (proj1 (proj2 (proj1 (booking_request_past_time (request 9 0)
             (at_local 9 0) (clock 10 0) opening eq_refl) Hpast)) Hfree)).
  - exact (proj1 (proj2 (proj2 (proj1 (booking_request_past_time (request 9 0)
             (at_local 9 0) (clock 10 0) booked eq_refl) Hpast))
             1 eq_refl ltac:(discriminate) Hocc)).
  - destruct (proj2 (proj2 (proj2 (proj1 (booking_request_past_time (request 9 0)
                (at_local 9 0) (clock 10 0) booked eq_refl) Hpast))
                1 eq_refl ltac:(discriminate) Hocc))
      as (errors & Hc & _ & Hnot).
    exists errors. split; [exact Hc|exact Hnot].
Defined.

(** The cancelled 09:00 appointment still blocks 09:01 on the staff form
    and 09:00 on the public form, and does not block the model. *)
Lemma form_checks_ignore_status_witness :
  (∃ r, get_appointment 1 cancelled = Some r
        ∧ status r = AppointmentStatus.CANCELLED)
  ∧ AppointmentForm_clean None (Some 1) (Some (at_local 9 1)) None cancelled
    = Raise (ValidationError
        [("__all__", "At least a one-minute gap is required between appointments for the same doctor.")])
  ∧ PatientBookingForm_clean (Some 1) (Some (at_local 9 0)) cancelled
    = Raise (ValidationError
        [("__all__", "This time is already allocated for this doctor.")])
  ∧ Appointment_clean (booking 11 1 9 0) (clock 8 0) cancelled = Ok tt.
Proof.
  assert (∃ r, get_appointment 1 cancelled = Some r
               ∧ status r = AppointmentStatus.CANCELLED
               ∧ scheduled_time r = Some (from_db (at_local 9 0))
               ∧ doctor_id r = 1
               ∧ pk r = Some 1
               ∧ appointments cancelled = [r])
    as (r & Hget & Hst & Ht & Hd & Hpk & Hrows)
    by (eexists; repeat split; vm_compute; reflexivity).
  split; [eauto|].
  assert (r ∈ appointments cancelled) as Hr by (rewrite Hrows; by left).
  destruct (form_checks_ignore_status r (from_db (at_local 9 0)) cancelled Hr Ht)
    as (Hstaff & Hpublic & Hmodel).
  specialize (Hstaff None (at_local 9 1) None).
  specialize (Hpublic (at_local 9 0)).
  specialize (Hmodel (booking 11 1 9 0) (clock 8 0)).
  rewrite Hd in Hstaff, Hpublic, Hmodel.
  split; [|split].
  - apply Hstaff; [by rewrite Hpk|]. vm_compute. split; discriminate.
  - by apply Hpublic.
  - apply Hmodel; [reflexivity|reflexivity| |].
    + vm_compute. discriminate.
    + intros x Hx _ _. rewrite Hrows in Hx.
      apply list_elem_of_singleton in Hx. by subst x.
Defined.

End Cases.


(** ** Properties of the desk *)

Section MoreProperties.

Context {platform : Platform} {registry : Registry}.

(** *** What [save] writes *)

Lemma write_fields_all a r : write_fields None a r = set_pk (pk r) (to_row a).
Proof. reflexivity. Qed.

Lemma write_fields_status a r :
  write_fields (Some ["status"]) a r = set_status (status a) r.
Proof. reflexivity. Qed.


(** *** The store stays well formed *)

Lemma lookup_date_normal t :
  lookup_date <$> _to_local_aware t = lookup_date <$> t.
Proof. by destruct t as [[]|]. Qed.

Lemma lookup_date_stored t :
  lookup_date <$> (from_db <$> _to_local_aware t) = lookup_date <$> t.
Proof. by destruct t as [[]|]. Qed.

Lemma shape_map g db :
  keyed db → day_of_time db → rows_valid db →
  (∀ x, x ∈ appointments db →
     pk (g x) = pk x
     ∧ (scheduled_day x = lookup_date <$> scheduled_time x →
        scheduled_day (g x) = lookup_date <$> scheduled_time (g x))
     ∧ (fields_valid x db → fields_valid (g x) db)) →
  keyed (set_appointments (g <$> appointments db) db)
  ∧ day_of_time (set_appointments (g <$> appointments db) db)
  ∧ rows_valid (set_appointments (g <$> appointments db) db).
Proof.
  unfold keyed, day_of_time, rows_valid. simpl.
  rewrite !Forall_fmap, !Forall_forall. intros Hk Hd Hv Hg.
  split; [|split]; intros x Hx; destruct (Hg x Hx) as (Hpk & Hday & Hval); simpl.
  - rewrite Hpk. by apply Hk.
  - by apply Hday, Hd.
  - by apply Hval, Hv.
Qed.

Lemma shape_insert a now db a' db' :
  keyed db → day_of_time db → rows_valid db →
  pk a = None → scheduled_day a = lookup_date <$> scheduled_time a →
  fields_valid a db →
  insert_row a now db = Ok (a', db') →
  keyed db' ∧ day_of_time db' ∧ rows_valid db'.
Proof.
  unfold keyed, day_of_time, rows_valid. intros Hk Hd Hv Hpk Hday Hval.
  unfold insert_row. rewrite Hpk. intros ([] & _ & [= <- <-])%bind_Ok. simpl.
  rewrite !Forall_app, !Forall_singleton.
  split; [split|split; [split|split]]; simpl.
  - eapply Forall_impl; [exact Hk|]. intros x. simpl. destruct (pk x); [lia|done].
  - lia.
  - exact Hd.
  - rewrite Hday. by destruct (scheduled_time a).
  - exact Hv.
  - exact Hval.
Qed.

Lemma Appointment_save_shape a uf now db a' db' :
  keyed db → day_of_time db → rows_valid db →
  (pk a = None ∧ uf = None)
  ∨ (∃ k r, pk a = Some k ∧ get_appointment k db = Some r
            ∧ (uf = None ∨ uf = Some ["status"])) →
  Appointment_save a uf now db = Ok (a', db') →
  keyed db' ∧ day_of_time db' ∧ rows_valid db'.
Proof.
  intros Hk Hd Hv [[Hpk ->]|(k & r & Hpk & Hget & Huf)] Hs.
  - destruct (scheduled_time a) as [dt|] eqn:Ht.
    + destruct (created_success a dt now db a' db' Hpk Ht Hs) as (_ & Hc & Hi).
      apply Appointment_full_clean_Ok in Hc as [[Hval _] _].
      by eapply (shape_insert (created a dt db)).
    + rewrite Appointment_save_unnumbered in Hs by auto.
      apply bind_Ok in Hs as ([] & Hc & Hm).
      apply Appointment_full_clean_Ok in Hc as [[Hval _] _].
      unfold Model_save in Hm. simpl in Hm. rewrite Hpk in Hm.
      eapply (shape_insert (normalised a)); try done.
      simpl. by rewrite lookup_date_normal.
  - rewrite Appointment_save_unnumbered in Hs by (left; congruence).
    apply bind_Ok in Hs as ([] & Hc & Hm).
    apply Appointment_full_clean_Ok in Hc as [[Hval _] _].
    unfold Model_save in Hm. simpl in Hm. rewrite Hpk, Hget in Hm.
    destruct Huf as [-> | ->].
    + apply bind_Ok in Hm as (db1 & Hu & [= <- <-]).
      apply update_row_Ok in Hu as [-> _]. apply shape_map; [done..|].
      intros x Hx. case_decide; [|done]. rewrite write_fields_all.
      split; [done|]. split; [|done]. intros _. simpl.
      by rewrite lookup_date_stored.
    + apply bind_Ok in Hm as (db1 & Hu & [= <- <-]).
      apply update_row_Ok in Hu as [-> _]. apply shape_map; [done..|].
      intros x Hx. case_decide; [|done]. rewrite write_fields_status. done.
Qed.

(** The appointment call-next settles on is a stored row. *)
Lemma call_next_choice appt_id doctor today db x :
  match appt_id with
  | Some (Number i) =>
    let nxt := head (filter (λ r, pk r = Some i ∧ doctor_id r = doctor)
                       (appointments db)) in
    Ok (if decide (not_callable today nxt) then earliest (base_qs doctor today db)
        else nxt)
  | Some (NotANumber shown) =>
    Raise (ValueError ("Field 'id' expected a number but got " +:+ shown +:+ "."))
  | None => Ok (earliest (base_qs doctor today db))
  end = Ok (Some x) →
  x ∈ appointments db ∧ status x = AppointmentStatus.PENDING.
Proof.
  assert (∀ y, earliest (base_qs doctor today db) = Some y →
               y ∈ appointments db ∧ status y = AppointmentStatus.PENDING) as He.
  { intros y Hin%earliest_elem.
    apply list_elem_of_filter in Hin as [(_ & ? & _) ?]. done. }
  destruct appt_id as [[i|shown]|]; [|done|by intros [= ?%He]]. simpl.
  case_decide as Hcall; [by intros [= ?%He]|].
  intros [= Hnxt]. split.
  - apply head_Some_elem_of, list_elem_of_filter in Hnxt. apply Hnxt.
  - destruct (decide (status x = AppointmentStatus.PENDING)); [done|].
    destruct Hcall. rewrite Hnxt. by left.
Qed.

Lemma run_well_formed op now db :
  through_a_view op → well_formed db → well_formed (run op now db).
Proof.
  intros Hop (Hc & Hk & Hd & Hv).
  split; [by apply run_constraints|].
  destruct op as [| data | k data | k reason u1 u2 | k | doctor appt_id | k];
    [done|..]; simpl.
  - unfold create_appointment.
    destruct (AppointmentForm_full_clean _ _ _ _) as [appt|e] eqn:Hf; [|done].
    apply AppointmentForm_full_clean_keeps in Hf as [Hpk _].
    destruct (Appointment_save _ _ _ _) as [[a' db']|[]] eqn:Hs; try done.
    simpl. eapply Appointment_save_shape; [done..| |exact Hs]. by left.
  - unfold edit_appointment.
    destruct (get_appointment k db) as [r|] eqn:Hget; [|done].
    destruct (AppointmentForm_full_clean _ _ _ _) as [appt|e] eqn:Hf; [|done].
    apply AppointmentForm_full_clean_keeps in Hf as [Hpk _].
    destruct (get_appointment_Some _ _ _ Hget) as [Hkr _].
    destruct (Appointment_save _ _ _ _) as [[a' db']|[]] eqn:Hs; try done.
    simpl. eapply Appointment_save_shape; [done..| |exact Hs].
    right. exists k, r. simpl. rewrite Hpk. auto.
  - destruct (get_appointment k db) as [r|] eqn:Hget;
      [|unfold cancel_appointment; by rewrite Hget].
    destruct (decide (status r = AppointmentStatus.COMPLETED)) as [Hst|Hst].
    { unfold cancel_appointment. by rewrite Hget, decide_True. }
    destruct (cancel_appointment_POST db k r reason u1 u2 now)
      as (upd & Hupd & -> & _); [done..|]. simpl.
    apply shape_map; [done..|]. intros x Hx. case_decide; [|done].
    destruct (Hupd x) as [n ->]. done.
  - unfold confirm_appointment.
    destruct (get_appointment k db) as [r|] eqn:Hget; [|done].
    case_decide; [done|].
    destruct (get_appointment_Some _ _ _ Hget) as [Hkr _].
    destruct (Appointment_save _ _ _ _) as [[a' db']|e] eqn:Hs; [|done].
    simpl. eapply Appointment_save_shape; [done..| |exact Hs].
    right. exists k, r. auto.
  - unfold call_next_api.
    match goal with
    | |- context [match ?n with Ok _ => _ | Raise _ => _ end] =>
      destruct n as [[x|]|] eqn:Hnxt; [|done..]
    end.
    apply call_next_choice in Hnxt as [Hx _].
    destruct (keyed_elem _ _ Hk Hx) as (kx & Hkx & _).
    pose proof (get_appointment_elem kx db x (proj1 Hc) Hx Hkx) as Hgetx.
    destruct (Appointment_save _ _ _ _) as [[a' db']|e] eqn:Hs; [|done].
    simpl. eapply Appointment_save_shape; [done..| |exact Hs].
    right. exists kx, x. auto.
  - unfold delete_appointment.
    destruct (get_appointment k db); [|done]. simpl.
    unfold keyed, day_of_time, rows_valid in *. simpl.
    split; [|split]; apply Forall_forall; intros x [_ Hx]%list_elem_of_filter;
      revert x Hx; by apply Forall_forall.
Qed.


(** X1. The store is well formed to begin with, and every operation a
    view performs keeps it so: the storage constraints hold, every row has
    a key below the sequence, the day column of every row is the local
    date of its time, and every row references an existing patient and
    doctor and carries an amount the validators accept. *)
Theorem views_keep_store_well_formed ds ps :
  well_formed (initial ds ps)
  ∧ ∀ op now db, through_a_view op → well_formed db → well_formed (run op now db).
Proof.
  split; [by repeat split; constructor|]. apply run_well_formed.
Qed.

(** *** Saving an appointment whose time has passed *)

Lemma Appointment_clean_past self dt now db :
  scheduled_time self = Some dt → timestamp dt < now - PAST_MARGIN →
  Appointment_clean self now db
  = Raise (ValidationError
      [("scheduled_time", "Cannot book an appointment in the past.")]).
Proof.
  intros Ht Hpast. unfold Appointment_clean.
  rewrite Ht, _to_local_aware_Some. rewrite decide_True; [done|]. simpl. lia.
Qed.

Lemma Appointment_full_clean_past self dt now db :
  scheduled_time self = Some dt → timestamp dt < now - PAST_MARGIN →
  ∃ errors,
    Appointment_full_clean self now db = Raise (ValidationError errors)
    ∧ ("scheduled_time", "Cannot book an appointment in the past.") ∈ errors.
Proof.
  intros Ht Hpast. unfold Appointment_full_clean.
  rewrite (Appointment_clean_past self dt) by done.
  set (errors := Appointment_clean_fields self db
                 ++ [("scheduled_time", "Cannot book an appointment in the past.")]).
  exists (errors ++ Appointment_validate_constraints self (errors.*1) db).
  split.
  - unfold errors. by destruct (Appointment_clean_fields self db).
  - apply elem_of_app. left. apply elem_of_app. right.
    by apply list_elem_of_singleton.
Qed.

Lemma Appointment_save_past a k dt uf now db :
  pk a = Some k → scheduled_time a = Some dt → timestamp dt < now - PAST_MARGIN →
  ∃ errors,
    Appointment_save a uf now db = Raise (ValidationError errors)
    ∧ ("scheduled_time", "Cannot book an appointment in the past.") ∈ errors.
Proof.
  intros Hpk Ht Hpast.
  rewrite Appointment_save_unnumbered by (left; congruence).
  destruct (Appointment_full_clean_past (normalised a) (Aware (timestamp dt) LOCAL_TZ)
              now db) as (errors & -> & Hin); [|done|by eauto].
  simpl. by rewrite Ht, _to_local_aware_Some.
Qed.

(** X2. [save] validates the time on every update as well: saving a stored
    appointment whose time lies more than the margin before now raises the
    model's past-time error, whatever fields are written.  So confirm and
    call-next, which go through [save], do not change such an appointment:
    the error reaches the caller and the store is left as it was. *)
Theorem overdue_appointment_not_saved db k r dt now :
  get_appointment k db = Some r →
  scheduled_time r = Some dt → timestamp dt < now - PAST_MARGIN →
  (∀ a uf, pk a = Some k → scheduled_time a = Some dt →
     ∃ errors,
       Appointment_save a uf now db = Raise (ValidationError errors)
       ∧ ("scheduled_time", "Cannot book an appointment in the past.") ∈ errors)
  ∧ (status r ≠ AppointmentStatus.CANCELLED →
     ∃ errors,
       confirm_appointment POST k now db = (ServerError (ValidationError errors), db)
       ∧ ("scheduled_time", "Cannot book an appointment in the past.") ∈ errors)
  ∧ (∀ doctor,
       earliest (base_qs doctor (localdate now) db) = Some r →
       ∃ errors,
         call_next_api POST None doctor now db
           = (ServerError (ValidationError errors), db)
         ∧ ("scheduled_time", "Cannot book an appointment in the past.") ∈ errors).
Proof.
  intros Hget Ht Hpast. destruct (get_appointment_Some _ _ _ Hget) as [Hk _].
  split; [|split].
  - intros a uf Hpk Hta. by apply (Appointment_save_past a k dt).
  - intros Hst. unfold confirm_appointment. rewrite Hget, decide_False by done.
    destruct (Appointment_save_past (set_status AppointmentStatus.PENDING r) k dt
                (Some ["status"]) now db) as (errors & -> & Hin); [done..|].
    eauto.
  - intros doctor He. unfold call_next_api. rewrite He.
    destruct (Appointment_save_past (set_status AppointmentStatus.COMPLETED r) k dt
                (Some ["status"]) now db) as (errors & -> & Hin); [done..|].
    eauto.
Qed.

(** *** Completing the head of the queue *)

Lemma omap_fmap_sublist_on {A B} (f : A -> option B) (g : A -> A) l :
  (∀ x, x ∈ l → f (g x) = f x ∨ f (g x) = None) →
  omap f (g <$> l) `sublist_of` omap f l.
Proof.
  induction l as [|x l IH]; [done|]. intros Hg. csimpl.
  assert (omap f (g <$> l) `sublist_of` omap f l) as Hl.
  { apply IH. intros y Hy. apply Hg. by right. }
  destruct (Hg x) as [->| ->]; [by left| |].
  - destruct (f x); [by apply sublist_skip|done].
  - destruct (f x); [by apply sublist_cons|done].
Qed.








(** *** Call-next when the queue of today is empty *)





(** A posted appointment id that is not a number: the lookup raises
    ValueError, which nothing in the view catches. *)
Lemma call_next_api_not_a_number shown doctor now db :
  call_next_api POST (Some (NotANumber shown)) doctor now db
  = (ServerError
       (ValueError ("Field 'id' expected a number but got " +:+ shown +:+ ".")),
     db).
Proof. reflexivity. Qed.

(** *** Working through the queue *)


Lemma filter_all {A} (P : A -> Prop) `{!∀ x, Decision (P x)} (l : list A) :
  (∀ x, x ∈ l → P x) → filter P l = l.
Proof.
  induction l as [|x l IH]; [done|]. intros Hl.
  rewrite filter_cons_True by (apply Hl; by left).
  f_equal. apply IH. intros y Hy. apply Hl. by right.
Qed.







(** *** What the forms let through *)

(** X5. Whatever the two forms accept, the models accept: a time that
    passes [clean_scheduled_time] and [clean] of the staff form passes
    [Appointment.clean] on an instance with that key, doctor and time; a
    time that passes the two checks of the public form passes
    [PatientBookingRequest.clean]. *)
Theorem form_checks_cover_model_checks dt aware now db :
  (∀ instance_pk d amount v self,
     AppointmentForm_clean_scheduled_time (Some dt) now = Ok (Some aware) →
     AppointmentForm_clean instance_pk (Some d) (Some aware) amount db = Ok v →
     pk self = instance_pk → doctor_id self = d → scheduled_time self = Some aware →
     Appointment_clean self now db = Ok tt)
  ∧ (∀ d self,
       PatientBookingForm_clean_scheduled_time (Some dt) now = Ok (Some aware) →
       PatientBookingForm_clean (Some d) (Some aware) db = Ok tt →
       br_doctor_id self = Some d → br_scheduled_time self = Some aware →
       PatientBookingRequest_clean self now db = Ok tt).
Proof.
  split.
  - intros instance_pk d amount v self Htime Hform Hpk Hd Hself.
    unfold AppointmentForm_clean_scheduled_time in Htime.
    rewrite _to_local_aware_Some in Htime. case_decide as Hpast; [done|].
    injection Htime as <-.
    unfold AppointmentForm_clean in Hform. rewrite _to_local_aware_Some in Hform.
    case_decide as Hover; [done|].
    unfold Appointment_clean. rewrite Hself, _to_local_aware_Some.
    rewrite decide_False by done.
    rewrite decide_False; [done|].
    intros (x & Hx & Hpx & Hdx & Htx & _)%Exists_exists. apply Hover.
    apply Exists_exists. exists x. split; [done|].
    split; [congruence|]. split; [|congruence].
    exists (timestamp dt). split; [exact Htx|]. simpl. unfold MINUTE. lia.
  - intros d self Htime Hform Hd Hself.
    unfold PatientBookingForm_clean_scheduled_time in Htime.
    rewrite _to_local_aware_Some in Htime. case_decide as Hpast; [done|].
    injection Htime as <-.
    unfold PatientBookingForm_clean in Hform. rewrite _to_local_aware_Some in Hform.
    case_decide as Hover; [done|].
    unfold PatientBookingRequest_clean. rewrite Hd, Hself, !_to_local_aware_Some.
    destruct (decide (d ≠ 0 ∧ _)) as [[_ Hocc]|_].
    + destruct Hover. apply Exists_exists in Hocc as (x & Hx & Hdx & Htx & _).
      apply Exists_exists. by exists x.
    + by rewrite decide_False by done.
Qed.

(** Case analysis on what is left of a form validation. *)
Ltac form_cases H :=
  simpl in H;
  repeat match type of H with
  | (let '(_, _) := ?x in _) = _ => destruct x
  | match ?x with _ => _ end = _ => destruct x
  end.

(** What a valid staff form holds, and the instance it builds. *)
Lemma AppointmentForm_full_clean_Ok instance data now db appt :
  AppointmentForm_full_clean instance data now db = Ok appt →
  ∃ p d dt st,
    f_patient data = Some p ∧ p ∈ patients db
    ∧ f_doctor data = Some d ∧ d ∈ doctors db
    ∧ f_scheduled_time data = Some dt ∧ now - PAST_MARGIN ≤ timestamp dt
    ∧ f_status data = Some st
    ∧ 0 ≤ default 0 (f_iqd_amount data) < 10 ^ 15
    ∧ ¬ Exists (overlapping (pk instance) d (Aware (timestamp dt) LOCAL_TZ))
          (appointments db)
    ∧ appt = mkAppointment (pk instance) p d (Some (Aware (timestamp dt) LOCAL_TZ))
               (scheduled_day instance) (queue_number instance)
               (Some (default 0 (f_iqd_amount data))) (Some (f_notes data)) st
               (created_at instance).
Proof.
  unfold AppointmentForm_full_clean. intros Hf.
  destruct (f_patient data) as [p|];
    [destruct (decide (p ∈ patients db)) as [Hp|]|];
    [|exfalso; form_cases Hf; done..].
  destruct (f_doctor data) as [d|];
    [destruct (decide (d ∈ doctors db)) as [Hd|]|];
    [|exfalso; form_cases Hf; done..].
  destruct (f_scheduled_time data) as [dt|]; [|exfalso; form_cases Hf; done].
  unfold AppointmentForm_clean_scheduled_time in Hf.
  rewrite _to_local_aware_Some in Hf.
  destruct (decide (timestamp (Aware (timestamp dt) LOCAL_TZ)
                    < timestamp (localtime now) - PAST_MARGIN)) as [|Hfuture];
    [exfalso; form_cases Hf; done|].
  destruct (f_status data) as [st|]; [|exfalso; form_cases Hf; done].
  exists p, d, dt, st.
  unfold AppointmentForm_clean in Hf. simpl in Hf.
  assert (∀ c_amount,
    (c_amount = None ∨ ∃ v, c_amount = Some v ∧ 0 ≤ v < 10 ^ 15) →
    (let '(e_form, amount) :=
       if decide (Exists (overlapping (pk instance) d (Aware (timestamp dt) LOCAL_TZ))
                    (appointments db))
       then ([("__all__", "At least a one-minute gap is required between appointments for the same doctor.")],
             default 0 c_amount)
       else ([], default 0 c_amount) in
     let instance0 :=
       mkAppointment (pk instance) p d (Some (Aware (timestamp dt) LOCAL_TZ))
         (scheduled_day instance) (queue_number instance) (Some amount)
         (Some (f_notes data)) st (created_at instance) in
     match
       e_form ++ match Appointment_clean instance0 now db with
                 | Raise (ValidationError errs) => errs
                 | _ => []
                 end
     with
     | [] => Ok instance0
     | errors => Raise (ValidationError errors)
     end) = Ok appt →
    0 ≤ default 0 c_amount < 10 ^ 15
    ∧ ¬ Exists (overlapping (pk instance) d (Aware (timestamp dt) LOCAL_TZ))
          (appointments db)
    ∧ appt = mkAppointment (pk instance) p d (Some (Aware (timestamp dt) LOCAL_TZ))
               (scheduled_day instance) (queue_number instance)
               (Some (default 0 c_amount)) (Some (f_notes data)) st
               (created_at instance)) as Hrest.
  { intros c_amount Hamt H.
    destruct (decide (Exists _ (appointments db))) as [|Hover]; [done|].
    simpl in H.
    match type of H with
    | context [Appointment_clean ?i now db] =>
      destruct (Appointment_clean i now db) as [[]|e] eqn:Hc;
        [|apply Appointment_clean_raises in Hc as [msg ->]; done]
    end.
    injection H as <-. split; [|done].
    destruct Hamt as [->|(v & -> & ?)]; simpl; lia. }
  destruct (f_iqd_amount data) as [v|]; simpl in *.
  - destruct (decide (0 ≤ v)); [destruct (decide (Z.abs v < 10 ^ 15))|];
      [|exfalso; simpl in Hf; form_cases Hf; done..].
    destruct (Hrest (Some v)) as (? & ? & ?); [right; exists v; split; [done|lia]| |].
    + simpl. destruct (decide (Exists _ (appointments db))); exact Hf.
    + split_and!; try done; simpl in *; lia.
  - destruct (Hrest None) as (? & ? & ?); [by left| |].
    + simpl. destruct (decide (Exists _ (appointments db))); exact Hf.
    + split_and!; try done; simpl in *; lia.
Qed.



(** *** Display names *)

Lemma contains_at_before_at s : contains_at (before_at s) = false.
Proof.
  induction s as [|c s IH]; [done|]. simpl.
  destruct (decide (c = "@"%char)) as [|Hc]; [done|]. simpl.
  by rewrite decide_False.
Qed.

Lemma short_name_Some u fallback s :
  short_name u fallback = Some s → fallback ≠ "" →
  s ≠ ""
  ∧ (first_name u = "" → contains_at fallback = false → contains_at s = false).
Proof.
  unfold short_name. intros Hs Hf.
  destruct (first_name u) as [|c first] eqn:Hfirst.
  - destruct (username u) as [name|]; [|done]. injection Hs as <-.
    assert (contains_at (if contains_at name then before_at name else name) = false)
      as Hat.
    { destruct (contains_at name) eqn:Hn; [apply contains_at_before_at|done]. }
    destruct (if contains_at name then before_at name else name); simpl in *;
      [done|]. split; [done|]. intros _ _. exact Hat.
  - injection Hs as <-. split; [done|]. intros [=].
Qed.

(** A user without a first name has a full name exactly when the last
    name is more than white space. *)
Lemma get_full_name_nil u :
  first_name u = "" → (get_full_name u = "" ↔ strip (last_name u) = "").
Proof.
  intros Hfirst. unfold get_full_name. rewrite Hfirst.
  change ("" +:+ " " +:+ last_name u) with (String " " (last_name u)).
  rewrite !strip_nil. by rewrite lstrip_1.
Qed.

(** X7. The two display-name helpers never give an empty name, and a name
    they take from the username, for want of a full and a first name,
    holds no at-sign: of an e-mail address used as username only the part
    before the at-sign is shown.  They fail exactly for a user without
    names whose username is NULL: the first name is empty, the last name
    is empty or white space, and, for a doctor, so is the name on the
    profile. *)
Theorem display_names_never_empty :
  (∀ u s, _user_name u = Some s →
     s ≠ ""
     ∧ (get_full_name u = "" → first_name u = "" → contains_at s = false))
  ∧ (∀ doc s, _doctor_name doc = Some s →
       s ≠ ""
       ∧ (doctor_full_name doc = "" → get_full_name (doctor_user doc) = "" →
          first_name (doctor_user doc) = "" → contains_at s = false))
  ∧ (∀ u, _user_name u = None ↔
          first_name u = "" ∧ strip (last_name u) = "" ∧ username u = None)
  ∧ (∀ doc, _doctor_name doc = None ↔
            doctor_full_name doc = ""
            ∧ first_name (doctor_user doc) = ""
            ∧ strip (last_name (doctor_user doc)) = ""
            ∧ username (doctor_user doc) = None).
Proof.
  assert (∀ u fallback,
            match get_full_name u with
            | EmptyString => short_name u fallback
            | full => Some full
            end = None ↔
            first_name u = "" ∧ strip (last_name u) = "" ∧ username u = None)
    as Huser.
  { intros u fallback. unfold short_name. split.
    - destruct (get_full_name u) eqn:Hfull; [|done].
      destruct (first_name u) eqn:Hfirst; [|done].
      destruct (username u); [done|]. intros _.
      split; [done|]. split; [|done]. by apply get_full_name_nil.
    - intros (Hfirst & Hlast & Hname).
      rewrite (proj2 (get_full_name_nil u Hfirst) Hlast). by rewrite Hfirst, Hname. }
  split; [|split; [|split]].
  - intros u s. unfold _user_name.
    destruct (get_full_name u) as [|c full] eqn:Hfull.
    + intros Hs. apply short_name_Some in Hs as [Hne Hat]; [|done]. auto.
    + intros [= <-]. split; [done|]. intros [=].
  - intros doc s. unfold _doctor_name. simpl.
    destruct (doctor_full_name doc) as [|c name] eqn:Hname.
    + destruct (get_full_name (doctor_user doc)) as [|c full] eqn:Hfull.
      * intros Hs. apply short_name_Some in Hs as [Hne Hat]; [|done]. auto.
      * intros [= <-]. split; [done|]. intros _ [=].
    + intros [= <-]. split; [done|]. intros [=].
  - intros u. apply Huser.
  - intros doc. unfold _doctor_name. simpl.
    destruct (doctor_full_name doc) as [|c name].
    + rewrite (Huser (doctor_user doc) "Doctor"). tauto.
    + split; [done|]. by intros [[=] _].
Qed.


(** *** Ordering *)

Lemma elem_of_insert_by {A} (key : A -> Z) x y (l : list A) :
  y ∈ insert_by key x l ↔ y = x ∨ y ∈ l.
Proof.
  induction l as [|z l IH]; simpl.
  - rewrite list_elem_of_singleton, elem_of_nil. tauto.
  - case_decide; rewrite !elem_of_cons; [tauto|]. rewrite IH. tauto.
Qed.

Lemma elem_of_order_by {A} (key : A -> Z) x (l : list A) :
  x ∈ order_by key l ↔ x ∈ l.
Proof.
  induction l as [|z l IH]; [done|]. unfold order_by in *. simpl.
  rewrite elem_of_insert_by, elem_of_cons, IH. tauto.
Qed.

Lemma length_insert_by {A} (key : A -> Z) x (l : list A) :
  length (insert_by key x l) = S (length l).
Proof.
  induction l as [|z l IH]; [done|]. simpl. case_decide; [done|]. simpl. by rewrite IH.
Qed.

Lemma length_order_by {A} (key : A -> Z) (l : list A) :
  length (order_by key l) = length l.
Proof.
  induction l as [|z l IH]; [done|]. unfold order_by in *. simpl.
  by rewrite length_insert_by, IH.
Qed.

Lemma insert_by_ascending {A} (key : A -> Z) x (l : list A) :
  ascending key l → ascending key (insert_by key x l).
Proof.
  induction l as [|z l IH]; simpl; [done|]. intros [Hz Hl].
  case_decide as Hle; simpl.
  - split; [|done]. constructor; [done|].
    eapply Forall_impl; [exact Hz|]. simpl. intros; lia.
  - split; [|by apply IH].
    apply Forall_forall. intros y [->|Hy]%elem_of_insert_by; [lia|].
    by apply (proj1 (Forall_forall _ _) Hz).
Qed.

Lemma order_by_ascending {A} (key : A -> Z) (l : list A) :
  ascending key (order_by key l).
Proof.
  induction l as [|z l IH]; [done|]. by apply insert_by_ascending.
Qed.

Lemma insert_by_least {A} (key : A -> Z) x (l : list A) :
  Forall (λ y, key x ≤ key y) l → insert_by key x l = x :: l.
Proof.
  destruct l as [|z l]; [done|]. intros [Hz _]%Forall_cons. simpl.
  by rewrite decide_True.
Qed.

Lemma filter_insert_by {A} (key : A -> Z) (P : A -> Prop) `{!∀ x, Decision (P x)} x l :
  ascending key l →
  filter P (insert_by key x l)
  = if decide (P x) then insert_by key x (filter P l) else filter P l.
Proof.
  induction l as [|z l IH]; simpl.
  - intros _. rewrite filter_cons, filter_nil. by case_decide.
  - intros [Hz Hl]. destruct (decide (key x ≤ key z)) as [Hle|Hgt].
    + rewrite (filter_cons P x). destruct (decide (P x)) as [Hx|Hx]; [|done].
      rewrite (filter_cons P z). destruct (decide (P z)) as [Hpz|Hpz].
      * simpl. by rewrite decide_True.
      * rewrite insert_by_least; [done|].
        apply Forall_forall. intros y [_ Hy]%list_elem_of_filter.
        apply (proj1 (Forall_forall _ _) Hz) in Hy. lia.
    + rewrite !(filter_cons P z), IH by done.
      destruct (decide (P z)), (decide (P x)); simpl; try done.
      by rewrite decide_False.
Qed.

(** Selecting and ordering commute. *)
Lemma filter_order_by {A} (key : A -> Z) (P : A -> Prop) `{!∀ x, Decision (P x)} l :
  filter P (order_by key l) = order_by key (filter P l).
Proof.
  induction l as [|z l IH]; [done|].
  change (order_by key (z :: l)) with (insert_by key z (order_by key l)).
  rewrite filter_insert_by by apply order_by_ascending.
  rewrite filter_cons, IH. by case_decide.
Qed.

Lemma head_order_by_earliest l :
  head (order_by by_scheduled_time l) = earliest l.
Proof.
  induction l as [|z l IH]; [done|].
  change (order_by by_scheduled_time (z :: l))
    with (insert_by by_scheduled_time z (order_by by_scheduled_time l)).
  unfold earliest in *. simpl. rewrite <-IH.
  destruct (order_by by_scheduled_time l) as [|b l']; [done|]. simpl.
  fold (by_scheduled_time z) (by_scheduled_time b). by case_decide.
Qed.

(** *** Queue snapshots *)

(** The doctor's part of the snapshot queryset is the queue call-next
    works on, in order. *)
Lemma by_doc_pending_today d today db :
  by_doc (pending_today today db) d
  = order_by by_scheduled_time (base_qs d today db).
Proof.
  unfold by_doc, pending_today, base_qs.
  rewrite filter_order_by, list_filter_filter. f_equal.
  apply list_filter_iff. intros r. tauto.
Qed.

Lemma elem_of_doctors_of appts db d :
  d ∈ doctors_of appts db ↔ d ∈ doctors db ∧ ∃ a, a ∈ appts ∧ doctor_id a = d.
Proof.
  unfold doctors_of.
  rewrite elem_of_order_by, list_elem_of_filter, elem_of_order_by,
    elem_of_remove_dups, list_elem_of_fmap.
  split.
  - intros [(a & -> & Ha) Hd]. eauto.
  - intros [Hd (a & Ha & <-)]. eauto.
Qed.

Lemma internal_queue_Some appts d q :
  internal_queue appts d = Some q →
  iq_doctor_id q = d
  ∧ match by_doc appts d with
    | [] => iq_status q = "on_break" ∧ iq_current_patient q = None
            ∧ iq_waiting_list q = []
    | first :: rest =>
      iq_status q = "available"
      ∧ (∃ c, iq_current_patient q = Some c ∧ ie_id c = pk first
              ∧ ie_patient_name c
                = patient_full_name (patient_profile (patient_id first)))
      ∧ length (iq_waiting_list q) = length rest
    end.
Proof.
  unfold internal_queue. destruct (by_doc appts d) as [|first rest]; simpl.
  - destruct (_doctor_name _); simpl; [|done]. by intros [= <-].
  - destruct (internal_entry first) as [c|] eqn:Hc; simpl; [|done].
    destruct (mapM internal_entry rest) as [waiting|] eqn:Hw; simpl; [|done].
    destruct (_doctor_name _); simpl; [|done]. intros [= <-]. simpl.
    split; [done|]. split; [done|]. split.
    + unfold internal_entry in Hc.
      destruct (scheduled_time first); simpl in Hc; [|done].
      injection Hc as <-. eauto.
    + apply length_mapM in Hw. done.
Qed.

Lemma insert_by_Permutation {A} (key : A -> Z) x (l : list A) :
  insert_by key x l ≡ₚ x :: l.
Proof.
  induction l as [|z l IH]; simpl; [done|].
  case_decide; [done|]. rewrite IH. apply Permutation_swap.
Qed.

Lemma order_by_Permutation {A} (key : A -> Z) (l : list A) :
  order_by key l ≡ₚ l.
Proof.
  induction l as [|z l IH]; [done|].
  change (order_by key (z :: l)) with (insert_by key z (order_by key l)).
  by rewrite insert_by_Permutation, IH.
Qed.

Lemma base_qs_queue_of_today d now db :
  base_qs d (localdate now) db = queue_of_today d now db.
Proof. reflexivity. Qed.

Lemma internal_entry_shows r e : internal_entry r = Some e → entry_shows e r.
Proof.
  unfold internal_entry, entry_shows.
  destruct (scheduled_time r) as [dt|]; simpl; [|done].
  intros [= <-]. simpl. do 3 (split; [done|]). by exists dt.
Qed.

(** The entries of a queue are those of the doctor's rows, in order. *)
Lemma internal_queue_entries appts d q :
  internal_queue appts d = Some q →
  match by_doc appts d with
  | [] => iq_current_patient q = None ∧ iq_waiting_list q = []
  | first :: rest =>
    (∃ c, iq_current_patient q = Some c ∧ entry_shows c first)
    ∧ Forall2 entry_shows (iq_waiting_list q) rest
  end.
Proof.
  unfold internal_queue. destruct (by_doc appts d) as [|first rest]; simpl.
  - destruct (_doctor_name _); simpl; [|done]. by intros [= <-].
  - destruct (internal_entry first) as [c|] eqn:Hc; simpl; [|done].
    destruct (mapM internal_entry rest) as [waiting|] eqn:Hw; simpl; [|done].
    destruct (_doctor_name _); simpl; [|done]. intros [= <-]. simpl.
    split; [exists c; split; [done|by apply internal_entry_shows]|].
    apply mapM_Some in Hw. apply Forall2_flip.
    eapply Forall2_impl; [exact Hw|]. intros r e. apply internal_entry_shows.
Qed.

(** X8. The internal snapshot is answered when every doctor has a
    display name.  Every queue it lists belongs to a doctor with a PENDING
    appointment today and is never on break.  Its entries are the
    doctor's PENDING appointments of today, each once and in the order of
    their times: the current patient shows the first of them, which is
    the appointment call-next would take for that doctor, and the waiting
    list shows the others one by one, each entry with the key, the number
    label, the patient's name and the time of its appointment.  Every
    doctor who has such an appointment is listed. *)
Theorem snapshot_shows_the_queue_of_call_next now db :
  ((∀ d, d ∈ doctors db → _doctor_name (doctor_profile d) ≠ None) →
   ∃ queues, _queue_snapshot_internal now db = Some queues)
  ∧ ∀ queues,
      _queue_snapshot_internal now db = Some queues →
      (∀ q, q ∈ queues →
         iq_doctor_id q ∈ doctors db
         ∧ iq_status q = "available"
         ∧ ∃ first rest c,
             first :: rest ≡ₚ queue_of_today (iq_doctor_id q) now db
             ∧ ascending by_scheduled_time (first :: rest)
             ∧ earliest (base_qs (iq_doctor_id q) (localdate now) db) = Some first
             ∧ iq_current_patient q = Some c
             ∧ entry_shows c first
             ∧ Forall2 entry_shows (iq_waiting_list q) rest)
      ∧ (∀ d, d ∈ doctors db → queue_of_today d now db ≠ [] →
              ∃ q, q ∈ queues ∧ iq_doctor_id q = d).
Proof.
  split.
  - intros Hnames. unfold _queue_snapshot_internal.
    apply mapM_is_Some, Forall_forall. intros d [Hd _]%elem_of_doctors_of. simpl.
    unfold internal_queue.
    assert (is_Some (mapM internal_entry
                       (by_doc (pending_today (localdate now) db) d))) as [es Hes].
    { apply mapM_is_Some, Forall_forall.
      intros r [_ Hr]%list_elem_of_filter. simpl.
      apply elem_of_order_by, list_elem_of_filter in Hr as [[Hday _] _].
      unfold internal_entry. by destruct (scheduled_time r). }
    destruct (_doctor_name (doctor_profile d)) as [name|] eqn:Hname;
      [|by destruct (Hnames d)].
    destruct (by_doc (pending_today (localdate now) db) d) as [|first rest];
      simpl; [done|].
    simpl in Hes. destruct (internal_entry first); simpl in *; [|done].
    by destruct (mapM internal_entry rest).
  - unfold _queue_snapshot_internal. intros queues Hs%mapM_Some. split.
    + intros q Hq. apply list_elem_of_lookup in Hq as [i Hi].
      destruct (Forall2_lookup_r _ _ _ i q Hs Hi) as (d & Hd & Hqd).
      apply list_elem_of_lookup_2, elem_of_doctors_of in Hd as [Hdin (a & Ha & Had)].
      pose proof (internal_queue_entries _ _ _ Hqd) as Hentries.
      apply internal_queue_Some in Hqd as [-> Hshape].
      assert (a ∈ by_doc (pending_today (localdate now) db) d) as Hin
        by (by apply list_elem_of_filter).
      rewrite by_doc_pending_today in Hshape, Hentries, Hin.
      pose proof (head_order_by_earliest (base_qs d (localdate now) db)) as Hhead.
      pose proof (order_by_Permutation by_scheduled_time (base_qs d (localdate now) db))
        as Hperm.
      pose proof (order_by_ascending by_scheduled_time (base_qs d (localdate now) db))
        as Hasc.
      destruct (order_by by_scheduled_time (base_qs d (localdate now) db))
        as [|first rest]; [by apply elem_of_nil in Hin|].
      destruct Hshape as (Hst & _). destruct Hentries as ((c & Hc & Hshows) & Hrest).
      split; [done|]. split; [done|]. exists first, rest, c.
      rewrite <-base_qs_queue_of_today. done.
    + intros d Hd Hne. rewrite <-base_qs_queue_of_today in Hne.
      assert (d ∈ doctors_of (pending_today (localdate now) db) db) as Hin.
      { apply elem_of_doctors_of. split; [done|].
        destruct (base_qs d (localdate now) db) as [|a l] eqn:Hb; [done|].
        assert (a ∈ base_qs d (localdate now) db) as Ha by (rewrite Hb; by left).
        apply list_elem_of_filter in Ha as [(Had & Hst & Hday) Ha].
        exists a. split; [|done]. apply elem_of_order_by, list_elem_of_filter. done. }
      apply list_elem_of_lookup in Hin as [i Hi].
      destruct (Forall2_lookup_l _ _ _ i d Hs Hi) as (q & Hq & Hqd).
      exists q. split; [by eapply list_elem_of_lookup_2|].
      by apply internal_queue_Some in Hqd as [-> _].
Qed.

Lemma public_entry_without_name a :
  public_entry a = entry_without_name <$> internal_entry a.
Proof. unfold public_entry, internal_entry. by destruct (scheduled_time a). Qed.

Lemma mapM_fmap_option {A B C} (f : A -> option B) (g : B -> C) (h : A -> option C) l :
  (∀ x, h x = g <$> f x) → mapM h l = fmap g <$> mapM f l.
Proof.
  intros Hh. induction l as [|x l IH]; [done|]. simpl. rewrite Hh, IH.
  destruct (f x); simpl; [|done]. by destruct (mapM f l).
Qed.

Lemma public_queue_without_names appts d :
  public_queue appts d = queue_without_names <$> internal_queue appts d.
Proof.
  unfold public_queue, internal_queue.
  destruct (by_doc appts d) as [|first rest]; simpl.
  - by destruct (_doctor_name _).
  - rewrite public_entry_without_name.
    rewrite (mapM_fmap_option internal_entry entry_without_name public_entry)
      by apply public_entry_without_name.
    destruct (internal_entry first); simpl; [|done].
    destruct (mapM internal_entry rest); simpl; [|done].
    by destruct (_doctor_name _).
Qed.

(** X9. The public snapshot is the internal one with the patients' names
    taken out and nothing else changed: the same doctors in the same
    order, the same appointment ids, numbers and times; it fails exactly
    when the internal one does. *)
Theorem public_snapshot_is_internal_without_names now db :
  _queue_snapshot_public now db
  = (λ queues : list InternalQueue, queue_without_names <$> queues)
      <$> _queue_snapshot_internal now db.
Proof.
  unfold _queue_snapshot_public, _queue_snapshot_internal.
  apply (mapM_fmap_option (internal_queue _) queue_without_names).
  intros d. apply public_queue_without_names.
Qed.

(** *** The current and the next patient *)






(** *** The secretary dashboard *)

Lemma counts_get_fmap (f : Z -> nat) (days : list Z) k :
  counts_get ((λ d, (d, f d)) <$> days) k = if decide (k ∈ days) then f k else 0%nat.
Proof.
  unfold counts_get. induction days as [|d days IH]; [done|].
  rewrite fmap_cons, filter_cons. simpl.
  destruct (decide (d = k)) as [->|Hne]; simpl.
  - by rewrite decide_True by (by left).
  - rewrite IH. destruct (decide (k ∈ days)) as [Hin|Hin].
    + by rewrite decide_True by (by right).
    + rewrite decide_False; [done|]. intros [?|?]%elem_of_cons; done.
Qed.

Lemma counts_get_count_by_day rows k :
  counts_get (count_by_day rows) k = length (filter (on_date k) rows).
Proof.
  unfold count_by_day. rewrite counts_get_fmap.
  set (days := omap (λ r, lookup_date <$> scheduled_time r) rows).
  assert (length (filter (λ d', d' = k) days) = length (filter (on_date k) rows))
    as Hlen.
  { unfold days. induction rows as [|r rows IH]; [done|]. csimpl.
    rewrite (filter_cons _ r).
    destruct (decide (on_date k r)) as [Hon|Hon]; unfold on_date in Hon.
    - rewrite Hon. rewrite filter_cons_True by done. simpl. by rewrite IH.
    - destruct (lookup_date <$> scheduled_time r) as [d|]; [|done].
      rewrite filter_cons_False by (by intros ->). done. }
  rewrite <-Hlen. case_decide as Hin; [done|].
  rewrite filter_none; [done|]. intros d Hd ->. apply Hin.
  by apply elem_of_remove_dups.
Qed.

Lemma length_remove_dups_le {A} `{!EqDecision A} (l : list A) :
  (length (remove_dups l) ≤ length l)%nat.
Proof.
  induction l as [|x l IH]; [done|]. simpl. case_decide; simpl; lia.
Qed.

(** A chart over seven days counts every appointment of the week once. *)
Lemma chart_total week_start rows :
  Forall (in_date_range week_start (week_start + 6)) rows →
  sum_list ((λ i, length (filter (on_date (week_start + i)) rows))
              <$> [0; 1; 2; 3; 4; 5; 6])
  = length rows.
Proof.
  induction rows as [|r rows IH]; [done|].
  intros [Hr Hrows]%Forall_cons. specialize (IH Hrows).
  simpl in IH. simpl. unfold in_date_range in Hr.
  destruct (lookup_date <$> scheduled_time r) as [d|] eqn:Hd; [|done].
  assert (∀ i, on_date (week_start + i) r ↔ d = week_start + i) as Hon.
  { intros i. unfold on_date. rewrite Hd. split; [by intros [=]|by intros ->]. }
  assert (d = week_start + 0 ∨ d = week_start + 1 ∨ d = week_start + 2
          ∨ d = week_start + 3 ∨ d = week_start + 4 ∨ d = week_start + 5
          ∨ d = week_start + 6) as Hcases by lia.
  rewrite !(filter_cons _ r).
  repeat match goal with
  | |- context [decide (on_date (week_start + ?i) r)] =>
    destruct (decide (on_date (week_start + i) r)) as [?%Hon|?]
  end; simpl; try lia.
  all: exfalso; rewrite !Hon in *; lia.
Qed.

(** The week the dashboard charts begins on the Monday on or before
    today.  Day 4 of the epoch, 5 January 1970, was a Monday, and so is
    every day that differs from it by a multiple of seven. *)
Lemma week_start_monday today monday :
  monday `mod` 7 = 4 → monday ≤ today ≤ monday + 6 →
  today - weekday today = monday.
Proof.
  unfold weekday. intros Hm Hrange.
  assert ((today + 3) `mod` 7 = today - monday) as ->; [|lia].
  symmetry. apply (Z.mod_unique_pos _ _ (monday `div` 7 + 1)); [lia|].
  pose proof (Z.div_mod monday 7). lia.
Qed.

(** X11. On the secretary dashboard the chart has one bar for each day of
    the current week, Monday first: with [monday] the Monday on or before
    today, bar [i] is the number of appointments whose time falls on the
    local day [monday + i], whatever their status.  So the bars add up to
    the number of appointments scheduled in that week; the bar of today
    is the figure given for the appointments of today, which counts the
    appointments listed for today; and there are no more patients today
    than appointments today. *)
Theorem dashboard_figures_add_up now db monday :
  let today := local_today now in
  let dashboard := secretary_dashboard now db in
  let scheduled_on (day : Z) :=
    filter (λ r, (local_day <$> scheduled_time r) = Some day) (appointments db) in
  monday `mod` 7 = 4 → monday ≤ today ≤ monday + 6 →
  chart_data dashboard
  = (λ i, length (scheduled_on (monday + i))) <$> [0; 1; 2; 3; 4; 5; 6]
  ∧ sum_list (chart_data dashboard)
    = length (filter (in_date_range monday (monday + 6)) (appointments db))
  ∧ chart_data dashboard !! Z.to_nat (today - monday)
    = Some (appointments_today (stats dashboard))
  ∧ today_appointments dashboard = scheduled_on today
  ∧ appointments_today (stats dashboard) = length (today_appointments dashboard)
  ∧ (patients_today (stats dashboard) ≤ appointments_today (stats dashboard))%nat.
Proof.
  intros today dashboard scheduled_on Hmonday Hrange. subst dashboard.
  pose proof (week_start_monday today monday Hmonday Hrange) as Hstart.
  unfold secretary_dashboard. cbv zeta.
  change (localdate now) with today. rewrite Hstart.
  cbn [chart_data stats appointments_today patients_today today_appointments].
  assert (seqZ 0 7 = [0; 1; 2; 3; 4; 5; 6]) as -> by reflexivity.
  set (week := filter (in_date_range monday (monday + 6)) (appointments db)).
  assert ((λ i, counts_get (count_by_day week) (monday + i))
            <$> [0; 1; 2; 3; 4; 5; 6]
          = (λ i, length (filter (on_date (monday + i)) week))
              <$> [0; 1; 2; 3; 4; 5; 6]) as ->.
  { apply list_fmap_ext. intros _ i _. apply counts_get_count_by_day. }
  assert (∀ day, monday ≤ day ≤ monday + 6 →
            filter (on_date day) week = scheduled_on day) as Hday.
  { intros day Hin. unfold week, scheduled_on. rewrite list_filter_filter.
    apply list_filter_iff. intros r. unfold on_date, in_date_range.
    change (lookup_date <$> scheduled_time r) with (local_day <$> scheduled_time r).
    split; [tauto|]. intros Hr. split; [done|]. by rewrite Hr. }
  assert ((λ i, length (filter (on_date (monday + i)) week))
            <$> [0; 1; 2; 3; 4; 5; 6]
          = (λ i, length (scheduled_on (monday + i))) <$> [0; 1; 2; 3; 4; 5; 6])
    as Hbars.
  { simpl. rewrite !Hday by lia. reflexivity. }
  split; [exact Hbars|]. split; [|split; [|split; [done|split; [done|]]]].
  - apply chart_total. apply Forall_forall. intros r Hr.
    by apply list_elem_of_filter in Hr as [? _].
  - rewrite Hbars.
    assert (today - monday = 0 ∨ today - monday = 1 ∨ today - monday = 2
            ∨ today - monday = 3 ∨ today - monday = 4 ∨ today - monday = 5
            ∨ today - monday = 6) as Hcases by lia.
    assert (∀ i, today - monday = i → monday + i = today) as Hi
      by (intros i Hi; lia).
    destruct Hcases as [H|[H|[H|[H|[H|[H|H]]]]]]; rewrite H; simpl;
      by rewrite (Hi _ H).
  - rewrite <-(length_fmap patient_id (filter (on_date today) (appointments db))).
    apply length_remove_dups_le.
Qed.

(** What a change of rows that keeps the time, the patient and the amount
    leaves of the dashboard. *)
Lemma dashboard_keeps g now db :
  (∀ x, scheduled_time (g x) = scheduled_time x
        ∧ patient_id (g x) = patient_id x
        ∧ iqd_amount (g x) = iqd_amount x) →
  stats (secretary_dashboard now (set_appointments (g <$> appointments db) db))
  = stats (secretary_dashboard now db)
  ∧ chart_data (secretary_dashboard now (set_appointments (g <$> appointments db) db))
    = chart_data (secretary_dashboard now db).
Proof.
  intros Hg.
  assert (∀ (P : Appointment -> Prop) `{!∀ x, Decision (P x)} (l : list Appointment),
            (∀ x, P (g x) ↔ P x) → filter P (g <$> l) = g <$> filter P l) as Hfilter.
  { intros P ? l HP. induction l as [|x l IH]; [done|].
    rewrite fmap_cons, !filter_cons, IH.
    destruct (decide (P x)) as [Hx|Hx].
    - by rewrite decide_True by (by apply HP).
    - by rewrite decide_False by (by rewrite HP). }
  assert (∀ day x, on_date day (g x) ↔ on_date day x) as Hon.
  { intros day x. unfold on_date. by destruct (Hg x) as (-> & _). }
  assert (∀ a b x, in_date_range a b (g x) ↔ in_date_range a b x) as Hrange.
  { intros a b x. unfold in_date_range. by destruct (Hg x) as (-> & _). }
  assert (∀ l : list Appointment, patient_id <$> (g <$> l) = patient_id <$> l) as Hpat.
  { intros l. rewrite <-list_fmap_compose. apply list_fmap_ext.
    intros _ x _. simpl. apply Hg. }
  assert (∀ l : list Appointment, iqd_amount <$> (g <$> l) = iqd_amount <$> l) as Hamt.
  { intros l. rewrite <-list_fmap_compose. apply list_fmap_ext.
    intros _ x _. simpl. apply Hg. }
  assert (∀ l : list Appointment,
            omap (λ r, lookup_date <$> scheduled_time r) (g <$> l)
            = omap (λ r, lookup_date <$> scheduled_time r) l) as Hdays.
  { intros l. induction l as [|x l IH]; [done|]. csimpl.
    destruct (Hg x) as (-> & _). by rewrite IH. }
  unfold secretary_dashboard. cbv zeta.
  cbn [chart_data stats appointments set_appointments patients].
  rewrite !Hfilter by done. rewrite Hpat, Hamt, length_fmap.
  split; [done|]. unfold count_by_day. by rewrite Hdays.
Qed.

(** X12. Cancelling an appointment does not change the figures of the
    dashboard: a cancelled appointment still counts among the appointments
    and the patients of its day, its amount still counts in the revenue of
    the day, and it still counts in the chart of its week. *)
Theorem cancel_leaves_dashboard_figures method reason user_full_name username k
    clock now db :
  let db' := (cancel_appointment method reason user_full_name username k clock db).2 in
  stats (secretary_dashboard now db') = stats (secretary_dashboard now db)
  ∧ chart_data (secretary_dashboard now db') = chart_data (secretary_dashboard now db).
Proof.
  unfold cancel_appointment.
  destruct (get_appointment k db) as [appt|]; [|done].
  case_decide; [done|]. destruct method; [done|].
  destruct (update_row k _ db) as [db'|e] eqn:Hu; [|done].
  apply update_row_Ok in Hu as [-> _]. simpl.
  apply dashboard_keeps. intros x. case_decide; [|done].
  by destruct (strip _).
Qed.


(** *** The admin site *)

Lemma date_ranges_exclusive today r :
  match scheduled_time r with
  | None => ¬ before_date today r ∧ ¬ on_date today r ∧ ¬ after_date today r
  | Some _ =>
    (before_date today r ∧ ¬ on_date today r ∧ ¬ after_date today r)
    ∨ (¬ before_date today r ∧ on_date today r ∧ ¬ after_date today r)
    ∨ (¬ before_date today r ∧ ¬ on_date today r ∧ after_date today r)
  end.
Proof.
  unfold before_date, on_date, after_date.
  destruct (scheduled_time r) as [dt|]; simpl; [|by auto].
  destruct (Z.lt_trichotomy (lookup_date dt) today) as [?|[->|?]].
  - left. split; [done|]. split; [intros [=]|]; lia.
  - right. left. split; [lia|]. split; [done|lia].
  - right. right. split; [lia|]. split; [intros [=]; lia|done].
Qed.

(** X13. The three time ranges of the admin filter split the appointments
    that have a time: each of them is in exactly one of past, today and
    future, and an appointment without a time is in none; without a
    value, or with any other value, the filter lets every row through. *)
Theorem date_range_filter_splits_the_rows now queryset :
  let range v := AppointmentDateRangeFilter_queryset (Some v) now queryset in
  (∀ r, r ∈ queryset →
     match scheduled_time r with
     | None =>
       (r ∉ range "past") ∧ (r ∉ range "today") ∧ (r ∉ range "future")
     | Some _ =>
       (r ∈ range "past" ∧ (r ∉ range "today") ∧ (r ∉ range "future"))
       ∨ ((r ∉ range "past") ∧ r ∈ range "today" ∧ (r ∉ range "future"))
       ∨ ((r ∉ range "past") ∧ (r ∉ range "today") ∧ r ∈ range "future")
     end)
  ∧ (length (range "past") + length (range "today") + length (range "future")
     = length (filter (λ r, is_Some (scheduled_time r)) queryset))%nat
  ∧ AppointmentDateRangeFilter_queryset None now queryset = queryset
  ∧ range "" = queryset
  ∧ (∀ v, v ≠ "past" → v ≠ "today" → v ≠ "future" → range v = queryset).
Proof.
  intros range.
  assert (range "past" = filter (before_date (localdate now)) queryset) as Hpast
    by reflexivity.
  assert (range "today" = filter (on_date (localdate now)) queryset) as Htoday
    by reflexivity.
  assert (range "future" = filter (after_date (localdate now)) queryset) as Hfuture
    by reflexivity.
  rewrite Hpast, Htoday, Hfuture.
  split; [|split; [|split; [done|split; [done|]]]].
  - intros r Hr. pose proof (date_ranges_exclusive (localdate now) r) as Hex.
    destruct (scheduled_time r); rewrite !list_elem_of_filter; tauto.
  - clear. induction queryset as [|r l IH]; [done|].
    pose proof (date_ranges_exclusive (localdate now) r) as Hex.
    rewrite !(filter_cons _ r).
    destruct (decide (before_date (localdate now) r)),
      (decide (on_date (localdate now) r)),
      (decide (after_date (localdate now) r)),
      (decide (is_Some (scheduled_time r))) as [[dt Hs]|Hs];
      try rewrite Hs in Hex; simpl; try lia; try tauto.
    all: destruct (scheduled_time r) as [dt|]; [destruct Hs; eauto|tauto].
  - intros v Hp Ht Hf. unfold range, AppointmentDateRangeFilter_queryset.
    destruct v as [|c v]; [done|].
    by rewrite !decide_False by done.
Qed.

Lemma queryset_update_status_Ok selected st db :
  constraints db →
  (st = AppointmentStatus.CANCELLED
   ∨ (st ≠ AppointmentStatus.CANCELLED
      ∧ Forall active (filter (ticked selected) (appointments db)))) →
  queryset_update_status selected st db
  = Ok (length (filter (ticked selected) (appointments db)),
        set_appointments
          ((λ r, if decide (ticked selected r) then set_status st r else r)
             <$> appointments db) db)
  ∧ constraints
      (set_appointments
         ((λ r, if decide (ticked selected r) then set_status st r else r)
            <$> appointments db) db).
Proof.
  intros (Hpk & Ht & Hq) Hst. unfold queryset_update_status.
  set (g := λ r, if decide (ticked selected r) then set_status st r else r).
  assert (∀ x, x ∈ appointments db →
     pk (g x) = pk x
     ∧ (key_time (g x) = key_time x ∨ key_time (g x) = None)
     ∧ (key_queue (g x) = key_queue x ∨ key_queue (g x) = None)) as Hg.
  { intros x Hx. unfold g. case_decide as Hticked; [|auto]. split; [done|].
    destruct Hst as [->|[Hst Hactive]]; [by auto|].
    assert (active x) as Hax.
    { apply (proj1 (Forall_forall _ _) Hactive). by apply list_elem_of_filter. }
    unfold key_time, key_queue, active in *. simpl.
    rewrite !decide_True by done. auto. }
  assert (pk_unique (g <$> appointments db)
          ∧ uq_doctor_time_not_cancelled (g <$> appointments db)
          ∧ uq_doctor_day_queue_active (g <$> appointments db)) as Hc.
  { split; [|split].
    - unfold pk_unique. rewrite <-list_fmap_compose.
      erewrite list_fmap_ext; [exact Hpk|].
      intros i x Hix. simpl. apply Hg. by eapply list_elem_of_lookup_2.
    - eapply sublist_NoDup; [exact Ht|]. apply omap_fmap_sublist_on.
      intros x Hx. apply Hg, Hx.
    - eapply sublist_NoDup; [exact Hq|]. apply omap_fmap_sublist_on.
      intros x Hx. apply Hg, Hx. }
  split; [|exact Hc].
  by rewrite (proj2 (check_constraints_Ok _) Hc).
Qed.

(** X14. The two status actions of the appointment admin.  Marking as
    cancelled always goes through on a store that satisfies its
    constraints, whatever the status of the ticked rows, COMPLETED ones
    included: exactly the ticked rows become CANCELLED and the message
    counts them.  Marking as completed goes through when none of the
    ticked rows is CANCELLED.  Either way the constraints still hold. *)
Theorem admin_status_actions selected db :
  constraints db →
  let ticked_rows := filter (ticked selected) (appointments db) in
  let marked st :=
    set_appointments
      ((λ r, if decide (ticked selected r) then set_status st r else r)
         <$> appointments db) db in
  (mark_cancelled selected db
   = Ok (pretty (length ticked_rows) +:+ " appointment(s) marked as cancelled.",
         marked AppointmentStatus.CANCELLED)
   ∧ constraints (marked AppointmentStatus.CANCELLED))
  ∧ (Forall active ticked_rows →
     mark_completed selected db
     = Ok (pretty (length ticked_rows) +:+ " appointment(s) marked as completed.",
           marked AppointmentStatus.COMPLETED)
     ∧ constraints (marked AppointmentStatus.COMPLETED)).
Proof.
  intros Hc ticked_rows marked. split.
  - destruct (queryset_update_status_Ok selected AppointmentStatus.CANCELLED db Hc)
      as [Hu Hc']; [by left|].
    split; [|done]. unfold mark_cancelled. by rewrite Hu.
  - intros Hactive.
    destruct (queryset_update_status_Ok selected AppointmentStatus.COMPLETED db Hc)
      as [Hu Hc']; [by right|].
    split; [|done]. unfold mark_completed. by rewrite Hu.
Qed.

(** *** Terminal statuses *)

(** [save] validates an instance that has the key and the status of the
    one it was given, and hands it to [Model.save]. *)
Lemma Appointment_save_Model_save a uf now db a' db' :
  Appointment_save a uf now db = Ok (a', db') →
  ∃ self, pk self = pk a ∧ status self = status a
          ∧ Model_save self uf now db = Ok (a', db').
Proof.
  unfold Appointment_save.
  destruct a as [[k|] p d [[w|u o]|] sd q [amt|] n st c]; simpl;
    repeat case_decide; try done;
    intros ([] & _ & Hm)%bind_Ok; eexists; (split; [|split; [|exact Hm]]); done.
Qed.

(** What a save does to the rows: nothing, an append, or the rewrite of
    the row that has the key of the instance. *)
Lemma Appointment_save_rows a uf now db a' db' :
  Appointment_save a uf now db = Ok (a', db') →
  db' = db
  ∨ (∃ row, appointments db' = appointments db ++ [row])
  ∨ (∃ k, pk a = Some k ∧ status a' = status a
          ∧ db' = set_appointments
                    ((λ x, if decide (pk x = Some k) then write_fields uf a' x else x)
                       <$> appointments db) db).
Proof.
  intros (self & Hpk & Hst & Hm)%Appointment_save_Model_save.
  unfold Model_save in Hm.
  assert (∀ a0, insert_row a0 now db = Ok (a', db') →
            ∃ row, appointments db' = appointments db ++ [row]) as Hins.
  { intros a0 Hi. apply insert_row_Ok in Hi as (-> & _). eauto. }
  destruct uf as [[|f fs]|].
  - injection Hm as <- <-. by left.
  - destruct (pk self) as [k|] eqn:Hk; [|done].
    destruct (get_appointment k db); [|done].
    apply bind_Ok in Hm as (db1 & Hu & [= <- <-]).
    apply update_row_Ok in Hu as [-> _]. right. right.
    exists k. split; [congruence|]. done.
  - destruct (pk self) as [k|] eqn:Hk; [|right; left; by eapply Hins].
    destruct (get_appointment k db); [|right; left; by eapply Hins].
    apply bind_Ok in Hm as (db1 & Hu & [= <- <-]).
    apply update_row_Ok in Hu as [-> _]. right. right.
    exists k. split; [congruence|]. done.
Qed.

(** What a save does to a stored row: it leaves it, or the instance has
    its key and the row takes the status of the instance. *)
Lemma Appointment_save_row a uf now db a' db' k r :
  Appointment_save a uf now db = Ok (a', db') → get_appointment k db = Some r →
  ∃ r', get_appointment k db' = Some r'
        ∧ (status r' = status r ∨ (pk a = Some k ∧ status r' = status a)).
Proof.
  intros Hs Hget.
  destruct (Appointment_save_rows _ _ _ _ _ _ Hs)
    as [->|[[row Hrows]|(k2 & Hpk & Hst & ->)]].
  - eauto.
  - exists r. split; [|by left]. unfold get_appointment in *. rewrite Hrows.
    by apply head_filter_app.
  - assert (∀ x, pk (write_fields uf a' x) = pk x) as Hg by done.
    destruct (decide (k = k2)) as [->|Hne].
    + rewrite (get_appointment_updated k2 (write_fields uf a') db r) by done.
      eexists. split; [done|]. unfold write_fields. simpl.
      destruct (written uf "status"); [right|by left]. split; [done|congruence].
    + rewrite (get_appointment_other k k2 (write_fields uf a')) by done. eauto.
Qed.

Lemma get_appointment_delete k k2 db :
  k ≠ k2 →
  get_appointment k
    (set_appointments (filter (λ r, pk r ≠ Some k2) (appointments db)) db)
  = get_appointment k db.
Proof.
  intros Hne. unfold get_appointment. simpl. f_equal.
  induction (appointments db) as [|x l IH]; [done|].
  rewrite (filter_cons (λ r, pk r ≠ Some k2)).
  destruct (decide (pk x ≠ Some k2)) as [Hx|Hx].
  - rewrite !filter_cons. case_decide; by rewrite IH.
  - rewrite (filter_cons (λ r, pk r = Some k)), decide_False; [done|].
    intros Hk. apply Hx. rewrite Hk. by intros [= ->].
Qed.

Lemma AppointmentForm_full_clean_status instance data now db appt :
  AppointmentForm_full_clean instance data now db = Ok appt →
  f_status data = Some (status appt) ∧ pk appt = pk instance.
Proof.
  intros Hf.
  destruct (AppointmentForm_full_clean_Ok _ _ _ _ _ Hf)
    as (p & d & dt & st & _ & _ & _ & _ & _ & _ & Hst & _ & _ & ->).
  done.
Qed.

(** What one operation does to a stored row. *)
Lemma run_row op now db k r :
  constraints db → keyed db → get_appointment k db = Some r →
  (op = op_delete k ∧ get_appointment k (run op now db) = None)
  ∨ ∃ r', get_appointment k (run op now db) = Some r'
          ∧ (status r' = status r
             ∨ (∃ k2 reason u1 u2, op = op_cancel k2 reason u1 u2
                  ∧ status r ≠ AppointmentStatus.COMPLETED
                  ∧ status r' = AppointmentStatus.CANCELLED)
             ∨ (op = op_confirm k ∧ status r ≠ AppointmentStatus.CANCELLED
                  ∧ status r' = AppointmentStatus.PENDING)
             ∨ (∃ d appt_id, op = op_call_next d appt_id
                  ∧ status r = AppointmentStatus.PENDING
                  ∧ status r' = AppointmentStatus.COMPLETED)
             ∨ (∃ data, op = op_edit k data ∧ f_status data = Some (status r'))
             ∨ (∃ a uf, op = op_save a uf ∧ pk a = Some k ∧ status a = status r')).
Proof.
  intros Hdb Hkeyed Hget.
  destruct (get_appointment_Some _ _ _ Hget) as [Hk Hr].
  destruct op as [a uf|data|k2 data|k2 reason u1 u2|k2|d appt_id|k2]; simpl.
  - (* save *)
    right. destruct (Appointment_save a uf now db) as [[a' db']|e] eqn:Hs; [|eauto].
    destruct (Appointment_save_row _ _ _ _ _ _ k r Hs Hget) as (r' & Hr' & [?|[? ?]]);
      [eauto|].
    exists r'. split; [done|]. do 5 right. eauto.
  - (* create *)
    right. unfold create_appointment.
    destruct (AppointmentForm_full_clean Appointment_new data now db) as [appt|e] eqn:Hf;
      [|eauto].
    apply AppointmentForm_full_clean_status in Hf as [_ Hpk].
    destruct (Appointment_save _ None now db) as [[a' db']|e] eqn:Hs.
    + destruct (Appointment_save_row _ _ _ _ _ _ k r Hs Hget)
        as (r' & Hr' & [?|[Hpk' ?]]); [eauto|].
      simpl in Hpk'. by rewrite Hpk in Hpk'.
    + destruct e; eauto.
  - (* edit *)
    right. unfold edit_appointment.
    destruct (get_appointment k2 db) as [r2|] eqn:Hget2; [|eauto].
    destruct (AppointmentForm_full_clean r2 data now db) as [appt|e] eqn:Hf; [|eauto].
    apply AppointmentForm_full_clean_status in Hf as [Hst Hpk].
    destruct (get_appointment_Some _ _ _ Hget2) as [Hk2 _].
    destruct (Appointment_save _ None now db) as [[a' db']|e] eqn:Hs.
    + destruct (Appointment_save_row _ _ _ _ _ _ k r Hs Hget)
        as (r' & Hr' & [?|[Hpk' Hst']]); [eauto|].
      simpl in Hpk', Hst'. exists r'. split; [done|]. do 4 right. left.
      assert (k2 = k) as -> by congruence.
      exists data. split; [done|]. by rewrite Hst'.
    + destruct e; eauto.
  - (* cancel *)
    right.
    destruct (get_appointment k2 db) as [r2|] eqn:Hget2;
      [|unfold cancel_appointment; rewrite Hget2; eauto].
    destruct (decide (status r2 = AppointmentStatus.COMPLETED)) as [Hc|Hc].
    { unfold cancel_appointment. rewrite Hget2, decide_True by done. eauto. }
    destruct (cancel_appointment_POST db k2 r2 reason u1 u2 now)
      as (upd & Hupd & -> & _); [done..|]. simpl.
    assert (∀ x, pk (upd x) = pk x) as Hg
      by (intros x; by destruct (Hupd x) as [n ->]).
    destruct (decide (k = k2)) as [->|Hne].
    + rewrite (get_appointment_updated k2 upd) with (r := r) by done.
      eexists. split; [done|]. right. left.
      exists k2, reason, u1, u2. split; [done|]. split; [congruence|].
      by destruct (Hupd r) as [n ->].
    + rewrite (get_appointment_other k k2 upd) by done. eauto.
  - (* confirm *)
    right. unfold confirm_appointment.
    destruct (get_appointment k2 db) as [r2|] eqn:Hget2; [|eauto].
    case_decide as Hc; [eauto|].
    destruct (Appointment_save _ _ _ _) as [[a' db']|e] eqn:Hs; [|eauto].
    destruct (Appointment_save_row _ _ _ _ _ _ k r Hs Hget)
      as (r' & Hr' & [?|[Hpk' Hst']]); [eauto|].
    simpl in Hpk', Hst'. destruct (get_appointment_Some _ _ _ Hget2) as [Hk2 _].
    assert (k2 = k) as -> by congruence.
    exists r'. split; [done|]. right. right. left.
    split; [done|]. split; [congruence|done].
  - (* call-next *)
    right. unfold call_next_api.
    match goal with
    | |- context [match ?n with Ok _ => _ | Raise _ => _ end] =>
      destruct n as [[x|]|] eqn:Hnxt; [|eauto..]
    end.
    apply call_next_choice in Hnxt as [Hx Hpend].
    destruct (Appointment_save _ _ _ _) as [[a' db']|e] eqn:Hs; [|eauto].
    destruct (Appointment_save_row _ _ _ _ _ _ k r Hs Hget)
      as (r' & Hr' & [?|[Hpk' Hst']]); [eauto|].
    simpl in Hpk', Hst'.
    assert (x = r) as -> by (apply (pk_unique_inj (appointments db));
                             [apply Hdb|done..|congruence]).
    exists r'. split; [done|]. do 3 right. left. eauto.
  - (* delete *)
    unfold delete_appointment.
    destruct (get_appointment k2 db) as [r2|] eqn:Hget2; [|right; eauto].
    simpl. destruct (decide (k = k2)) as [->|Hne].
    + left. split; [done|]. unfold get_appointment. simpl.
      rewrite list_filter_filter.
      rewrite filter_none; [done|]. intros x _ [? ?]. done.
    + right. rewrite get_appointment_delete by done. eauto.
Qed.

(** C2, as the code has it.  A stored appointment that is CANCELLED or
    COMPLETED keeps its status under every operation, with these
    exceptions, and no others: a confirm of the appointment when it is
    COMPLETED puts it back to PENDING; an edit of the appointment gives
    it the status the form holds; a [save] of an instance with its key
    gives it the status of the instance; and the two admin actions give
    the ticked appointments their status.  The row disappears only when
    the appointment is deleted.  So cancel, call-next, create and every
    operation on another appointment leave a terminal status alone, and
    confirm leaves CANCELLED alone: it answers its cannot-confirm error
    exactly when the appointment is CANCELLED, and on any other
    appointment a confirm that goes through leaves the status PENDING. *)
Theorem terminal_statuses db k r :
  constraints db → keyed db → get_appointment k db = Some r →
  status r = AppointmentStatus.CANCELLED ∨ status r = AppointmentStatus.COMPLETED →
  (∀ op now,
     (op = op_delete k ∧ get_appointment k (run op now db) = None)
     ∨ ∃ r', get_appointment k (run op now db) = Some r'
             ∧ (status r' = status r
                ∨ (status r = AppointmentStatus.COMPLETED ∧ op = op_confirm k
                   ∧ status r' = AppointmentStatus.PENDING)
                ∨ (∃ data, op = op_edit k data ∧ f_status data = Some (status r'))
                ∨ (∃ a uf, op = op_save a uf ∧ pk a = Some k
                           ∧ status a = status r')))
  ∧ (∀ selected message db',
       (mark_completed selected db = Ok (message, db') →
        ∃ r', get_appointment k db' = Some r'
              ∧ status r' = if decide (k ∈ selected)
                            then AppointmentStatus.COMPLETED else status r)
       ∧ (mark_cancelled selected db = Ok (message, db') →
          ∃ r', get_appointment k db' = Some r'
                ∧ status r' = if decide (k ∈ selected)
                              then AppointmentStatus.CANCELLED else status r))
  ∧ (∀ now,
       (status r = AppointmentStatus.CANCELLED ↔
        (confirm_appointment POST k now db).1
        = redirect "appointments:appointment_list"
            (Some (error, "❌ Cannot confirm a cancelled appointment.")))
       ∧ ((confirm_appointment POST k now db).1
          = redirect "appointments:appointment_list"
              (Some (success, "Appointment confirmed.")) →
          ∃ r', get_appointment k (confirm_appointment POST k now db).2 = Some r'
                ∧ status r' = AppointmentStatus.PENDING)).
Proof.
  intros Hdb Hkeyed Hget Hterminal.
  destruct (get_appointment_Some _ _ _ Hget) as [Hk Hr].
  split; [|split].
  - intros op now.
    destruct (run_row op now db k r Hdb Hkeyed Hget)
      as [?|(r' & Hr' & Hcases)]; [by left|].
    right. exists r'. split; [done|].
    destruct Hcases
      as [?|[(k2 & s & u1 & u2 & _ & Hnc & Hst)|[(-> & Hnc & Hst)|
           [(d & i & _ & Hp & _)|[?|?]]]]]; auto.
    + left. destruct Hterminal as [Ht|Ht]; congruence.
    + right. left. destruct Hterminal as [Ht|Ht]; [congruence|done].
    + destruct Hterminal as [Ht|Ht]; congruence.
  - intros selected message db'.
    assert (∀ st (message0 : nat → string),
      ('(updated, db1) ← queryset_update_status selected st db;
       Ok (message0 updated, db1)) = Ok (message, db') →
      ∃ r', get_appointment k db' = Some r'
            ∧ status r' = if decide (k ∈ selected) then st else status r)
      as Hupdate.
    { intros st message0 ([updated db1] & Hu & [= _ <-])%bind_Ok.
      unfold queryset_update_status in Hu.
      apply bind_Ok in Hu as ([] & _ & [= _ <-]).
      unfold get_appointment in *. simpl.
      rewrite head_filter_fmap_pk by (intros x; by case_decide).
      rewrite Hget. simpl. eexists. split; [done|].
      assert (ticked selected r ↔ k ∈ selected) as Hticked
        by (unfold ticked; by rewrite Hk).
      destruct (decide (k ∈ selected));
        [rewrite decide_True|rewrite decide_False]; try done; by rewrite Hticked. }
    split; intros Hm; by apply (Hupdate _ _ Hm).
  - intros now. unfold confirm_appointment. rewrite Hget.
    case_decide as Hc.
    + split; [done|]. discriminate.
    + destruct (Appointment_save _ _ _ _) as [[a' db']|e] eqn:Hs; simpl.
      * split; [split; [done|discriminate]|]. intros _.
        destruct (status_only_save (set_status AppointmentStatus.PENDING r)
                    k r _ _ _ _ k r Hk Hget Hs Hget)
          as (r' & Hr' & [[? _]|[_ Hst]]); [done|]. eauto.
      * split; [split; [done|discriminate]|discriminate].
Qed.

(** *** The patient portal *)

Lemma PatientBookingRequest_create_Ok self now db r db' :
  br_pk self = None →
  PatientBookingRequest_create self now db = (Ok r, db') →
  let normal :=
    mkPatientBookingRequest None (br_full_name self) (br_date_of_birth self)
      (br_contact_info self) (br_doctor_id self)
      (_to_local_aware (br_scheduled_time self)) (br_submitted_at self)
      (br_status self) in
  PatientBookingRequest_full_clean normal now db = Ok tt
  ∧ db' = set_notifications
            (notifications db
             ++ [mkNotification "New Patient Booking" false
                   (Some (booking_request_seq db))])
            (set_booking_request_seq (booking_request_seq db + 1)
               (set_booking_requests
                  (booking_requests db
                   ++ [mkPatientBookingRequest (Some (booking_request_seq db))
                         (br_full_name self) (br_date_of_birth self)
                         (br_contact_info self) (br_doctor_id self)
                         (from_db <$> _to_local_aware (br_scheduled_time self))
                         (Some now) (br_status self)]) db)).
Proof.
  intros Hpk. unfold PatientBookingRequest_create, PatientBookingRequest_save.
  rewrite Hpk. simpl.
  destruct (PatientBookingRequest_full_clean _ now db) as [[]|e]; simpl; [|done].
  by intros [= <- <-].
Qed.

Lemma PatientBookingRequest_create_Raise self now db e db' :
  PatientBookingRequest_create self now db = (Raise e, db') →
  db' = db ∧ ∃ errors, e = ValidationError errors.
Proof.
  unfold PatientBookingRequest_create, PatientBookingRequest_save.
  destruct (PatientBookingRequest_full_clean _ now db) as [[]|e'] eqn:Hc; simpl.
  - by destruct (br_pk self).
  - intros [= <- <-]. split; [done|].
    unfold PatientBookingRequest_full_clean in Hc.
    destruct (_ ++ _) in Hc; [done|]. injection Hc as <-. eauto.
Qed.

Lemma PatientBookingRequest_clean_free self d aware now db :
  br_doctor_id self = Some d → _to_local_aware (br_scheduled_time self) = Some aware →
  PatientBookingRequest_clean self now db = Ok tt →
  ¬ timestamp aware < now - PAST_MARGIN
  ∧ (d ≠ 0 → ¬ Exists (occupies d aware) (appointments db)).
Proof.
  intros Hd Ht. unfold PatientBookingRequest_clean. rewrite Hd, Ht.
  destruct (decide (d ≠ 0 ∧ _)) as [|Hfree]; [by destruct (decide _)|].
  destruct (decide (timestamp aware < _)) as [|Hfuture]; [done|].
  intros _. split; [done|]. intros Hd0 Hocc. by apply Hfree.
Qed.

Lemma PatientBookingRequest_clean_raises self now db e :
  PatientBookingRequest_clean self now db = Raise e →
  ∃ item errors, e = ValidationError (item :: errors).
Proof.
  unfold PatientBookingRequest_clean. cbv zeta.
  match goal with
  | |- match ?l with _ => _ end = _ → _ => destruct l as [|item errors]
  end; [done|]. intros [= <-]. eauto.
Qed.

Lemma PatientBookingRequest_full_clean_Ok self now db :
  PatientBookingRequest_full_clean self now db = Ok tt →
  PatientBookingRequest_clean_fields self db = []
  ∧ PatientBookingRequest_clean self now db = Ok tt.
Proof.
  unfold PatientBookingRequest_full_clean.
  destruct (PatientBookingRequest_clean self now db) as [[]|e] eqn:Hc.
  - rewrite app_nil_r. by destruct (PatientBookingRequest_clean_fields self db).
  - apply PatientBookingRequest_clean_raises in Hc as (item & errors & ->).
    by destruct (PatientBookingRequest_clean_fields self db).
Qed.

Lemma PatientBookingRequest_clean_fields_time self db :
  PatientBookingRequest_clean_fields self db = [] → br_scheduled_time self ≠ None.
Proof.
  unfold PatientBookingRequest_clean_fields. intros Hf Hn. rewrite Hn in Hf.
  repeat (apply app_eq_nil in Hf as [_ Hf]). done.
Qed.

(** What a request filed through the portal leaves in the store. *)
Lemma portal_request_created name dob contact doctor posted now db r db' :
  PatientBookingRequest_create
    (mkPatientBookingRequest None name dob contact (Some doctor)
       (_to_local_aware posted) None BookingRequestStatus.PENDING) now db
  = (Ok r, db') →
  ∃ dt,
    posted = Some dt
    ∧ (doctor ≠ 0 →
       ¬ Exists (occupies doctor (Aware (timestamp dt) LOCAL_TZ)) (appointments db))
    ∧ db' = set_notifications
              (notifications db
               ++ [mkNotification "New Patient Booking" false
                     (Some (booking_request_seq db))])
              (set_booking_request_seq (booking_request_seq db + 1)
                 (set_booking_requests
                    (booking_requests db
                     ++ [mkPatientBookingRequest (Some (booking_request_seq db))
                           name dob contact (Some doctor) (Some (from_db dt))
                           (Some now) BookingRequestStatus.PENDING]) db)).
Proof.
  intros Hc. apply PatientBookingRequest_create_Ok in Hc as [Hclean ->]; [|done].
  simpl in *.
  apply PatientBookingRequest_full_clean_Ok in Hclean as [Hfields Hclean].
  apply PatientBookingRequest_clean_fields_time in Hfields. simpl in Hfields.
  destruct posted as [dt|]; [|done]. exists dt. split; [done|].
  rewrite !_to_local_aware_Some in *. split; [|done].
  by apply (PatientBookingRequest_clean_free _ doctor (Aware (timestamp dt) LOCAL_TZ))
    in Hclean as [_ ?].
Qed.

(** X15. Booking through the patient portal files a request and never an
    appointment: whatever the outcome, the appointment table and its
    sequence are as before, so that no slot is taken and no queue number
    given.  When the view answers with its redirect, the request was a
    POST by a patient for an existing doctor with a time after now that
    no active appointment of the doctor holds, and exactly one request,
    PENDING, for that doctor and instant, and one notification about it
    have been stored; with any other answer the store is unchanged. *)
Theorem book_patient_files_a_request_only method role u doctor patient posted now db :
  let out := book_patient method role u doctor patient posted now db in
  appointments out.2 = appointments db
  ∧ appointment_seq out.2 = appointment_seq db
  ∧ (∀ to message, out.1 = PortalRedirect to message →
       method = POST ∧ role = "patient" ∧ doctor ∈ doctors db
       ∧ ∃ dt req,
           posted = Some dt ∧ now < timestamp dt
           ∧ (doctor ≠ 0 →
              ¬ Exists (occupies doctor (Aware (timestamp dt) LOCAL_TZ))
                  (appointments db))
           ∧ booking_requests out.2 = booking_requests db ++ [req]
           ∧ br_pk req = Some (booking_request_seq db)
           ∧ br_doctor_id req = Some doctor
           ∧ br_status req = BookingRequestStatus.PENDING
           ∧ br_scheduled_time req = Some (from_db dt)
           ∧ notifications out.2
             = notifications db
               ++ [mkNotification "New Patient Booking" false
                     (Some (booking_request_seq db))])
  ∧ ((∀ to message, out.1 ≠ PortalRedirect to message) → out.2 = db).
Proof.
  unfold book_patient.
  destruct (decide (role ≠ "patient")) as [|Hrole%dec_stable]; [done|].
  destruct (decide (doctor ∉ doctors db)) as [|Hdoctor%dec_stable]; [done|].
  destruct patient as [patient|]; [|done].
  destruct method; [done|].
  destruct (_PatientPortalBookingForm_errors posted now) as [|item errors] eqn:Hform;
    [|done].
  assert (∀ dt, posted = Some dt → now < timestamp dt) as Hfuture.
  { intros dt ->. unfold _PatientPortalBookingForm_errors in Hform.
    destruct (decide (timestamp dt ≤ now)); [done|lia]. }
  assert (∀ name,
    let created :=
      PatientBookingRequest_create
        (mkPatientBookingRequest None name (date_of_birth patient)
           (default ""
              (opt_or (opt_or (mobile patient) (Some (email u))) (Some "")))
           (Some doctor) (_to_local_aware posted) None BookingRequestStatus.PENDING)
        now db in
    (∀ e db', created = (Raise e, db') → db' = db)
    ∧ (∀ r db', created = (Ok r, db') →
         appointments db' = appointments db
         ∧ appointment_seq db' = appointment_seq db
         ∧ ∃ dt req,
             posted = Some dt ∧ now < timestamp dt
             ∧ (doctor ≠ 0 →
                ¬ Exists (occupies doctor (Aware (timestamp dt) LOCAL_TZ))
                    (appointments db))
             ∧ booking_requests db' = booking_requests db ++ [req]
             ∧ br_pk req = Some (booking_request_seq db)
             ∧ br_doctor_id req = Some doctor
             ∧ br_status req = BookingRequestStatus.PENDING
             ∧ br_scheduled_time req = Some (from_db dt)
             ∧ notifications db'
               = notifications db
                 ++ [mkNotification "New Patient Booking" false
                       (Some (booking_request_seq db))])) as Hcreate.
  { intros name created. split.
    - intros e db' He. by apply PatientBookingRequest_create_Raise in He as [-> _].
    - intros r db' Hc. apply portal_request_created in Hc as (dt & -> & Hfree & ->).
      split; [done|]. split; [done|]. eexists dt, _.
      split; [done|]. split; [by apply Hfuture|]. split; [done|].
      simpl. split_and!; done. }
  destruct (opt_or _ (username u)) as [name|].
  - destruct (Hcreate name) as [Hraise Hok].
    destruct (PatientBookingRequest_create _ now db) as [[r|e] db'] eqn:Hc; simpl.
    + destruct (Hok r db' eq_refl) as (Ha & Hs & Hreq).
      split; [done|]. split; [done|]. split; [|by intros H; destruct (H _ _ eq_refl)].
      intros to message _. split; [done|]. split; [done|]. split; [done|]. exact Hreq.
    + rewrite (Hraise e db' eq_refl). done.
  - destruct (Hcreate "") as [Hraise Hok].
    destruct (PatientBookingRequest_create _ now db) as [[r|e] db'] eqn:Hc; simpl.
    + destruct (Hok r db' eq_refl) as (Ha & Hs & Hreq).
      split; [done|]. split; [done|]. split; [|by intros H; destruct (H _ _ eq_refl)].
      intros to message _. split; [done|]. split; [done|]. split; [done|]. exact Hreq.
    + rewrite (Hraise e db' eq_refl). by destruct e.
Qed.

Lemma PatientBookingRequest_create_refused self now db item :
  item ∈ PatientBookingRequest_clean_fields
           (mkPatientBookingRequest (br_pk self) (br_full_name self)
              (br_date_of_birth self) (br_contact_info self) (br_doctor_id self)
              (_to_local_aware (br_scheduled_time self)) (br_submitted_at self)
              (br_status self)) db
  ∨ PatientBookingRequest_clean
      (mkPatientBookingRequest (br_pk self) (br_full_name self)
         (br_date_of_birth self) (br_contact_info self) (br_doctor_id self)
         (_to_local_aware (br_scheduled_time self)) (br_submitted_at self)
         (br_status self)) now db
    = Raise (ValidationError [item]) →
  ∃ errors,
    PatientBookingRequest_create self now db = (Raise (ValidationError errors), db)
    ∧ item ∈ errors.
Proof.
  intros Hitem. unfold PatientBookingRequest_create, PatientBookingRequest_save.
  cbv zeta. set (normal := mkPatientBookingRequest _ _ _ _ _ _ _ _) in *.
  unfold PatientBookingRequest_full_clean.
  set (errors := PatientBookingRequest_clean_fields normal db ++ _).
  assert (item ∈ errors) as Hin.
  { unfold errors. apply elem_of_app. destruct Hitem as [?| ->]; [by left|].
    right. by apply list_elem_of_singleton. }
  exists errors. split; [|done].
  destruct errors; [by apply elem_of_nil in Hin|done].
Qed.

(** X16. The portal view catches no validation error of the model.  A
    POST by a patient that leaves the time empty, which the form accepts,
    and a POST for a time after now that an active appointment of the
    doctor holds, which the form does not check, both end in the model's
    ValidationError escaping from the view; nothing is stored. *)
Theorem book_patient_lets_model_errors_escape u doctor patient posted now db :
  doctor ∈ doctors db →
  let out := book_patient POST "patient" u doctor (Some patient) posted now db in
  (posted = None →
   ∃ errors,
     out = (PortalError (ValidationError errors), db)
     ∧ ("scheduled_time", "null") ∈ errors)
  ∧ (∀ dt, posted = Some dt → now < timestamp dt → doctor ≠ 0 →
       Exists (occupies doctor (Aware (timestamp dt) LOCAL_TZ)) (appointments db) →
       ∃ errors,
         out = (PortalError (ValidationError errors), db)
         ∧ ("scheduled_time", "This time is already allocated for this doctor.")
           ∈ errors).
Proof.
  intros Hdoctor out.
  assert (∀ item,
    item ≠ ("full_name", "blank") →
    _PatientPortalBookingForm_errors posted now = [] →
    (∀ name,
       let self :=
         mkPatientBookingRequest None name (date_of_birth patient)
           (default ""
              (opt_or (opt_or (mobile patient) (Some (email u))) (Some "")))
           (Some doctor) (_to_local_aware posted) None BookingRequestStatus.PENDING in
       item ∈ PatientBookingRequest_clean_fields self db
       ∨ PatientBookingRequest_clean self now db = Raise (ValidationError [item])) →
    ∃ errors, out = (PortalError (ValidationError errors), db) ∧ item ∈ errors)
    as Hescape.
  { intros item Hitem Hform Hrefused. unfold out, book_patient.
    rewrite decide_False by (by intros ?). rewrite decide_False by (by intros ?).
    rewrite Hform.
    destruct (opt_or _ (username u)) as [name|].
    - destruct (PatientBookingRequest_create_refused
                  (mkPatientBookingRequest None name (date_of_birth patient)
                     (default ""
                        (opt_or (opt_or (mobile patient) (Some (email u))) (Some "")))
                     (Some doctor) (_to_local_aware posted) None
                     BookingRequestStatus.PENDING) now db item)
        as (errors & -> & Hin); [|by eauto].
      destruct posted as [[]|]; apply (Hrefused name).
    - destruct (PatientBookingRequest_create_refused
                  (mkPatientBookingRequest None "" (date_of_birth patient)
                     (default ""
                        (opt_or (opt_or (mobile patient) (Some (email u))) (Some "")))
                     (Some doctor) (_to_local_aware posted) None
                     BookingRequestStatus.PENDING) now db item)
        as (errors & -> & Hin).
      { destruct posted as [[]|]; apply (Hrefused ""). }
      eexists. split; [done|].
      apply list_elem_of_fmap. exists item. split; [|done].
      by rewrite decide_False. }
  split.
  - intros ->. apply Hescape; [done|done|]. intros name self. left.
    unfold PatientBookingRequest_clean_fields. simpl.
    rewrite !elem_of_app. right. right. right. by left.
  - intros dt -> Hfuture Hd Hocc. apply Hescape; [done| |].
    + unfold _PatientPortalBookingForm_errors. simpl.
      rewrite (decide_False (P := timestamp dt ≤ now)) by lia.
      by rewrite decide_False by (unfold PAST_MARGIN, MINUTE; lia).
    + intros name self. right. unfold PatientBookingRequest_clean, self.
      cbn [br_scheduled_time br_doctor_id]. rewrite !_to_local_aware_Some.
      cbn [timestamp localtime].
      rewrite (decide_False (P := timestamp dt < now - PAST_MARGIN))
        by (unfold PAST_MARGIN, MINUTE; lia).
      by rewrite decide_True.
Qed.



(** *** Keys *)

Lemma Appointment_save_inserts a now db a' db' :
  pk a = None → Appointment_save a None now db = Ok (a', db') →
  ∃ self, pk self = None ∧ insert_row self now db = Ok (a', db').
Proof.
  intros Hpk Hs. destruct (scheduled_time a) as [dt|] eqn:Ht.
  - destruct (created_success a dt now db a' db' Hpk Ht Hs) as (_ & _ & Hi).
    by exists (created a dt db).
  - rewrite Appointment_save_unnumbered in Hs by auto.
    apply bind_Ok in Hs as ([] & _ & Hm).
    unfold Model_save in Hm. simpl in Hm. rewrite Hpk in Hm.
    by exists (normalised a).
Qed.

Lemma keyed_below db k x :
  keyed db → x ∈ appointments db → pk x = Some k → k < appointment_seq db.
Proof.
  intros Hk Hx Hpk. destruct (keyed_elem _ _ Hk Hx) as (k' & Hk' & Hlt). congruence.
Qed.

(** X17. An appointment that [save] has created can be loaded by the key
    it was given, which is the next of the sequence and was not in use;
    every other key loads what it loaded before.  Deleting the
    appointment as an administrator leaves the table as it was before the
    creation, but not the sequence: the key is not given again.  A user who
    is not an administrator deletes nothing. *)
Theorem created_appointment_loads_and_deletes a now db a' db' :
  constraints db → keyed db → pk a = None →
  Appointment_save a None now db = Ok (a', db') →
  let k := appointment_seq db in
  pk a' = Some k
  ∧ get_appointment k db = None
  ∧ get_appointment k db' = Some (to_row a')
  ∧ (∀ k2, k2 ≠ k → get_appointment k2 db' = get_appointment k2 db)
  ∧ (delete_appointment POST true k db').2 = set_appointment_seq (k + 1) db
  ∧ (∀ method, (delete_appointment method false k db').2 = db').
Proof.
  intros Hc Hk Hpk Hs. cbv zeta.
  apply Appointment_save_inserts in Hs as (self & Hself & Hi); [|done].
  unfold insert_row in Hi. rewrite Hself in Hi.
  apply bind_Ok in Hi as ([] & _ & [= <- <-]).
  set (k := appointment_seq db).
  assert (∀ x, x ∈ appointments db → pk x ≠ Some k) as Hfresh.
  { intros x Hx Hkx. pose proof (keyed_below db k x Hk Hx Hkx). lia. }
  assert (filter (λ x, pk x = Some k) (appointments db) = []) as Hnone.
  { apply filter_none. intros x Hx Hkx. by apply (Hfresh x). }
  set (row := to_row (set_created_at (Some now) (set_pk (Some k) self))).
  assert (pk row = Some k) as Hrow by done.
  assert (get_appointment k
            (set_appointment_seq (k + 1)
               (set_appointments (appointments db ++ [row]) db))
          = Some row) as Hget.
  { unfold get_appointment. simpl. rewrite filter_app, Hnone. simpl.
    by rewrite filter_cons_True. }
  split; [done|]. split; [by unfold get_appointment; rewrite Hnone|].
  split; [exact Hget|]. split; [|split].
  - intros k2 Hk2. unfold get_appointment. simpl. rewrite filter_app.
    rewrite (filter_cons_False _ row) by (rewrite Hrow; congruence).
    by rewrite filter_nil, app_nil_r.
  - unfold delete_appointment. rewrite Hget. simpl.
    rewrite filter_app, (filter_cons_False _ row), filter_nil, app_nil_r
      by (rewrite Hrow; tauto).
    rewrite filter_all; [by destruct db|]. exact Hfresh.
  - intros method. unfold delete_appointment. by rewrite Hget.
Qed.

(** *** A request for a slot that has been booked *)

Lemma PatientBookingRequest_save_refused self now db item :
  item ∈ PatientBookingRequest_clean_fields
           (mkPatientBookingRequest (br_pk self) (br_full_name self)
              (br_date_of_birth self) (br_contact_info self) (br_doctor_id self)
              (_to_local_aware (br_scheduled_time self)) (br_submitted_at self)
              (br_status self)) db
  ∨ PatientBookingRequest_clean
      (mkPatientBookingRequest (br_pk self) (br_full_name self)
         (br_date_of_birth self) (br_contact_info self) (br_doctor_id self)
         (_to_local_aware (br_scheduled_time self)) (br_submitted_at self)
         (br_status self)) now db
    = Raise (ValidationError [item]) →
  ∃ errors,
    PatientBookingRequest_save self now db = Raise (ValidationError errors)
    ∧ item ∈ errors.
Proof.
  intros Hitem.
  destruct (PatientBookingRequest_create_refused self now db item Hitem)
    as (errors & Hc & Hin).
  exists errors. split; [|done]. unfold PatientBookingRequest_create in Hc.
  destruct (PatientBookingRequest_save self now db) as [[]|e]; [done|].
  by injection Hc as <-.
Qed.

Lemma PatientBookingRequest_clean_allocated self d dt now db :
  br_doctor_id self = Some d → d ≠ 0 → br_scheduled_time self = Some dt →
  Exists (occupies d (Aware (timestamp dt) LOCAL_TZ)) (appointments db) →
  PatientBookingRequest_clean self now db
  = Raise (ValidationError
      [("scheduled_time", "This time is already allocated for this doctor.")]).
Proof.
  intros Hd Hd0 Ht Hocc. unfold PatientBookingRequest_clean.
  rewrite Hd, Ht, !_to_local_aware_Some.
  rewrite (decide_True (P := d ≠ 0 ∧ _)) by done.
  by case_decide.
Qed.

(** X18. Once an active appointment holds the doctor and the instant of a
    booking request, the request cannot be saved any more, whatever is to
    be changed in it, its status included: [save] validates first and
    raises the already-allocated error.  This is so in particular after
    [save] has created the appointment the request asked for, on any
    store and at any later time. *)
Theorem request_for_a_booked_slot_cannot_be_saved self d dt db :
  br_doctor_id self = Some d → d ≠ 0 → br_scheduled_time self = Some dt →
  (Exists (occupies d (Aware (timestamp dt) LOCAL_TZ)) (appointments db) →
   ∀ now, ∃ errors,
     PatientBookingRequest_save self now db = Raise (ValidationError errors)
     ∧ ("scheduled_time", "This time is already allocated for this doctor.")
       ∈ errors)
  ∧ (∀ a now a' db',
       pk a = None → doctor_id a = d →
       (timestamp <$> scheduled_time a) = Some (timestamp dt) →
       status a ≠ AppointmentStatus.CANCELLED →
       Appointment_save a None now db = Ok (a', db') →
       ∀ later, ∃ errors,
         PatientBookingRequest_save self later db'
           = Raise (ValidationError errors)
         ∧ ("scheduled_time", "This time is already allocated for this doctor.")
           ∈ errors).
Proof.
  intros Hd Hd0 Ht.
  assert (∀ db0, Exists (occupies d (Aware (timestamp dt) LOCAL_TZ)) (appointments db0) →
    ∀ now, ∃ errors,
      PatientBookingRequest_save self now db0 = Raise (ValidationError errors)
      ∧ ("scheduled_time", "This time is already allocated for this doctor.")
        ∈ errors) as Hrefused.
  { intros db0 Hocc now. apply PatientBookingRequest_save_refused. right.
    apply (PatientBookingRequest_clean_allocated _ d (Aware (timestamp dt) LOCAL_TZ));
      [done|done|simpl; by rewrite Ht, _to_local_aware_Some|done]. }
  split; [apply Hrefused|].
  intros a now a' db' Hpk Hda Hta Hsa Hs later. apply Hrefused.
  destruct (scheduled_time a) as [dta|] eqn:Htime; [|done].
  injection Hta as Hta.
  destruct (created_success a dta now db a' db' Hpk Htime Hs) as (_ & _ & Hi).
  unfold insert_row in Hi. apply bind_Ok in Hi as ([] & _ & [= <- <-]).
  simpl. apply Exists_app. right. apply Exists_cons_hd.
  split; [done|]. split; [simpl; by rewrite Hta|done].
Qed.


(** *** Editing *)

Lemma NoDup_omap_replace {B} (f : Appointment -> option B)
    (g : Appointment -> Appointment) k new l :
  (∀ x, pk x = Some k → g x = new) → (∀ x, pk x ≠ Some k → g x = x) →
  NoDup (pk <$> l) → NoDup (omap f l) →
  (∀ x v, x ∈ l → pk x ≠ Some k → f new = Some v → f x ≠ Some v) →
  NoDup (omap f (g <$> l)).
Proof.
  intros Hin Hout. induction l as [|x l IH]; [constructor|].
  rewrite fmap_cons. intros [Hx Hpk]%NoDup_cons Hnd Hnew.
  assert (NoDup (omap f l)) as Hnd'.
  { eapply sublist_NoDup; [exact Hnd|]. apply omap_sublist. by apply sublist_cons. }
  assert (NoDup (omap f (g <$> l))) as Hl.
  { apply IH; [done..|]. intros y v Hy. apply Hnew. by right. }
  rewrite fmap_cons. csimpl. destruct (f (g x)) as [w|] eqn:Hw; [|done].
  apply NoDup_cons. split; [|done].
  intros (y' & (y & -> & Hy)%list_elem_of_fmap & Hfy)%list_elem_of_omap.
  destruct (decide (pk x = Some k)) as [Hkx|Hkx],
           (decide (pk y = Some k)) as [Hky|Hky].
  - apply Hx. rewrite Hkx, <-Hky. by apply list_elem_of_fmap_2.
  - rewrite (Hin x Hkx) in Hw. rewrite (Hout y Hky) in Hfy.
    by apply (Hnew y w); [right|..].
  - rewrite (Hout x Hkx) in Hw. rewrite (Hin y Hky) in Hfy.
    by apply (Hnew x w); [left|..].
  - rewrite (Hout x Hkx) in Hw. rewrite (Hout y Hky) in Hfy.
    csimpl in Hnd. rewrite Hw in Hnd. apply NoDup_cons in Hnd as [Hn _].
    apply Hn. apply list_elem_of_omap. eauto.
Qed.

Lemma clashes_overlapping self_pk doctor aware x :
  clashes self_pk doctor aware x → overlapping self_pk doctor aware x.
Proof.
  intros (Hpk & Hd & Ht & _). split; [done|]. split; [|done].
  exists (timestamp aware). split; [done|]. unfold MINUTE. lia.
Qed.

(** X19. Editing a stored appointment with POST.  Data the form refuses
    re-display the page and leave the store.  Data the form accepts keep
    the key and the queue number of the row, and no other appointment of
    the doctor is within a minute of the time.  The edit then succeeds, and
    the row loads as the normal form of the edited appointment with every
    other row untouched, exactly when no other active row holds that
    number for the doctor on the day the edit moves to.  When one does,
    [save] refuses the instance before anything is written: its
    [full_clean] raises the ValidationError of the queue-number
    constraint, which the view does not catch, so that the request ends in
    a server error and the store is left as it was.  The page the view
    keeps for a conflict in the store is never answered. *)
Theorem edit_appointment_outcomes data k r now db :
  constraints db → get_appointment k db = Some r →
  match AppointmentForm_full_clean r data now db with
  | Raise _ =>
    edit_appointment POST data k now db
    = (render "appointments/edit_appointment.html"
         (Some (error, "❌ Please correct the errors below.")), db)
  | Ok appt =>
    pk appt = Some k ∧ queue_number appt = queue_number r
    ∧ (number_held_by_another appt db →
       edit_appointment POST data k now db
       = (ServerError (ValidationError
            [("__all__", "Constraint “uq_doctor_day_queue_active” is violated.")]),
          db))
    ∧ (¬ number_held_by_another appt db →
       ∃ db',
         edit_appointment POST data k now db
         = (redirect "appointments:appointment_list"
              (Some (success, "✅ Appointment updated successfully.")), db')
         ∧ constraints db'
         ∧ get_appointment k db' = Some (to_row (normalised appt))
         ∧ ∀ k2, k2 ≠ k → get_appointment k2 db' = get_appointment k2 db)
  end
  ∧ (edit_appointment POST data k now db).1
    ≠ render "appointments/edit_appointment.html"
        (Some (error, "❌ This time slot is already booked for this doctor.")).
Proof.
  intros Hc Hget. pose proof Hc as (Hpk & Htime & Hqueue).
  destruct (get_appointment_Some _ _ _ Hget) as [Hk Hr].
  unfold edit_appointment. rewrite Hget.
  destruct (AppointmentForm_full_clean r data now db) as [appt|e] eqn:Hf; [|done].
  destruct (AppointmentForm_full_clean_Ok _ _ _ _ _ Hf)
    as (p & d & dt & st & _ & Hp & _ & Hd & _ & Hfuture & _ & Hamt & Hover & Happt).
  rewrite Hk in Happt, Hover.
  assert (set_scheduled_time (_to_local_aware (scheduled_time appt)) appt = appt)
    as -> by (by rewrite Happt).
  rewrite Appointment_save_unnumbered by (left; rewrite Happt; done).
  assert (pk (normalised appt) = Some k) as Hkn by (by rewrite Happt).
  assert (Appointment_validate_constraints (normalised appt) [] db
          = UniqueConstraint_validate "uq_doctor_day_queue_active"
              ["doctor"; "scheduled_day"; "queue_number"] key_queue
              (normalised appt) [] db) as Hvc.
  { unfold Appointment_validate_constraints.
    rewrite UniqueConstraint_validate_nil; [done|].
    intros [dv tv] x Hv Hx Ho Hxv. unfold other_row in Ho. rewrite Hkn in Ho.
    apply Hover, Exists_exists. exists x.
    split; [done|]. apply clashes_overlapping.
    rewrite Happt in Hv.
    apply key_time_Some in Hv as (_ & Hdv & [= Htv]).
    apply key_time_Some in Hxv as (Hax & Hdx & Htx). simpl in *.
    split; [done|]. split; [congruence|].
    split; [by rewrite Htx, Htv|done]. }
  assert (Appointment_full_clean (normalised appt) now db
          = match Appointment_validate_constraints (normalised appt) [] db with
            | [] => Ok tt
            | errors => Raise (ValidationError errors)
            end) as Hfc.
  { apply Appointment_full_clean_constraints; rewrite Happt.
    - unfold fields_valid. simpl. split; [done|]. split; [done|]. lia.
    - done.
    - unfold Appointment_clean. simpl.
      rewrite decide_False by (unfold PAST_MARGIN in *; lia).
      rewrite decide_False; [done|].
      intros (x & Hx & Hcl)%Exists_exists. apply Hover, Exists_exists.
      exists x. split; [done|]. by apply clashes_overlapping. }
  rewrite Hfc, Hvc.
  destruct (decide (number_held_by_another appt db)) as [Hheld|Hfree].
  { pose proof Hheld
      as (Hact & (x & Hx & Hkx & Hsx & Hdx & Hday & Hdayeq & Hq & Hqeq)%Exists_exists).
    destruct (scheduled_day x) as [day|] eqn:Hsd; [|done].
    destruct (queue_number x) as [q|] eqn:Hqx; [|done].
    rewrite (UniqueConstraint_validate_violated _ _ key_queue (normalised appt) db
               (doctor_id appt, day, q) x).
    - simpl. split; [|done].
      split; [by rewrite Happt|]. split; [by rewrite Happt|].
      split; [done|]. by intros [].
    - apply key_queue_Some. simpl.
      change (lookup_date <$> scheduled_time appt)
        with (local_day <$> scheduled_time appt).
      by rewrite <-Hdayeq, <-Hqeq.
    - done.
    - unfold other_row. rewrite Hkn. intros Hxk. apply Hkx.
      by rewrite Hxk, Happt.
    - by apply key_queue_Some. }
  rewrite UniqueConstraint_validate_nil.
  2:{ intros [[dv day] q] x Hv Hx Ho Hxv. unfold other_row in Ho. rewrite Hkn in Ho.
      apply Hfree.
      apply key_queue_Some in Hv as (Ha & Hdv & Hday & Hq).
      apply key_queue_Some in Hxv as (Hax & Hdx & Hdayx & Hqx). simpl in *.
      split; [done|]. apply Exists_exists. exists x. split; [done|].
      assert (pk appt = Some k) as -> by (by rewrite Happt).
      rewrite Hdayx, Hqx, Hq. split_and!; try done; congruence. }
  change (Ok tt ≫= λ _, Model_save (normalised appt) None now db)
    with (Model_save (normalised appt) None now db).
  set (new := write_fields None (normalised appt) r).
  set (g := λ x, if decide (pk x = Some k) then write_fields None (normalised appt) x
                 else x).
  assert (∀ x, pk x = Some k → g x = new) as Hin.
  { intros x Hx. unfold g, new. rewrite decide_True by done.
    by rewrite !write_fields_all, Hx, Hk. }
  assert (∀ x, pk x ≠ Some k → g x = x) as Hout.
  { intros x Hx. unfold g. by rewrite decide_False. }
  assert (∀ x, pk (g x) = pk x) as Hgpk.
  { intros x. unfold g. by case_decide. }
  assert (new = to_row (normalised appt)) as Hnew.
  { unfold new. rewrite write_fields_all, Hk, Happt. reflexivity. }
  assert (key_queue new = key_queue (normalised appt)) as Hkq
    by (by rewrite Hnew).
  assert (pk_unique (g <$> appointments db)) as Hpk'.
  { unfold pk_unique. rewrite <-list_fmap_compose.
    erewrite list_fmap_ext; [exact Hpk|]. intros i x _. apply Hgpk. }
  assert (uq_doctor_time_not_cancelled (g <$> appointments db)) as Htime'.
  { apply (NoDup_omap_replace key_time g k new); [done..|].
    intros x v Hx Hkx Hv Hxv. apply Hover, Exists_exists. exists x.
    split; [done|]. apply clashes_overlapping.
    destruct v as [dv tv]. rewrite Hnew, Happt in Hv.
    apply key_time_Some in Hv as (_ & Hdv & [= Htv]).
    apply key_time_Some in Hxv as (Hax & Hdx & Htx). simpl in *.
    split; [done|]. split; [congruence|].
    split; [by rewrite Htx, Htv|done]. }
  assert (uq_doctor_day_queue_active (g <$> appointments db)) as Hq'.
  { apply (NoDup_omap_replace key_queue g k new); [done..|].
    intros x [[dv day] q] Hx Hkx Hv Hxv. rewrite Hkq in Hv.
    apply Hfree.
    apply key_queue_Some in Hv as (Ha & Hdv & Hday & Hq).
    apply key_queue_Some in Hxv as (Hax & Hdx & Hdayx & Hqx). simpl in *.
    split; [done|]. apply Exists_exists. exists x. split; [done|].
    assert (pk appt = Some k) as -> by (by rewrite Happt).
    rewrite Hdayx, Hqx, Hq. split_and!; try done; congruence. }
  assert (Model_save (normalised appt) None now db
          = Ok (normalised appt, set_appointments (g <$> appointments db) db))
    as Hsave.
  { unfold Model_save. rewrite Hkn, Hget. unfold update_row. fold g.
    by rewrite (proj2 (check_constraints_Ok _)). }
  rewrite Hsave. simpl. split; [|done].
  split; [by rewrite Happt|]. split; [by rewrite Happt|]. split; [done|].
  intros _. exists (set_appointments (g <$> appointments db) db).
  split; [done|]. split; [by destruct db|]. split.
  - unfold get_appointment in *. simpl. rewrite head_filter_fmap_pk by done.
    rewrite Hget. simpl. by rewrite (Hin r Hk), Hnew.
  - intros k2 Hk2. unfold get_appointment. simpl.
    rewrite head_filter_fmap_pk by done.
    destruct (head (filter (λ x, pk x = Some k2) (appointments db)))
      as [y|] eqn:Hy; [|done].
    simpl. f_equal. apply Hout.
    apply head_Some_elem_of, list_elem_of_filter in Hy as [Hy _]. congruence.
Qed.


(** *** The booking requests in the admin *)

Lemma br_ticked_set_br_status selected st r :
  br_ticked selected (set_br_status st r) ↔ br_ticked selected r.
Proof. done. Qed.

Lemma booking_requests_update_status_absorbs selected st st' db :
  booking_requests_update_status selected st'
    (booking_requests_update_status selected st db).2
  = booking_requests_update_status selected st' db.
Proof.
  unfold booking_requests_update_status. simpl. f_equal.
  - induction (booking_requests db) as [|r rows IH]; [done|].
    rewrite fmap_cons, !filter_cons.
    destruct (decide (br_ticked selected r)) as [Hr|Hr].
    + rewrite decide_True by done. simpl. by rewrite IH.
    + rewrite decide_False by done. exact IH.
  - destruct db as [ds ps rows n reqs m notes]. unfold set_booking_requests. simpl.
    f_equal. rewrite <-list_fmap_compose. apply list_fmap_ext.
    intros i r _. simpl. destruct (decide (br_ticked selected r)) as [Hr|Hr].
    + by rewrite decide_True.
    + by rewrite decide_False.
Qed.

(** X20. The two status actions of the booking-request admin write the
    status and nothing else, without validation.  Confirming creates no
    appointment and no notification and gives no key; exactly the
    ticked requests become CONFIRMED, the others stay as they are, and the
    message counts the ticked ones, also those that were confirmed before,
    so that a second run shows the same message and changes nothing.  The
    later of two actions on the same selection wins.  A ticked request
    whose slot an active appointment holds is confirmed like any other,
    although [save] refuses to write that very change. *)
Theorem admin_request_actions selected db :
  let confirmed := (mark_as_confirmed selected db).2 in
  (appointments confirmed = appointments db
   ∧ appointment_seq confirmed = appointment_seq db
   ∧ booking_request_seq confirmed = booking_request_seq db
   ∧ notifications confirmed = notifications db)
  ∧ (mark_as_confirmed selected db).1
    = pretty (length (filter (br_ticked selected) (booking_requests db)))
      +:+ " booking request(s) marked as confirmed."
  ∧ Forall2 (λ r r',
       if decide (br_ticked selected r)
       then r' = set_br_status BookingRequestStatus.CONFIRMED r
       else r' = r) (booking_requests db) (booking_requests confirmed)
  ∧ mark_as_confirmed selected confirmed = mark_as_confirmed selected db
  ∧ mark_as_rejected selected confirmed = mark_as_rejected selected db
  ∧ (∀ r d dt now,
       r ∈ booking_requests db → br_ticked selected r →
       br_doctor_id r = Some d → d ≠ 0 → br_scheduled_time r = Some dt →
       Exists (occupies d (Aware (timestamp dt) LOCAL_TZ)) (appointments db) →
       set_br_status BookingRequestStatus.CONFIRMED r ∈ booking_requests confirmed
       ∧ ∃ errors,
           PatientBookingRequest_save
             (set_br_status BookingRequestStatus.CONFIRMED r) now db
           = Raise (ValidationError errors)).
Proof.
  cbv zeta.
  pose proof (booking_requests_update_status_absorbs selected
                BookingRequestStatus.CONFIRMED BookingRequestStatus.CONFIRMED db) as Hcc.
  pose proof (booking_requests_update_status_absorbs selected
                BookingRequestStatus.CONFIRMED BookingRequestStatus.REJECTED db) as Hcr.
  assert ((mark_as_confirmed selected db).2
          = (booking_requests_update_status selected
               BookingRequestStatus.CONFIRMED db).2) as Hsnd by reflexivity.
  split; [by destruct db|]. split; [done|]. split; [|split; [|split]].
  - simpl. apply Forall2_fmap_r, Forall_Forall2_diag, Forall_forall.
    intros r _. simpl. by destruct (decide (br_ticked selected r)).
  - rewrite Hsnd. unfold mark_as_confirmed at 1. rewrite Hcc. reflexivity.
  - rewrite Hsnd. unfold mark_as_rejected at 1. rewrite Hcr. reflexivity.
  - intros r d dt now Hr Htick Hd Hd0 Ht Hocc. split.
    + simpl. apply list_elem_of_fmap. exists r. split; [|done].
      by rewrite decide_True.
    + destruct (PatientBookingRequest_save_refused
                  (set_br_status BookingRequestStatus.CONFIRMED r) now db
                  ("scheduled_time", "This time is already allocated for this doctor."))
        as (errors & Hs & _); [|by exists errors].
      right.
      apply (PatientBookingRequest_clean_allocated _ d (Aware (timestamp dt) LOCAL_TZ));
        [done|done|simpl; by rewrite Ht, _to_local_aware_Some|done].
Qed.

End MoreProperties.


(** ** The desk of the example clinic *)

Section DeskCases.

Import Examples Desk.

#[local] Existing Instance baghdad.
#[local] Existing Instance clinic.

(** The store after the 09:00 booking is cancelled is well formed. *)
Lemma views_keep_store_well_formed_witness :
  well_formed (run (op_cancel 1 None "" "secretary") (clock 8 0) booked).
Proof.
  apply (proj2 (views_keep_store_well_formed [1; 2] [10; 11])); [exact I|].
  compute_done.
Defined.


(** C2, as stated, fails.  The 09:00 appointment is COMPLETED by
    call-next, and a confirm then puts it back to PENDING; so does an edit
    whose form holds PENDING, and the admin action marks it cancelled.
    The cancelled 09:00 appointment is put back to PENDING by such an
    edit and by a [save] of the row with that status, and the admin
    action marks it completed. *)
Lemma terminal_statuses_left :
  (reachable [1; 2] [10; 11] called
   ∧ (status <$> get_appointment 1 called) = Some AppointmentStatus.COMPLETED
   ∧ (confirm_appointment POST 1 (clock 8 0) called).1
     = redirect "appointments:appointment_list"
         (Some (success, "Appointment confirmed."))
   ∧ (status <$> get_appointment 1 (run (op_confirm 1) (clock 8 0) called))
     = Some AppointmentStatus.PENDING
   ∧ (edit_appointment POST form_0900 1 (clock 8 0) called).1
     = redirect "appointments:appointment_list"
         (Some (success, "✅ Appointment updated successfully."))
   ∧ (status <$> get_appointment 1 (run (op_edit 1 form_0900) (clock 8 0) called))
     = Some AppointmentStatus.PENDING
   ∧ ∃ message db',
       mark_cancelled [1] called = Ok (message, db')
       ∧ (status <$> get_appointment 1 db') = Some AppointmentStatus.CANCELLED)
  ∧ reachable [1; 2] [10; 11] cancelled
  ∧ (status <$> get_appointment 1 cancelled) = Some AppointmentStatus.CANCELLED
  ∧ (edit_appointment POST form_0900 1 (clock 8 0) cancelled).1
    = redirect "appointments:appointment_list"
        (Some (success, "✅ Appointment updated successfully."))
  ∧ (status <$> get_appointment 1 (run (op_edit 1 form_0900) (clock 8 0) cancelled))
    = Some AppointmentStatus.PENDING
  ∧ (∃ message db',
       mark_completed [1] cancelled = Ok (message, db')
       ∧ (status <$> get_appointment 1 db') = Some AppointmentStatus.COMPLETED)
  ∧ ∃ r, get_appointment 1 cancelled = Some r
         ∧ (status <$> get_appointment 1
              (run (op_save (set_status AppointmentStatus.PENDING r) (Some ["status"]))
                 (clock 8 0) cancelled))
           = Some AppointmentStatus.PENDING.
Proof.
  split; [split; [apply reachable_called|]|split; [apply reachable_cancelled|]].
  - do 5 (split; [vm_compute; reflexivity|]).
    eexists _, _. split; vm_compute; reflexivity.
  - do 3 (split; [vm_compute; reflexivity|]).
    split; [eexists _, _; split; vm_compute; reflexivity|].
    eexists. split; [vm_compute; reflexivity|]. vm_compute. reflexivity.
Qed.

(** The cancelled 09:00 appointment: whatever the operation, it stays
    CANCELLED unless it is deleted, edited or saved. *)
Lemma terminal_statuses_witness :
  ∃ r, get_appointment 1 cancelled = Some r
       ∧ status r = AppointmentStatus.CANCELLED
       ∧ ∀ op now,
           (op = op_delete 1 ∧ get_appointment 1 (run op now cancelled) = None)
           ∨ ∃ r', get_appointment 1 (run op now cancelled) = Some r'
                   ∧ (status r' = AppointmentStatus.CANCELLED
                      ∨ (∃ data, op = op_edit 1 data
                                 ∧ f_status data = Some (status r'))
                      ∨ (∃ a uf, op = op_save a uf ∧ pk a = Some 1
                                 ∧ status a = status r')).
Proof.
  assert (∃ r, get_appointment 1 cancelled = Some r
               ∧ status r = AppointmentStatus.CANCELLED)
    as (r & Hget & Hst) by (eexists; split; vm_compute; reflexivity).
  exists r. split; [exact Hget|]. split; [exact Hst|].
  assert (constraints cancelled) as Hc by compute_done.
  assert (keyed cancelled) as Hk by compute_done.
  intros op now.
  destruct (proj1 (terminal_statuses cancelled 1 r Hc Hk Hget (or_introl Hst)) op now)
    as [Hdel|(r' & Hr' & Hcases)]; [left; exact Hdel|].
  right. exists r'. split; [exact Hr'|].
  destruct Hcases as [Hsame|[(Hcompleted & _)|[Hedit|Hsave]]].
  - left. rewrite Hsame. exact Hst.
  - rewrite Hst in Hcompleted. discriminate Hcompleted.
  - right. left. exact Hedit.
  - right. right. exact Hsave.
Defined.

(** At 10:00 call-next does not complete the 09:00 appointment. *)
Lemma overdue_appointment_not_saved_witness :
  ∃ errors,
    call_next_api POST None 1 (clock 10 0) booked
      = (ServerError (ValidationError errors), booked)
    ∧ ("scheduled_time", "Cannot book an appointment in the past.") ∈ errors.
Proof.
  assert (∃ r, get_appointment 1 booked = Some r
               ∧ scheduled_time r = Some (from_db (at_local 9 0))
               ∧ earliest (base_qs 1 (localdate (clock 10 0)) booked) = Some r)
    as (r & Hget & Ht & He) by (eexists; repeat split; vm_compute; reflexivity).
  assert (timestamp (from_db (at_local 9 0)) < clock 10 0 - PAST_MARGIN) as Hpast
    by (vm_compute; reflexivity).
  exact (proj2 (proj2 (overdue_appointment_not_saved booked 1 r
                         (from_db (at_local 9 0)) (clock 10 0) Hget Ht Hpast)) 1 He).
Defined.



(** On the busy day 10:00 is free for doctor 1, though doctor 2 has an
    appointment at that instant and doctor 1 others at 09:00 and 09:30:
    both forms accept the time, and so do both models. *)
Lemma form_checks_cover_model_checks_witness :
  Appointment_clean (booking 11 1 10 0) (clock 0 0) busy_day = Ok tt
  ∧ PatientBookingRequest_clean (request 10 0) (clock 0 0) busy_day = Ok tt.
Proof.
  assert (AppointmentForm_clean_scheduled_time (Some (at_local 10 0)) (clock 0 0)
          = Ok (Some (at_local 10 0))) as Htime by (vm_compute; reflexivity).
  assert (AppointmentForm_clean None (Some 1) (Some (at_local 10 0)) None busy_day
          = Ok 0) as Hform by (vm_compute; reflexivity).
  assert (PatientBookingForm_clean_scheduled_time (Some (at_local 10 0)) (clock 0 0)
          = Ok (Some (at_local 10 0))) as Htime' by (vm_compute; reflexivity).
  assert (PatientBookingForm_clean (Some 1) (Some (at_local 10 0)) busy_day = Ok tt)
    as Hform' by (vm_compute; reflexivity).
  split.
  - exact (proj1 (form_checks_cover_model_checks (at_local 10 0) (at_local 10 0)
                    (clock 0 0) busy_day) None 1 None 0 (booking 11 1 10 0)
             Htime Hform eq_refl eq_refl eq_refl).
  - exact (proj2 (form_checks_cover_model_checks (at_local 10 0) (at_local 10 0)
                    (clock 0 0) busy_day) 1 (request 10 0)
             Htime' Hform' eq_refl eq_refl).
Defined.


(** Doctor 1's user has no names and an address as username: the part
    before the at-sign is shown.  A user whose last name is a no-break
    space, with no first name and no username, has no display name. *)
Lemma display_names_never_empty_witness :
  (_user_name amal = Some "amal"
   ∧ "amal" ≠ "" ∧ contains_at "amal" = false)
  ∧ _user_name
      (mkUser "" (String (ascii_of_nat 194) (String (ascii_of_nat 160) "")) None "")
    = None.
Proof.
  assert (_user_name amal = Some "amal") as Hname by reflexivity.
  split.
  - split; [exact Hname|].
    destruct (proj1 display_names_never_empty amal "amal" Hname) as [Hne Hat].
    split; [exact Hne|]. by apply Hat.
  - apply (proj1 (proj2 (proj2 display_names_never_empty))).
    split; [reflexivity|]. split; [vm_compute; reflexivity|reflexivity].
Defined.

(** The snapshot of the busy day at midnight has the queues of doctor 1
    and doctor 2.  For doctor 1 the current patient is the 01:00
    appointment (key 2) and the 09:00 one (key 1) waits; the cancelled
    appointment and the one of the 11th are not shown.  For doctor 2 the
    09:00 appointment is current and the three others wait in order. *)
Lemma snapshot_shows_the_queue_of_call_next_witness :
  ∃ q1 q2,
    _queue_snapshot_internal (clock 0 0) busy_day = Some [q1; q2]
    ∧ iq_doctor_id q1 = 1
    ∧ (ie_id <$> iq_current_patient q1) = Some (Some 2)
    ∧ (ie_id <$> iq_waiting_list q1) = [Some 1]
    ∧ (ie_id <$> iq_current_patient q2) = Some (Some 5)
    ∧ (ie_id <$> iq_waiting_list q2) = [Some 6; Some 7; Some 8]
    ∧ ∃ first rest c,
        first :: rest ≡ₚ queue_of_today 1 (clock 0 0) busy_day
        ∧ pk first = Some 2
        ∧ iq_current_patient q1 = Some c
        ∧ entry_shows c first
        ∧ Forall2 entry_shows (iq_waiting_list q1) rest.
Proof.
  assert (∀ d, d ∈ doctors busy_day → _doctor_name (doctor_profile d) ≠ None)
    as Hnames.
  { intros d Hd. unfold busy_day in Hd. simpl in Hd.
    apply elem_of_cons in Hd as [->|Hd]; [vm_compute; discriminate|].
    apply list_elem_of_singleton in Hd as ->. vm_compute. discriminate. }
  destruct (proj1 (snapshot_shows_the_queue_of_call_next (clock 0 0) busy_day) Hnames)
    as [queues Hsome].
  assert (∃ q1 q2,
    _queue_snapshot_internal (clock 0 0) busy_day = Some [q1; q2]
    ∧ iq_doctor_id q1 = 1
    ∧ (ie_id <$> iq_current_patient q1) = Some (Some 2)
    ∧ (ie_id <$> iq_waiting_list q1) = [Some 1]
    ∧ (ie_id <$> iq_current_patient q2) = Some (Some 5)
    ∧ (ie_id <$> iq_waiting_list q2) = [Some 6; Some 7; Some 8])
    as (q1 & q2 & Hs & Hd1 & Hc1 & Hw1 & Hc2 & Hw2)
    by (eexists _, _; repeat split; vm_compute; reflexivity).
  exists q1, q2. do 6 (split; [assumption|]).
  destruct (proj1 (proj2 (snapshot_shows_the_queue_of_call_next (clock 0 0) busy_day)
                     [q1; q2] Hs) q1 ltac:(by left))
    as (_ & _ & first & rest & c & Hperm & _ & _ & Hc & Hshows & Hrest).
  exists first, rest, c. rewrite Hd1 in Hperm. split; [exact Hperm|].
  split; [|split; [exact Hc|split; [exact Hshows|exact Hrest]]].
  rewrite Hc in Hc1. injection Hc1 as Hc1.
  rewrite <-Hc1. symmetry. exact (proj1 Hshows).
Defined.


(** Friday 10 January 2025 is day 20098 and the Monday before it day
    20094.  On the busy day the chart shows the seven appointments of the
    Friday, the cancelled one included, as its fifth bar and the one of
    the Saturday as its sixth; two patients have the seven appointments
    of today. *)
Lemma dashboard_figures_add_up_witness :
  local_today (clock 8 0) = 20098
  ∧ chart_data (secretary_dashboard (clock 8 0) busy_day)
    = [0; 0; 0; 0; 7; 1; 0]%nat
  ∧ appointments_today (stats (secretary_dashboard (clock 8 0) busy_day)) = 7%nat
  ∧ patients_today (stats (secretary_dashboard (clock 8 0) busy_day)) = 2%nat.
Proof.
  assert (20094 `mod` 7 = 4) as Hmonday by reflexivity.
  assert (20094 ≤ local_today (clock 8 0) ≤ 20094 + 6) as Hrange
    by (vm_compute; split; discriminate).
  destruct (dashboard_figures_add_up (clock 8 0) busy_day 20094 Hmonday Hrange)
    as (Hchart & _).
  split; [vm_compute; reflexivity|].
  split; [rewrite Hchart; vm_compute; reflexivity|].
  split; vm_compute; reflexivity.
Defined.

(** The 09:00 booking is in the range of today and in no other. *)
Lemma date_range_filter_splits_the_rows_witness :
  ∃ r, appointments booked = [r]
       ∧ r ∈ AppointmentDateRangeFilter_queryset (Some "today") (clock 8 0)
               (appointments booked)
       ∧ r ∉ AppointmentDateRangeFilter_queryset (Some "past") (clock 8 0)
               (appointments booked).
Proof.
  assert (∃ r, appointments booked = [r] ∧ is_Some (scheduled_time r)
               ∧ r ∈ AppointmentDateRangeFilter_queryset (Some "today") (clock 8 0)
                       (appointments booked))
    as (r & Hrows & [dt Ht] & Htoday).
  { eexists. split; [reflexivity|]. split; [by eexists|].
    vm_compute. by left. }
  exists r. split; [exact Hrows|]. split; [exact Htoday|].
  assert (r ∈ appointments booked) as Hr by (rewrite Hrows; by left).
  pose proof (proj1 (date_range_filter_splits_the_rows (clock 8 0)
                       (appointments booked)) r Hr) as Hsplit.
  rewrite Ht in Hsplit.
  destruct Hsplit as [(_ & Hn & _)|[(Hn & _)|(_ & Hn & _)]]; [done|exact Hn|done].
Defined.

(** The admin cancels the completed 09:00 appointment. *)
Lemma admin_status_actions_witness :
  ∃ db',
    mark_cancelled [1] called = Ok ("1 appointment(s) marked as cancelled.", db')
    ∧ constraints db'
    ∧ (status <$> get_appointment 1 called) = Some AppointmentStatus.COMPLETED
    ∧ (status <$> get_appointment 1 db') = Some AppointmentStatus.CANCELLED.
Proof.
  assert (constraints called) as Hc by compute_done.
  destruct (proj1 (admin_status_actions [1] called Hc)) as [Hm Hc'].
  eexists. split; [exact Hm|]. split; [exact Hc'|].
  split; vm_compute; reflexivity.
Defined.

(** Sara asks doctor 1 for 09:30 at 08:00, the 09:00 slot being booked. *)
Lemma book_patient_files_a_request_only_witness :
  ∃ db',
    book_patient POST "patient" amal 1 (Some (patient_profile 10))
      (Some (at_local 9 30)) (clock 8 0) booked
    = (PortalRedirect "patient:dashboard"
         "Your request was sent and is pending secretary approval.", db')
    ∧ appointments db' = appointments booked
    ∧ length (booking_requests db') = 1%nat
    ∧ length (notifications db') = 1%nat.
Proof.
  assert (∃ db', book_patient POST "patient" amal 1 (Some (patient_profile 10))
                   (Some (at_local 9 30)) (clock 8 0) booked
                 = (PortalRedirect "patient:dashboard"
                      "Your request was sent and is pending secretary approval.", db'))
    as [db' Hout] by (eexists; vm_compute; reflexivity).
  exists db'. split; [exact Hout|].
  destruct (book_patient_files_a_request_only POST "patient" amal 1
              (Some (patient_profile 10)) (Some (at_local 9 30)) (clock 8 0) booked)
    as (Ha & _ & Hredirect & _).
  rewrite Hout in Ha, Hredirect. simpl in Ha, Hredirect.
  split; [exact Ha|].
  destruct (Hredirect _ _ eq_refl)
    as (_ & _ & _ & dt & req & _ & _ & _ & Hreq & _ & _ & _ & _ & Hnot).
  rewrite Hreq, Hnot. split; reflexivity.
Defined.

(** Sara asks doctor 1 for the booked 09:00 slot. *)
Lemma book_patient_lets_model_errors_escape_witness :
  ∃ errors,
    book_patient POST "patient" amal 1 (Some (patient_profile 10))
      (Some (at_local 9 0)) (clock 8 0) booked
    = (PortalError (ValidationError errors), booked)
    ∧ ("scheduled_time", "This time is already allocated for this doctor.") ∈ errors.
Proof.
  assert (1 ∈ doctors booked) as Hd by compute_done.
  assert (clock 8 0 < timestamp (at_local 9 0)) as Hfuture
    by (vm_compute; reflexivity).
  assert (Exists (occupies 1 (Aware (timestamp (at_local 9 0)) LOCAL_TZ))
            (appointments booked)) as Hocc by compute_done.
  assert ((1 : Z) ≠ 0) as Hne by discriminate.
  exact (proj2 (book_patient_lets_model_errors_escape amal 1 (patient_profile 10)
                  (Some (at_local 9 0)) (clock 8 0) booked Hd) (at_local 9 0)
           eq_refl Hfuture Hne Hocc).
Defined.


(** The first booking of the day gets key 1; deleting it gives the opening
    table back, with the sequence at 2. *)
Lemma created_appointment_loads_and_deletes_witness :
  pk first_booking = Some 1
  ∧ get_appointment 1 booked = Some (to_row first_booking)
  ∧ (delete_appointment POST true 1 booked).2 = set_appointment_seq 2 opening.
Proof.
  assert (constraints opening) as Hc by compute_done.
  assert (keyed opening) as Hk by compute_done.
  assert (Appointment_save (booking 10 1 9 0) None (clock 8 0) opening
          = Ok (first_booking, booked)) as Hs by (vm_compute; reflexivity).
  destruct (created_appointment_loads_and_deletes (booking 10 1 9 0) (clock 8 0)
              opening first_booking booked Hc Hk eq_refl Hs)
    as (H1 & _ & H2 & _ & H3 & _).
  split; [exact H1|]. split; [exact H2|exact H3].
Defined.

(** Sara's request for doctor 1 at 09:00 cannot be saved once the slot is
    booked, be it found booked or booked after the request was made. *)
Lemma request_for_a_booked_slot_cannot_be_saved_witness :
  (∃ errors,
     PatientBookingRequest_save (request 9 0) (clock 8 0) booked
     = Raise (ValidationError errors)
     ∧ ("scheduled_time", "This time is already allocated for this doctor.")
       ∈ errors)
  ∧ (∃ errors,
       PatientBookingRequest_save (request 9 0) (clock 8 30) booked
       = Raise (ValidationError errors)
       ∧ ("scheduled_time", "This time is already allocated for this doctor.")
         ∈ errors).
Proof.
  assert ((1 : Z) ≠ 0) as Hne by discriminate.
  assert (Exists (occupies 1 (Aware (timestamp (at_local 9 0)) LOCAL_TZ))
            (appointments booked)) as Hocc by compute_done.
  assert (Appointment_save (booking 10 1 9 0) None (clock 8 0) opening
          = Ok (first_booking, booked)) as Hs by (vm_compute; reflexivity).
  assert (status (booking 10 1 9 0) ≠ AppointmentStatus.CANCELLED) as Hst
    by discriminate.
  split.
  - exact (proj1 (request_for_a_booked_slot_cannot_be_saved (request 9 0) 1
                    (at_local 9 0) booked eq_refl Hne eq_refl) Hocc (clock 8 0)).
  - exact (proj2 (request_for_a_booked_slot_cannot_be_saved (request 9 0) 1
                    (at_local 9 0) opening eq_refl Hne eq_refl)
             (booking 10 1 9 0) (clock 8 0) first_booking booked
             eq_refl eq_refl eq_refl Hst Hs (clock 8 30)).
Defined.

(** Noor is moved from doctor 2 to doctor 1 at 10:00, a free time; her
    queue number 1 is the one Sara holds with doctor 1, and the request
    ends in the ValidationError of the constraint. *)
Lemma edit_appointment_outcomes_witness :
  edit_appointment POST moved_to_doctor_1 2 (clock 8 0) two_doctors
  = (ServerError (ValidationError
       [("__all__", "Constraint “uq_doctor_day_queue_active” is violated.")]),
     two_doctors)
  ∧ ¬ Exists (occupies 1 (at_local 10 0)) (appointments two_doctors).
Proof.
  assert (constraints two_doctors) as Hc by compute_done.
  assert (¬ Exists (occupies 1 (at_local 10 0)) (appointments two_doctors))
    as Hfree by compute_done.
  split; [|exact Hfree].
  destruct (get_appointment 2 two_doctors) as [r|] eqn:Hget;
    [|vm_compute in Hget; discriminate].
  pose proof (edit_appointment_outcomes moved_to_doctor_1 2 r (clock 8 0)
                two_doctors Hc Hget) as [H _].
  vm_compute in Hget. injection Hget as <-.
  destruct (AppointmentForm_full_clean _ moved_to_doctor_1 (clock 8 0) two_doctors)
    as [appt|e] eqn:Hf; [|vm_compute in Hf; discriminate].
  vm_compute in Hf. injection Hf as <-.
  destruct H as (_ & _ & Hheld & _).
  assert (number_held_by_another
            (mkAppointment (Some 2) 11 1 (Some (at_local 10 0)) (Some 20098) (Some 1%N)
               (Some 0) (Some "") AppointmentStatus.PENDING (Some (clock 8 0)))
            two_doctors) as Hn by compute_done.
  exact (Hheld Hn).
Defined.


(** Sara's request is confirmed in the admin after her slot was booked
    by the desk: the status changes, and no appointment is added. *)
Lemma admin_request_actions_witness :
  (mark_as_confirmed [1] requested_then_booked).1
  = "1 booking request(s) marked as confirmed."
  ∧ (br_status <$> booking_requests (mark_as_confirmed [1] requested_then_booked).2)
    = [BookingRequestStatus.CONFIRMED]
  ∧ appointments (mark_as_confirmed [1] requested_then_booked).2
    = appointments requested_then_booked.
Proof.
  destruct (admin_request_actions [1] requested_then_booked)
    as ((Happts & _) & Hmessage & _).
  split; [|split; [|exact Happts]].
  - rewrite Hmessage. vm_compute. reflexivity.
  - vm_compute. reflexivity.
Defined.

End DeskCases.
